(** * FM-Recipes: the recipe aggregate, its two data-access paths and the
      rating aggregator

    The repository holds two implementations of the recipe operations:

    - [RecipeService] (services/recipe.service.ts), written against the
      Prisma model API ([db.recipe.create], [db.recipeRating.upsert], ...);
    - [CustomPrismaClient] (prisma/client.ts), written in raw SQL, and the
      HTTP [RecipeController] (controllers/RecipeController.ts) on top of it.

    Both are embedded here over one relational store following
    prisma/schema.prisma.  Rows are records, tables are a finite map (the
    [Recipe] table, keyed by its primary key) or lists of rows (the child
    tables), JavaScript [undefined]/[null] is [None], integers are [Z], the
    averages are rationals, and [async] code is a state-and-error monad over
    the store. *)

From stdpp Require Import gmap strings list fin_maps.
From Stdlib Require Import QArith.
Close Scope Q_scope.
Open Scope string_scope.
Open Scope list_scope.
Open Scope Z_scope.

(** ** Data model (types.ts, prisma/schema.prisma) *)

(** JavaScript [Date]; [CURRENT_TIMESTAMP], [@default(now())] and
    [@updatedAt] read the clock, which every operation receives as [now]. *)
Definition Date := nat.

Inductive Difficulty := EASY | MEDIUM | HARD.

#[global] Instance Difficulty_eq_dec : EqDecision Difficulty.
Proof. solve_decision. Defined.

Module Recipe.
Record t := mk {
    id : string;
    name : string;
    description : option string;
    instructions : string;
    prepTime : Z;
    cookTime : Z;
    servings : Z;
    difficulty : Difficulty;
    usageCount : Z;
    createdAt : Date;
    updatedAt : Date;
    userId : string;
    familyId : string
  }.
End Recipe.

Module RecipeIngredient.
Record t := mk {
    id : string;
    recipeId : string;
    itemId : string;
    quantity : Q;
    unit : string;
    notes : option string;
    createdAt : Date;
    updatedAt : Date
  }.
End RecipeIngredient.

Module RecipeRating.
Record t := mk {
    id : string;
    recipeId : string;
    userId : string;
    nutrition : option Z;
    flavor : option Z;
    difficulty : option Z;
    comment : option string;
    createdAt : Date;
    updatedAt : Date
  }.
End RecipeRating.

(** The element type of [CreateRecipeInput.ingredients] and of
    [UpdateRecipeInput.ingredients]; the optional [id] of the latter is read
    by no code path and is left out. *)
Module IngredientInput.
Record t := mk {
    itemId : string;
    quantity : Q;
    unit : string;
    notes : option string
  }.
End IngredientInput.

Module CreateRecipeInput.
Record t := mk {
    name : string;
    description : option string;
    instructions : string;
    prepTime : Z;
    cookTime : Z;
    servings : Z;
    difficulty : option Difficulty;
    ingredients : list IngredientInput.t
  }.
End CreateRecipeInput.

Module UpdateRecipeInput.
Record t := mk {
    name : option string;
    description : option string;
    instructions : option string;
    prepTime : option Z;
    cookTime : option Z;
    servings : option Z;
    difficulty : option Difficulty;
    ingredients : option (list IngredientInput.t)
  }.
End UpdateRecipeInput.

Module RateRecipeInput.
Record t := mk {
    nutrition : option Z;
    flavor : option Z;
    difficulty : option Z;
    comment : option string
  }.
End RateRecipeInput.

Module RecipeFilters.
Record t := mk {
    name : option string;
    difficulty : option Difficulty;
    maxPrepTime : option Z;
    maxCookTime : option Z;
    minRating : option Q;
    ingredient : option string
  }.
End RecipeFilters.

(** [UserContext] of the controller: the authenticated caller. *)
Module UserContext.
Record t := mk {
    id : string;
    role : string;
    familyId : string
  }.
End UserContext.

(** ** Rating aggregator ([RecipeService.calculateAverageRating]) *)

(** [type RatingStats = { nutrition, flavor, difficulty : number | null }];
    a [RecipeRating.t] row is read at these three keys. *)
Inductive RatingField := nutrition | flavor | difficulty.

Definition rating_get (r : RecipeRating.t) (field : RatingField) : option Z :=
  match field with
  | nutrition => RecipeRating.nutrition r
  | flavor => RecipeRating.flavor r
  | difficulty => RecipeRating.difficulty r
  end.

(** JavaScript [v || 0] on [number | null | undefined]. *)
Definition or_zero (v : option Z) : Z :=
  match v with
  | Some n => if n =? 0 then 0 else n
  | None => 0
  end.

Definition is_present {A} (v : option A) : bool :=
  match v with Some _ => true | None => false end.

(** [[
    const validRatings = ratings.filter((r) => r[field] != null);
    if (validRatings.length === 0) return 0;
    const sum = validRatings.reduce((acc, rating) => acc + (rating[field] || 0), 0);
    return sum / validRatings.length;
    ]] *)
Definition calculateAverageRating
    (ratings : list RecipeRating.t) (field : RatingField) : Q :=
  let validRatings :=
    List.filter (λ r, is_present (rating_get r field)) ratings in
  if (length validRatings =? 0)%nat then 0%Q
  else
    let sum :=
      fold_left (λ acc rating, acc + or_zero (rating_get rating field))
                validRatings 0 in
    (inject_Z sum / inject_Z (Z.of_nat (length validRatings)))%Q.

Module AverageRatings.
Record t := mk { nutrition : Q; flavor : Q; difficulty : Q }.
End AverageRatings.

(** The object literal built in [getRecipe] and [listRecipes]. *)
Definition averageRatings (ratings : list RecipeRating.t) : AverageRatings.t :=
  {| AverageRatings.nutrition := calculateAverageRating ratings nutrition;
     AverageRatings.flavor := calculateAverageRating ratings flavor;
     AverageRatings.difficulty := calculateAverageRating ratings difficulty |}.

(** *** The aggregator as the specification words it *)

(** The non-null values of one field, in order. *)
Definition present_values
    (ratings : list RecipeRating.t) (field : RatingField) : list Z :=
  omap (λ r, rating_get r field) ratings.

Definition sum_list (l : list Z) : Z := foldr Z.add 0 l.

(** Arithmetic mean of a sequence of integers, 0 for the empty sequence. *)
Definition mean_or_zero (l : list Z) : Q :=
  match l with
  | [] => 0%Q
  | _ => (inject_Z (sum_list l) / inject_Z (Z.of_nat (length l)))%Q
  end.

(** ** The relational store (prisma/schema.prisma) *)

Module Store.
Record t := mk {
    (** table [Recipe], indexed by its primary key [id] *)
    recipes : gmap string Recipe.t;
    (** table [RecipeIngredient] *)
    ingredients : list RecipeIngredient.t;
    (** table [RecipeRating] *)
    ratings : list RecipeRating.t;
    (** table [Item] of the shopping plugin: [id] to [name] *)
    items : gmap string string
  }.

Definition with_recipes (f : gmap string Recipe.t → gmap string Recipe.t)
      (s : t) : t :=
    mk (f (recipes s)) (ingredients s) (ratings s) (items s).

Definition with_ingredients
      (f : list RecipeIngredient.t → list RecipeIngredient.t) (s : t) : t :=
    mk (recipes s) (f (ingredients s)) (ratings s) (items s).

Definition with_ratings
      (f : list RecipeRating.t → list RecipeRating.t) (s : t) : t :=
    mk (recipes s) (ingredients s) (f (ratings s)) (items s).
End Store.

(** Every identifier a row of the store carries or refers to. *)
Definition used_ids (s : Store.t) : gset string :=
  dom (Store.recipes s)
  ∪ list_to_set (RecipeIngredient.id <$> Store.ingredients s)
  ∪ list_to_set (RecipeIngredient.recipeId <$> Store.ingredients s)
  ∪ list_to_set (RecipeRating.id <$> Store.ratings s)
  ∪ list_to_set (RecipeRating.recipeId <$> Store.ratings s).

(** [@default(uuid())] of the schema, which the Prisma model API fills
    in: an identifier that occurs nowhere in the store. *)
Definition uuid (s : Store.t) : string := fresh (used_ids s).

(** ** Errors (errors/RecipeError.ts and the errors of the libraries) *)

Inductive RecipeErrorCode :=
  | VALIDATION_ERROR | UNAUTHORIZED | FORBIDDEN | NOT_FOUND
  | RECIPE_NOT_FOUND | USER_NOT_FOUND | FAMILY_NOT_FOUND | ITEM_NOT_FOUND
  | INVALID_RATING | INVALID_INGREDIENTS | INVALID_DIFFICULTY
  | INTERNAL_ERROR.

(** [RecipeError.statusCode]. *)
Definition statusCode (code : RecipeErrorCode) : Z :=
  match code with
  | VALIDATION_ERROR => 400
  | UNAUTHORIZED => 401
  | FORBIDDEN => 403
  | NOT_FOUND => 404
  | RECIPE_NOT_FOUND => 404
  | USER_NOT_FOUND => 404
  | FAMILY_NOT_FOUND => 404
  | ITEM_NOT_FOUND => 404
  | INVALID_RATING => 400
  | INVALID_INGREDIENTS => 400
  | INVALID_DIFFICULTY => 400
  | INTERNAL_ERROR => 500
  end.

Inductive Error :=
  (** [throw new Error(message)] *)
  | JsError (message : string)
  (** [throw new RecipeError({ code, message })] *)
  | RecipeError (code : RecipeErrorCode) (message : string)
  (** a failed [schema.parse] of zod *)
  | ZodError
  (** [Prisma.join] applied to an empty array *)
  | TypeError (message : string)
  (** a [PrismaClientKnownRequestError]: "P2025" record not found,
      "P2003" foreign key, "P2002" unique constraint, "P2010" raw query *)
  | PrismaError (code : string).

Inductive Result (A : Type) :=
  | Ok (a : A)
  | Err (e : Error).
Arguments Ok {A} a.
Arguments Err {A} e.

(** ** The monad of [async] database code *)

(** An [async] function over the database maps a store to its outcome (a
    value or a thrown error) and the store it leaves behind; [await]
    sequences, a [throw] skips what follows and keeps the writes made so
    far. *)
Definition DB (A : Type) : Type := Store.t → Result A * Store.t.

Definition ret {A} (a : A) : DB A := λ s, (Ok a, s).

Definition throw {A} (e : Error) : DB A := λ s, (Err e, s).

Definition bind {A B} (m : DB A) (k : A → DB B) : DB B :=
  λ s, match m s with
       | (Ok a, s') => k a s'
       | (Err e, s') => (Err e, s')
       end.

Notation "'await' x ':=' m 'in' k" := (bind m (λ x, k))
  (at level 10, x name, m at level 100, k at level 200,
   format "'[v' 'await'  x  ':='  m  'in' '/' k ']'").
Notation "'await_' m 'in' k" := (bind m (λ _, k))
  (at level 10, m at level 100, k at level 200,
   format "'[v' 'await_'  m  'in' '/' k ']'").

Definition get_store : DB Store.t := λ s, (Ok s, s).

Definition modify (f : Store.t → Store.t) : DB unit := λ s, (Ok tt, f s).

(** [this.$transaction(async (tx) => body)], and the implicit transaction
    around one Prisma model call: when the body throws, its writes are
    rolled back. *)
Definition transaction {A} (body : DB A) : DB A :=
  λ s, match body s with
       | (Ok a, s') => (Ok a, s')
       | (Err e, _) => (Err e, s)
       end.

(** [for (const x of xs) { await body(x) }] *)
Fixpoint for_of {A} (xs : list A) (body : A → DB unit) : DB unit :=
  match xs with
  | [] => ret tt
  | x :: xs' => await_ body x in for_of xs' body
  end.

(** ** SQL statements and constraints shared by both access paths *)

Definition ingredients_of (s : Store.t) (recipeId : string)
    : list RecipeIngredient.t :=
  List.filter (λ ri, bool_decide (RecipeIngredient.recipeId ri = recipeId))
              (Store.ingredients s).

Definition ratings_of (s : Store.t) (recipeId : string)
    : list RecipeRating.t :=
  List.filter (λ rr, bool_decide (RecipeRating.recipeId rr = recipeId))
              (Store.ratings s).

(** The row of one (recipe, user) pair: [WHERE recipeId = .. AND userId = ..]. *)
Definition is_rating_of (recipeId userId : string) (rr : RecipeRating.t)
    : bool :=
  bool_decide (RecipeRating.recipeId rr = recipeId)
  && bool_decide (RecipeRating.userId rr = userId).

(** Insert one [RecipeIngredient] row.  The foreign keys
    [recipeId -> Recipe.id] and [itemId -> Item.id] are checked by the
    database; [error] is what the caller's API reports on a violation. *)
Definition insert_ingredient (error : Error) (recipeId : string)
    (ingredient : IngredientInput.t) (notes : option string) (now : Date)
    : DB unit :=
  await s := get_store in
  if bool_decide (is_Some (Store.recipes s !! recipeId))
     && bool_decide (is_Some (Store.items s !! IngredientInput.itemId ingredient))
  then
    modify (Store.with_ingredients (λ rows, rows ++ [
      {| RecipeIngredient.id := uuid s;
         RecipeIngredient.recipeId := recipeId;
         RecipeIngredient.itemId := IngredientInput.itemId ingredient;
         RecipeIngredient.quantity := IngredientInput.quantity ingredient;
         RecipeIngredient.unit := IngredientInput.unit ingredient;
         RecipeIngredient.notes := notes;
         RecipeIngredient.createdAt := now;
         RecipeIngredient.updatedAt := now |} ]))
  else throw error.

(** [DELETE FROM "RecipeIngredient" WHERE recipeId = ..] and
    [recipeIngredient.deleteMany({ where: { recipeId } })]. *)
Definition delete_ingredients (recipeId : string) : DB unit :=
  modify (Store.with_ingredients
    (List.filter (λ ri, negb (bool_decide (RecipeIngredient.recipeId ri = recipeId))))).

(** Deleting a [Recipe] row; [onDelete: Cascade] removes its ingredient and
    rating rows with it. *)
Definition delete_recipe_cascade (id : string) : DB unit :=
  modify (λ s,
    Store.mk (delete id (Store.recipes s))
      (List.filter (λ ri, negb (bool_decide (RecipeIngredient.recipeId ri = id)))
                   (Store.ingredients s))
      (List.filter (λ rr, negb (bool_decide (RecipeRating.recipeId rr = id)))
                   (Store.ratings s))
      (Store.items s)).

(** JavaScript [s || null] on [string | undefined]: the empty string is
    falsy. *)
Definition str_or_null (v : option string) : option string :=
  match v with
  | Some s => if bool_decide (s = "") then None else Some s
  | None => None
  end.

(** JavaScript [n || null] on [number | undefined]: zero is falsy. *)
Definition num_or_null (v : option Z) : option Z :=
  match v with
  | Some n => if n =? 0 then None else Some n
  | None => None
  end.

(** Truthiness of an optional rational: [undefined] and 0 are falsy. *)
Definition truthy_Q (v : option Q) : bool :=
  match v with
  | Some q => negb (Qeq_bool q 0)
  | None => false
  end.

(** ** [CustomPrismaClient] (prisma/client.ts): the raw-SQL access path *)

(** [interface RecipeResult]: the [Recipe] columns ([r.*]) and, once the
    JSON columns are parsed, the ingredient and rating arrays and the SQL
    averages. *)
Module RecipeResult.
Record ingredient := mk_ingredient {
  id : string;
  itemId : string;
  quantity : Q;
  unit : string;
  notes : option string;
  (** ['item', json_object('name', i.name)] *)
  item : option string
}.

Record rating := mk_rating {
  userId : string;
  nutrition : option Z;
  flavor : option Z;
  difficulty : option Z;
  comment : option string
}.

(** [avg] of SQL is [NULL] over no value. *)
Record averages := mk_averages {
  avg_nutrition : option Q;
  avg_flavor : option Q;
  avg_difficulty : option Q
}.

Record details := mk_details {
  ingredients : list ingredient;
  ratings : list rating;
  averageRatings : averages
}.

(** [parsed] is [None] when [includeDetails] is false: the three columns
    are then left as the JSON text the query returned. *)
Record t := mk {
  row : Recipe.t;
  parsed : option details
}.
End RecipeResult.

Module CustomPrismaClient.

(** [LEFT JOIN]: a parent without child rows still yields one row, whose
    child columns are [NULL]. *)
Definition left_join {A} (children : list A) : list (option A) :=
  match children with
  | [] => [None]
  | _ => Some <$> children
  end.

(** The rows of
    [Recipe r LEFT JOIN RecipeIngredient ri LEFT JOIN RecipeRating rr]
    for one recipe: every ingredient row paired with every rating row. *)
Definition joined_rows (s : Store.t) (id : string)
    : list (option RecipeIngredient.t * option RecipeRating.t) :=
  flat_map (λ ri, (λ rr, (ri, rr)) <$> left_join (ratings_of s id))
           (left_join (ingredients_of s id)).

(** SQL [avg(column)]: the mean of the non-[NULL] values, [NULL] when
    there is none. *)
Definition sql_avg (column : list (option Z)) : option Q :=
  match omap id column with
  | [] => None
  | values =>
      Some (inject_Z (sum_list values) / inject_Z (Z.of_nat (length values)))%Q
  end.

Definition ingredient_json (s : Store.t) (ri : RecipeIngredient.t)
    : RecipeResult.ingredient :=
  {| RecipeResult.id := RecipeIngredient.id ri;
     RecipeResult.itemId := RecipeIngredient.itemId ri;
     RecipeResult.quantity := RecipeIngredient.quantity ri;
     RecipeResult.unit := RecipeIngredient.unit ri;
     RecipeResult.notes := RecipeIngredient.notes ri;
     RecipeResult.item := Store.items s !! RecipeIngredient.itemId ri |}.

Definition rating_json (rr : RecipeRating.t) : RecipeResult.rating :=
  {| RecipeResult.userId := RecipeRating.userId rr;
     RecipeResult.nutrition := RecipeRating.nutrition rr;
     RecipeResult.flavor := RecipeRating.flavor rr;
     RecipeResult.difficulty := RecipeRating.difficulty rr;
     RecipeResult.comment := RecipeRating.comment rr |}.

(** The [SELECT ... WHERE r.id = ${id} GROUP BY r.id LIMIT 1] of
    [findRecipeById] and the parsing that follows it.  The two
    [json_group_array] aggregates run over the joined rows; the filters
    [i.id !== null] and [r.userId !== null] drop the [NULL] sides of the
    left joins. *)
Definition findRecipeById (id : string) (includeDetails : bool)
    : DB (option RecipeResult.t) :=
  await s := get_store in
  match Store.recipes s !! id with
  | None => ret None
  | Some recipe =>
      let rows := joined_rows s id in
      if includeDetails then
        ret (Some {|
          RecipeResult.row := recipe;
          RecipeResult.parsed := Some {|
            RecipeResult.ingredients := ingredient_json s <$> omap fst rows;
            RecipeResult.ratings := rating_json <$> omap snd rows;
            RecipeResult.averageRatings := {|
              RecipeResult.avg_nutrition :=
                sql_avg ((λ row, snd row ≫= RecipeRating.nutrition) <$> rows);
              RecipeResult.avg_flavor :=
                sql_avg ((λ row, snd row ≫= RecipeRating.flavor) <$> rows);
              RecipeResult.avg_difficulty :=
                sql_avg ((λ row, snd row ≫= RecipeRating.difficulty) <$> rows)
            |}
          |}
        |})
      else ret (Some {| RecipeResult.row := recipe; RecipeResult.parsed := None |})
  end.

(** A raw statement the database rejects. *)
Definition raw_query_failed : Error := PrismaError "P2010".

(** The SQL functions that the raw statements of this file call and that
    the datasource defines.  The datasource is SQLite
    ([provider = "sqlite"], and the queries aggregate with SQLite's
    [json_group_array]); [uuid_generate_v4] is a function of PostgreSQL's
    uuid-ossp extension and is not among them. *)
Definition sqlite_functions : list string :=
  ["json_group_array"; "json_object"; "avg"; "count"; "coalesce"].

(** A raw statement whose text calls the SQL function [name].  SQLite
    resolves the functions of a statement when it prepares it: with a
    function it does not define the statement is rejected ("no such
    function") before it reads or writes a row, whatever the values bound
    to it. *)
Definition calling {A} (name : string) (statement : DB A) : DB A :=
  if bool_decide (name ∈ sqlite_functions) then statement
  else throw raw_query_failed.

(** [createRecipe]: one [$transaction] around the [INSERT] of the parent
    row and the loop of ingredient [INSERT]s.  Both [INSERT]s take the new
    identifier from [uuid_generate_v4()]; inside [calling] is what they
    store where that function exists.  [INSERT ... RETURNING *] yields the
    inserted row, so [if (!recipe[0])] does not fire.  The closing read
    goes through [this], not [tx]. *)
Definition createRecipe (userId familyId : string)
    (data : CreateRecipeInput.t) (now : Date) : DB (option RecipeResult.t) :=
  transaction (
    await recipe := calling "uuid_generate_v4" (
      await s := get_store in
      let recipe := {|
        Recipe.id := uuid s;
        Recipe.name := CreateRecipeInput.name data;
        Recipe.description := str_or_null (CreateRecipeInput.description data);
        Recipe.instructions := CreateRecipeInput.instructions data;
        Recipe.prepTime := CreateRecipeInput.prepTime data;
        Recipe.cookTime := CreateRecipeInput.cookTime data;
        Recipe.servings := CreateRecipeInput.servings data;
        Recipe.difficulty := default MEDIUM (CreateRecipeInput.difficulty data);
        Recipe.usageCount := 0;
        Recipe.createdAt := now;
        Recipe.updatedAt := now;
        Recipe.userId := userId;
        Recipe.familyId := familyId |} in
      await_ modify (Store.with_recipes (insert (Recipe.id recipe) recipe)) in
      ret recipe) in
    await_ for_of (CreateRecipeInput.ingredients data) (λ ingredient,
      calling "uuid_generate_v4"
        (insert_ingredient raw_query_failed (Recipe.id recipe) ingredient
           (str_or_null (IngredientInput.notes ingredient)) now)) in
    findRecipeById (Recipe.id recipe) true).

(** The [setClauses] of [updateRecipe]: one per key of [data] other than
    [ingredients] whose value is not [undefined]. *)
Definition has_set_clauses (data : UpdateRecipeInput.t) : bool :=
  is_present (UpdateRecipeInput.name data)
  || is_present (UpdateRecipeInput.description data)
  || is_present (UpdateRecipeInput.instructions data)
  || is_present (UpdateRecipeInput.prepTime data)
  || is_present (UpdateRecipeInput.cookTime data)
  || is_present (UpdateRecipeInput.servings data)
  || is_present (UpdateRecipeInput.difficulty data).

(** [UPDATE "Recipe" SET <setClauses>, "updatedAt" = CURRENT_TIMESTAMP] on
    one row; also what [recipe.update({ data })] does to it. *)
Definition set_recipe_fields (data : UpdateRecipeInput.t) (now : Date)
    (r : Recipe.t) : Recipe.t :=
  {| Recipe.id := Recipe.id r;
     Recipe.name := default (Recipe.name r) (UpdateRecipeInput.name data);
     Recipe.description :=
       match UpdateRecipeInput.description data with
       | Some d => Some d
       | None => Recipe.description r
       end;
     Recipe.instructions :=
       default (Recipe.instructions r) (UpdateRecipeInput.instructions data);
     Recipe.prepTime := default (Recipe.prepTime r) (UpdateRecipeInput.prepTime data);
     Recipe.cookTime := default (Recipe.cookTime r) (UpdateRecipeInput.cookTime data);
     Recipe.servings := default (Recipe.servings r) (UpdateRecipeInput.servings data);
     Recipe.difficulty :=
       default (Recipe.difficulty r) (UpdateRecipeInput.difficulty data);
     Recipe.usageCount := Recipe.usageCount r;
     Recipe.createdAt := Recipe.createdAt r;
     Recipe.updatedAt := now;
     Recipe.userId := Recipe.userId r;
     Recipe.familyId := Recipe.familyId r |}.

Definition updateRecipe (id : string) (data : UpdateRecipeInput.t)
    (now : Date) : DB RecipeResult.t :=
  transaction (
    await_ (if has_set_clauses data
            then modify (Store.with_recipes (alter (set_recipe_fields data now) id))
            else ret tt) in
    await_ (match UpdateRecipeInput.ingredients data with
            | Some ingredients =>
                await_ delete_ingredients id in
                for_of ingredients (λ ingredient,
                  calling "uuid_generate_v4"
                    (insert_ingredient raw_query_failed id ingredient
                       (str_or_null (IngredientInput.notes ingredient)) now))
            | None => ret tt
            end) in
    await recipe := findRecipeById id true in
    match recipe with
    | None => throw (JsError "Failed to update recipe")
    | Some recipe => ret recipe
    end).

Definition deleteRecipe (id : string) : DB RecipeResult.t :=
  await recipe := findRecipeById id false in
  match recipe with
  | None => throw (JsError "Recipe not found")
  | Some recipe =>
      await_ delete_recipe_cascade id in
      ret recipe
  end.

(** The [setClauses] of [rateRecipe]: empty exactly for a payload without
    any defined key. *)
Definition rating_has_set_clauses (data : RateRecipeInput.t) : bool :=
  is_present (RateRecipeInput.nutrition data)
  || is_present (RateRecipeInput.flavor data)
  || is_present (RateRecipeInput.difficulty data)
  || is_present (RateRecipeInput.comment data).

Definition overwrite {A} (old new : option A) : option A :=
  match new with
  | Some v => Some v
  | None => old
  end.

(** [UPDATE "RecipeRating" SET <one clause per defined key>,
    "updatedAt" = CURRENT_TIMESTAMP] on one row. *)
Definition set_rating_fields (data : RateRecipeInput.t) (now : Date)
    (rr : RecipeRating.t) : RecipeRating.t :=
  {| RecipeRating.id := RecipeRating.id rr;
     RecipeRating.recipeId := RecipeRating.recipeId rr;
     RecipeRating.userId := RecipeRating.userId rr;
     RecipeRating.nutrition :=
       overwrite (RecipeRating.nutrition rr) (RateRecipeInput.nutrition data);
     RecipeRating.flavor :=
       overwrite (RecipeRating.flavor rr) (RateRecipeInput.flavor data);
     RecipeRating.difficulty :=
       overwrite (RecipeRating.difficulty rr) (RateRecipeInput.difficulty data);
     RecipeRating.comment :=
       overwrite (RecipeRating.comment rr) (RateRecipeInput.comment data);
     RecipeRating.createdAt := RecipeRating.createdAt rr;
     RecipeRating.updatedAt := now |}.

Definition update_ratings_where (recipeId userId : string)
    (f : RecipeRating.t → RecipeRating.t) : DB unit :=
  modify (Store.with_ratings
    (map (λ rr, if is_rating_of recipeId userId rr then f rr else rr))).

(** [rateRecipe]: [SELECT id ... LIMIT 1], then [UPDATE] when a row exists
    and [INSERT] otherwise.  With an empty payload the [UPDATE] branch
    calls [Prisma.join] on an empty array, which throws before any
    statement is sent.  The [INSERT] takes the new identifier from
    [uuid_generate_v4()]; inside [calling] is what it stores where that
    function exists: [data.field || null] in every column, subject to the
    foreign key [recipeId -> Recipe.id]. *)
Definition rateRecipe (recipeId userId : string) (data : RateRecipeInput.t)
    (now : Date) : DB unit :=
  await s := get_store in
  let existingRating :=
    take 1 (List.filter (is_rating_of recipeId userId) (Store.ratings s)) in
  if (0 <? length existingRating)%nat then
    if rating_has_set_clauses data
    then update_ratings_where recipeId userId (set_rating_fields data now)
    else throw (TypeError "Expected `join([])` to be called with an array of multiple elements, but got an empty array")
  else
    calling "uuid_generate_v4" (
      if bool_decide (is_Some (Store.recipes s !! recipeId)) then
        modify (Store.with_ratings (λ rows, rows ++ [
          {| RecipeRating.id := uuid s;
             RecipeRating.recipeId := recipeId;
             RecipeRating.userId := userId;
             RecipeRating.nutrition := num_or_null (RateRecipeInput.nutrition data);
             RecipeRating.flavor := num_or_null (RateRecipeInput.flavor data);
             RecipeRating.difficulty := num_or_null (RateRecipeInput.difficulty data);
             RecipeRating.comment := str_or_null (RateRecipeInput.comment data);
             RecipeRating.createdAt := now;
             RecipeRating.updatedAt := now |} ]))
      else throw raw_query_failed).

(** The optional [where] argument of [countRecipes]. *)
Record CountWhere := mk_where {
  where_userId : option string;
  where_familyId : option string;
  where_difficulty : option Difficulty;
  where_minRating : option Q
}.

(** [COALESCE(column, 0)]. *)
Definition coalesce0 (v : option Z) : Z := default 0 v.

(** [(COALESCE(nutrition, 0) + COALESCE(flavor, 0) + COALESCE(difficulty, 0)) / 3]
    on one rating row.  The three columns are [Int] and 3 is an integer
    literal, so [/] is SQL integer division, which truncates. *)
Definition row_score (rr : RecipeRating.t) : Z :=
  Z.quot (coalesce0 (RecipeRating.nutrition rr)
          + coalesce0 (RecipeRating.flavor rr)
          + coalesce0 (RecipeRating.difficulty rr)) 3.

(** [(SELECT avg(...) FROM "RecipeRating" rr WHERE rr.recipeId = r.id)]. *)
Definition rating_subquery (s : Store.t) (recipeId : string) : option Q :=
  sql_avg ((λ rr, Some (row_score rr)) <$> ratings_of s recipeId).

(** SQL [value >= bound]: not true when [value] is [NULL]. *)
Definition sql_ge (value : option Q) (bound : Q) : bool :=
  match value with
  | Some v => Qle_bool bound v
  | None => false
  end.

(** The [conditions] array: one predicate on the row [r] per truthy key of
    [where]. *)
Definition conditions (s : Store.t) (where_ : option CountWhere)
    : list (Recipe.t → bool) :=
  match where_ with
  | None => []
  | Some w =>
      (match str_or_null (where_userId w) with
       | Some userId => [λ r, bool_decide (Recipe.userId r = userId)]
       | None => []
       end)
      ++ (match str_or_null (where_familyId w) with
          | Some familyId => [λ r, bool_decide (Recipe.familyId r = familyId)]
          | None => []
          end)
      ++ (match where_difficulty w with
          | Some d => [λ r, bool_decide (Recipe.difficulty r = d)]
          | None => []
          end)
      ++ (if truthy_Q (where_minRating w)
          then [λ r, sql_ge (rating_subquery s (Recipe.id r))
                            (default 0%Q (where_minRating w))]
          else [])
  end.

(** [SELECT COUNT( * ) FROM "Recipe" r WHERE c1 AND c2 AND ...]. *)
Definition countRecipes (where_ : option CountWhere) : DB Z :=
  await s := get_store in
  ret (Z.of_nat (length
    (List.filter (λ r, forallb (λ condition, condition r) (conditions s where_))
                 (snd <$> map_to_list (Store.recipes s))))).

(** [UPDATE "Recipe" SET usageCount = usageCount + 1,
    updatedAt = CURRENT_TIMESTAMP WHERE id = ${id}]. *)
Definition incrementUsageCount (id : string) (now : Date) : DB unit :=
  modify (Store.with_recipes (alter (λ r,
    {| Recipe.id := Recipe.id r;
       Recipe.name := Recipe.name r;
       Recipe.description := Recipe.description r;
       Recipe.instructions := Recipe.instructions r;
       Recipe.prepTime := Recipe.prepTime r;
       Recipe.cookTime := Recipe.cookTime r;
       Recipe.servings := Recipe.servings r;
       Recipe.difficulty := Recipe.difficulty r;
       Recipe.usageCount := Recipe.usageCount r + 1;
       Recipe.createdAt := Recipe.createdAt r;
       Recipe.updatedAt := now;
       Recipe.userId := Recipe.userId r;
       Recipe.familyId := Recipe.familyId r |}) id)).

(** The row one [GROUP BY r.id] group yields in [findRecipesByUser] and
    [findRecipesByFamily], parsed when [includeDetails] holds: the same
    aggregates as in [findRecipeById], over the rows joined to [r.id]. *)
Definition recipe_result (s : Store.t) (includeDetails : bool)
    (recipe : Recipe.t) : RecipeResult.t :=
  let rows := joined_rows s (Recipe.id recipe) in
  {| RecipeResult.row := recipe;
     RecipeResult.parsed :=
       if includeDetails then
         Some {|
           RecipeResult.ingredients := ingredient_json s <$> omap fst rows;
           RecipeResult.ratings := rating_json <$> omap snd rows;
           RecipeResult.averageRatings := {|
             RecipeResult.avg_nutrition :=
               sql_avg ((λ row, snd row ≫= RecipeRating.nutrition) <$> rows);
             RecipeResult.avg_flavor :=
               sql_avg ((λ row, snd row ≫= RecipeRating.flavor) <$> rows);
             RecipeResult.avg_difficulty :=
               sql_avg ((λ row, snd row ≫= RecipeRating.difficulty) <$> rows)
           |}
         |}
       else None |}.

(** [findRecipesByUser]: [SELECT ... WHERE r.userId = ${userId}
    GROUP BY r.id]. *)
Definition findRecipesByUser (userId : string) (includeDetails : bool)
    : DB (list RecipeResult.t) :=
  await s := get_store in
  ret (recipe_result s includeDetails
       <$> List.filter (λ r, bool_decide (Recipe.userId r = userId))
                       (snd <$> map_to_list (Store.recipes s))).

(** [findRecipesByFamily]: [SELECT ... WHERE r.familyId = ${familyId}
    GROUP BY r.id]. *)
Definition findRecipesByFamily (familyId : string) (includeDetails : bool)
    : DB (list RecipeResult.t) :=
  await s := get_store in
  ret (recipe_result s includeDetails
       <$> List.filter (λ r, bool_decide (Recipe.familyId r = familyId))
                       (snd <$> map_to_list (Store.recipes s))).

End CustomPrismaClient.

(** ** [RecipeController] (controllers/RecipeController.ts) *)

(** Each handler wraps its body in [try { ... } catch (error) { return
    errorResponse(c, error) }]: [Ok v] is [successResponse(c, v)] and
    [Err e] is [errorResponse(c, e)]. *)
Module RecipeController.

Definition opt_all {A} (p : A → bool) (v : option A) : bool :=
  match v with
  | Some a => p a
  | None => true
  end.

(** [recipeSchema.partial().parse(data)]: every key is optional, a key that
    is present must satisfy its rule. *)
Definition recipeSchema_partial_parse (data : UpdateRecipeInput.t)
    : DB UpdateRecipeInput.t :=
  if opt_all (λ v, (1 <=? String.length v)%nat) (UpdateRecipeInput.name data)
     && opt_all (λ v, (1 <=? String.length v)%nat) (UpdateRecipeInput.instructions data)
     && opt_all (λ v, 0 <=? v) (UpdateRecipeInput.prepTime data)
     && opt_all (λ v, 0 <=? v) (UpdateRecipeInput.cookTime data)
     && opt_all (λ v, 1 <=? v) (UpdateRecipeInput.servings data)
     && opt_all (λ v, (1 <=? length v)%nat
                      && forallb (λ i, Qle_bool 0 (IngredientInput.quantity i)) v)
                (UpdateRecipeInput.ingredients data)
  then ret data
  else throw ZodError.

Definition updateRecipe (user : UserContext.t) (id : string)
    (data : UpdateRecipeInput.t) (now : Date) : DB RecipeResult.t :=
  await existingRecipe := CustomPrismaClient.findRecipeById id true in
  match existingRecipe with
  | None => throw (RecipeError RECIPE_NOT_FOUND "Recipe not found")
  | Some existingRecipe =>
      if negb (bool_decide (Recipe.userId (RecipeResult.row existingRecipe)
                            = UserContext.id user))
         && negb (bool_decide (Recipe.familyId (RecipeResult.row existingRecipe)
                               = UserContext.familyId user))
      then throw (RecipeError FORBIDDEN
                    "You do not have permission to update this recipe")
      else
        await validatedData := recipeSchema_partial_parse data in
        await updatedRecipe :=
          CustomPrismaClient.updateRecipe id validatedData now in
        ret updatedRecipe
  end.

(** Succeeds with [{ message: 'Recipe deleted successfully' }]. *)
Definition deleteRecipe (user : UserContext.t) (id : string) : DB unit :=
  await recipe := CustomPrismaClient.findRecipeById id true in
  match recipe with
  | None => throw (RecipeError RECIPE_NOT_FOUND "Recipe not found")
  | Some recipe =>
      if negb (bool_decide (Recipe.userId (RecipeResult.row recipe)
                            = UserContext.id user))
         && negb (bool_decide (Recipe.familyId (RecipeResult.row recipe)
                               = UserContext.familyId user))
      then throw (RecipeError FORBIDDEN
                    "You do not have permission to delete this recipe")
      else
        await_ CustomPrismaClient.deleteRecipe id in
        ret tt
  end.

(** [recipeSchema.parse(data)]: [name] and [instructions] are not empty,
    the times are not negative, there is at least one serving and at least
    one ingredient, and no quantity is negative. *)
Definition recipeSchema_parse (data : CreateRecipeInput.t)
    : DB CreateRecipeInput.t :=
  if (1 <=? String.length (CreateRecipeInput.name data))%nat
     && (1 <=? String.length (CreateRecipeInput.instructions data))%nat
     && (0 <=? CreateRecipeInput.prepTime data)
     && (0 <=? CreateRecipeInput.cookTime data)
     && (1 <=? CreateRecipeInput.servings data)
     && (1 <=? length (CreateRecipeInput.ingredients data))%nat
     && forallb (λ i, Qle_bool 0 (IngredientInput.quantity i))
                (CreateRecipeInput.ingredients data)
  then ret data
  else throw ZodError.

(** [ratingSchema.parse(data)]: a score that is present lies between 0
    and 5. *)
Definition ratingSchema_parse (data : RateRecipeInput.t)
    : DB RateRecipeInput.t :=
  if opt_all (λ v, (0 <=? v) && (v <=? 5)) (RateRecipeInput.nutrition data)
     && opt_all (λ v, (0 <=? v) && (v <=? 5)) (RateRecipeInput.flavor data)
     && opt_all (λ v, (0 <=? v) && (v <=? 5)) (RateRecipeInput.difficulty data)
  then ret data
  else throw ZodError.

Definition getRecipes (user : UserContext.t) : DB (list RecipeResult.t) :=
  await recipes :=
    CustomPrismaClient.findRecipesByUser (UserContext.id user) true in
  ret recipes.

Definition getRecipeById (user : UserContext.t) (id : string)
    : DB RecipeResult.t :=
  await recipe := CustomPrismaClient.findRecipeById id true in
  match recipe with
  | None => throw (RecipeError RECIPE_NOT_FOUND "Recipe not found")
  | Some recipe =>
      if negb (bool_decide (Recipe.userId (RecipeResult.row recipe)
                            = UserContext.id user))
         && negb (bool_decide (Recipe.familyId (RecipeResult.row recipe)
                               = UserContext.familyId user))
      then throw (RecipeError FORBIDDEN "You do not have access to this recipe")
      else ret recipe
  end.

Definition getFamilyRecipes (user : UserContext.t) (familyId : string)
    : DB (list RecipeResult.t) :=
  if negb (bool_decide (familyId = UserContext.familyId user))
  then throw (RecipeError FORBIDDEN
                "You do not have access to this family's recipes")
  else
    await recipes := CustomPrismaClient.findRecipesByFamily familyId true in
    ret recipes.

(** [successResponse(c, recipe, 201)] when the client returns; the owner
    and the family handed to the client are the caller's. *)
Definition createRecipe (user : UserContext.t) (data : CreateRecipeInput.t)
    (now : Date) : DB (option RecipeResult.t) :=
  await validatedData := recipeSchema_parse data in
  await recipe :=
    CustomPrismaClient.createRecipe (UserContext.id user)
      (UserContext.familyId user) validatedData now in
  ret recipe.

Definition rateRecipe (user : UserContext.t) (id : string)
    (data : RateRecipeInput.t) (now : Date) : DB (option RecipeResult.t) :=
  await recipe := CustomPrismaClient.findRecipeById id true in
  match recipe with
  | None => throw (RecipeError RECIPE_NOT_FOUND "Recipe not found")
  | Some recipe =>
      if negb (bool_decide (Recipe.familyId (RecipeResult.row recipe)
                            = UserContext.familyId user))
      then throw (RecipeError FORBIDDEN
                    "You do not have permission to rate this recipe")
      else
        await validatedData := ratingSchema_parse data in
        await_ CustomPrismaClient.rateRecipe id (UserContext.id user)
                 validatedData now in
        await_ CustomPrismaClient.incrementUsageCount id now in
        await updatedRecipe := CustomPrismaClient.findRecipeById id true in
        ret updatedRecipe
  end.

End RecipeController.

(** ** The Prisma model API, as [RecipeService] calls it *)

(** [RecipeWithIngredients] and [RecipeWithDetails]: a recipe with the
    relations a query includes.  An ingredient comes with the name of its
    item when the query asks for [item: { select: { name: true } }]. *)
Module RecipeWithDetails.
Record t := mk {
  recipe : Recipe.t;
  ingredients : list (RecipeIngredient.t * option string);
  ratings : list RecipeRating.t;
  averageRatings : option AverageRatings.t
}.
End RecipeWithDetails.

(** The [data] of [recipe.create]; [ingredients] is the nested
    [{ create: [...] }]. *)
Module RecipeCreateData.
Record t := mk {
  name : string;
  description : option string;
  instructions : string;
  prepTime : Z;
  cookTime : Z;
  servings : Z;
  difficulty : option Difficulty;
  usageCount : option Z;
  userId : string;
  familyId : string;
  ingredients : list IngredientInput.t
}.
End RecipeCreateData.

(** The [where] of [recipe.findMany] in [listRecipes]. *)
Module RecipeWhere.
Record t := mk {
  familyId : string;
  (** [name: { contains }] *)
  name : option string;
  difficulty : option Difficulty;
  (** [prepTime: { lte }] and [cookTime: { lte }] *)
  prepTime : option Z;
  cookTime : option Z;
  (** [ingredients: { some: { item: { name: { contains } } } }] *)
  ingredients : option string
}.
End RecipeWhere.

Module db.

(** Prisma reports a foreign-key violation as P2003 and a missing record
    of [update] and [delete] as P2025. *)
Definition foreign_key_failed : Error := PrismaError "P2003".
Definition record_not_found : Error := PrismaError "P2025".

(** [recipe.create({ data, include: { ingredients: true } })]: the columns
    left out take their schema defaults ([difficulty] MEDIUM, [usageCount]
    0, [createdAt]/[updatedAt] now); the nested creates run in the same
    transaction as the parent insert. *)
Definition recipe_create (data : RecipeCreateData.t) (now : Date)
    : DB (Recipe.t * list RecipeIngredient.t) :=
  transaction (
    await s := get_store in
    let recipe := {|
      Recipe.id := uuid s;
      Recipe.name := RecipeCreateData.name data;
      Recipe.description := RecipeCreateData.description data;
      Recipe.instructions := RecipeCreateData.instructions data;
      Recipe.prepTime := RecipeCreateData.prepTime data;
      Recipe.cookTime := RecipeCreateData.cookTime data;
      Recipe.servings := RecipeCreateData.servings data;
      Recipe.difficulty := default MEDIUM (RecipeCreateData.difficulty data);
      Recipe.usageCount := default 0 (RecipeCreateData.usageCount data);
      Recipe.createdAt := now;
      Recipe.updatedAt := now;
      Recipe.userId := RecipeCreateData.userId data;
      Recipe.familyId := RecipeCreateData.familyId data |} in
    await_ modify (Store.with_recipes (insert (Recipe.id recipe) recipe)) in
    await_ for_of (RecipeCreateData.ingredients data) (λ ingredient,
      insert_ingredient foreign_key_failed (Recipe.id recipe) ingredient
        (IngredientInput.notes ingredient) now) in
    await s' := get_store in
    ret (recipe, ingredients_of s' (Recipe.id recipe))).

(** [recipeIngredient.createMany({ data })]: one statement, all rows or
    none. *)
Definition recipeIngredient_createMany
    (data : list (string * IngredientInput.t)) (now : Date) : DB unit :=
  transaction (
    for_of data (λ '(recipeId, ingredient),
      insert_ingredient foreign_key_failed recipeId ingredient
        (IngredientInput.notes ingredient) now)).

(** [recipe.findUnique({ where: { id }, include: { ingredients: true } })];
    callers that do not include the ingredients ignore them. *)
Definition recipe_findUnique (id : string)
    : DB (option (Recipe.t * list RecipeIngredient.t)) :=
  await s := get_store in
  ret ((λ recipe, (recipe, ingredients_of s id)) <$> Store.recipes s !! id).

Definition recipeIngredient_deleteMany (recipeId : string) : DB unit :=
  delete_ingredients recipeId.

(** [recipe.update({ where: { id }, data, include: { ingredients: true } })]:
    keys whose value is [undefined] are left alone. *)
Definition recipe_update (id : string) (data : UpdateRecipeInput.t)
    (now : Date) : DB (Recipe.t * list RecipeIngredient.t) :=
  await s := get_store in
  match Store.recipes s !! id with
  | None => throw record_not_found
  | Some recipe =>
      let updated := CustomPrismaClient.set_recipe_fields data now recipe in
      await_ modify (Store.with_recipes (insert id updated)) in
      ret (updated, ingredients_of s id)
  end.

(** [recipe.update({ where: { id },
    data: { usageCount: { increment: 1 } } })]. *)
Definition recipe_update_increment (id : string) (now : Date) : DB unit :=
  await s := get_store in
  match Store.recipes s !! id with
  | None => throw record_not_found
  | Some _ => CustomPrismaClient.incrementUsageCount id now
  end.

(** [recipe.delete({ where: { id } })]. *)
Definition recipe_delete (id : string) : DB unit :=
  await s := get_store in
  match Store.recipes s !! id with
  | None => throw record_not_found
  | Some _ => delete_recipe_cascade id
  end.

Section findMany.
(** The string filter [{ contains }] of Prisma; which letters it
    identifies depends on the database, so it is a parameter. *)
Variable contains : string → string → bool.

Definition with_item (s : Store.t) (ri : RecipeIngredient.t)
    : RecipeIngredient.t * option string :=
  (ri, Store.items s !! RecipeIngredient.itemId ri).

Definition matches (s : Store.t) (w : RecipeWhere.t) (r : Recipe.t) : bool :=
  bool_decide (Recipe.familyId r = RecipeWhere.familyId w)
  && match RecipeWhere.name w with
     | Some sub => contains (Recipe.name r) sub
     | None => true
     end
  && match RecipeWhere.difficulty w with
     | Some d => bool_decide (Recipe.difficulty r = d)
     | None => true
     end
  && match RecipeWhere.prepTime w with
     | Some bound => Recipe.prepTime r <=? bound
     | None => true
     end
  && match RecipeWhere.cookTime w with
     | Some bound => Recipe.cookTime r <=? bound
     | None => true
     end
  && match RecipeWhere.ingredients w with
     | Some sub =>
         existsb (λ ri, match snd (with_item s ri) with
                        | Some name => contains name sub
                        | None => false
                        end)
                 (ingredients_of s (Recipe.id r))
     | None => true
     end.

(** [recipe.findMany({ where, include: { ingredients: { include: { item:
    { select: { name: true } } } }, ratings: true } })]. *)
Definition recipe_findMany (w : RecipeWhere.t)
    : DB (list RecipeWithDetails.t) :=
  await s := get_store in
  ret ((λ r, {| RecipeWithDetails.recipe := r;
                RecipeWithDetails.ingredients :=
                  with_item s <$> ingredients_of s (Recipe.id r);
                RecipeWithDetails.ratings := ratings_of s (Recipe.id r);
                RecipeWithDetails.averageRatings := None |})
       <$> List.filter (matches s w) (snd <$> map_to_list (Store.recipes s))).
End findMany.

(** [recipeRating.upsert({ where: { recipeId_userId }, update, create })].
    On the update branch keys that are [undefined] are left alone; on the
    create branch a column left out takes its schema default, which is
    [@default(0)] for the three scores. *)
Definition recipeRating_upsert (recipeId userId : string)
    (update create : RateRecipeInput.t) (now : Date) : DB unit :=
  await s := get_store in
  if existsb (is_rating_of recipeId userId) (Store.ratings s) then
    CustomPrismaClient.update_ratings_where recipeId userId
      (CustomPrismaClient.set_rating_fields update now)
  else if bool_decide (is_Some (Store.recipes s !! recipeId)) then
    modify (Store.with_ratings (λ rows, rows ++ [
      {| RecipeRating.id := uuid s;
         RecipeRating.recipeId := recipeId;
         RecipeRating.userId := userId;
         RecipeRating.nutrition := Some (default 0 (RateRecipeInput.nutrition create));
         RecipeRating.flavor := Some (default 0 (RateRecipeInput.flavor create));
         RecipeRating.difficulty := Some (default 0 (RateRecipeInput.difficulty create));
         RecipeRating.comment := RateRecipeInput.comment create;
         RecipeRating.createdAt := now;
         RecipeRating.updatedAt := now |} ]))
  else throw foreign_key_failed.

End db.

(** ** JavaScript numbers *)

(** [n / d] rounded to the nearest integer, ties to the even one
    ([0 <= n], [0 < d]). *)
Definition round_half_even (n d : Z) : Z :=
  let q := n / d in
  let r := n mod d in
  if 2 * r <? d then q
  else if d <? 2 * r then q + 1
  else if Z.even q then q else q + 1.

(** The largest [k] with [2 ^ k <= a / d] ([0 < a], [0 < d]). *)
Definition binade (a d : Z) : Z :=
  let k := Z.log2 a - Z.log2 d in
  if (if 0 <=? k then d * 2 ^ k <=? a else d <=? a * 2 ^ (- k))
  then k else k - 1.

(** The [number] nearest to a rational: IEEE 754 binary64, that is 53
    significant bits, round to nearest, ties to even, with the gradual
    underflow below [2 ^ -1022].  It is the value a division of two
    numbers yields for their exact quotient.  (The quotients formed here,
    of a sum of [Int] scores by a count, stay far below the overflow
    threshold [2 ^ 1024].) *)
Definition binary64 (q : Q) : Q :=
  let n := Qnum q in
  let d := Z.pos (Qden q) in
  if n =? 0 then 0%Q
  else
    let a := Z.abs n in
    let e := Z.max (binade a d - 52) (-1074) in
    let value :=
      if 0 <=? e
      then inject_Z (round_half_even a (d * 2 ^ e) * 2 ^ e)
      else Qmake (round_half_even (a * 2 ^ (- e)) d) (Z.to_pos (2 ^ (- e))) in
    if 0 <? n then value else (- value)%Q.

(** ** [RecipeService] (services/recipe.service.ts) *)

Module RecipeService.

Definition createRecipe (userId familyId : string)
    (input : CreateRecipeInput.t) (now : Date)
    : DB (Recipe.t * list RecipeIngredient.t) :=
  let ingredients := CreateRecipeInput.ingredients input in
  await created := db.recipe_create {|
    RecipeCreateData.name := CreateRecipeInput.name input;
    RecipeCreateData.description := CreateRecipeInput.description input;
    RecipeCreateData.instructions := CreateRecipeInput.instructions input;
    RecipeCreateData.prepTime := CreateRecipeInput.prepTime input;
    RecipeCreateData.cookTime := CreateRecipeInput.cookTime input;
    RecipeCreateData.servings := CreateRecipeInput.servings input;
    RecipeCreateData.difficulty := CreateRecipeInput.difficulty input;
    RecipeCreateData.usageCount := None;
    RecipeCreateData.userId := userId;
    RecipeCreateData.familyId := familyId;
    RecipeCreateData.ingredients := [] |} now in
  await_ (if (0 <? length ingredients)%nat
          then db.recipeIngredient_createMany
                 ((λ ingredient, (Recipe.id (fst created), ingredient))
                  <$> ingredients) now
          else ret tt) in
  await recipe := db.recipe_findUnique (Recipe.id (fst created)) in
  match recipe with
  | None => throw (JsError "Failed to create recipe")
  | Some recipe => ret recipe
  end.

(** [const { ingredients, ...recipeData } = input]. *)
Definition recipeData_of (input : UpdateRecipeInput.t) : UpdateRecipeInput.t :=
  {| UpdateRecipeInput.name := UpdateRecipeInput.name input;
     UpdateRecipeInput.description := UpdateRecipeInput.description input;
     UpdateRecipeInput.instructions := UpdateRecipeInput.instructions input;
     UpdateRecipeInput.prepTime := UpdateRecipeInput.prepTime input;
     UpdateRecipeInput.cookTime := UpdateRecipeInput.cookTime input;
     UpdateRecipeInput.servings := UpdateRecipeInput.servings input;
     UpdateRecipeInput.difficulty := UpdateRecipeInput.difficulty input;
     UpdateRecipeInput.ingredients := None |}.

Definition updateRecipe (recipeId userId : string)
    (input : UpdateRecipeInput.t) (now : Date)
    : DB (Recipe.t * list RecipeIngredient.t) :=
  await existingRecipe := db.recipe_findUnique recipeId in
  match existingRecipe with
  | None => throw (JsError "Recipe not found")
  | Some existingRecipe =>
      if negb (bool_decide (Recipe.userId (fst existingRecipe) = userId))
      then throw (JsError "Not authorized to update this recipe")
      else
        await_ (match UpdateRecipeInput.ingredients input with
                | Some ingredients =>
                    await_ db.recipeIngredient_deleteMany recipeId in
                    db.recipeIngredient_createMany
                      ((λ ingredient, (recipeId, ingredient)) <$> ingredients)
                      now
                | None => ret tt
                end) in
        await updated := db.recipe_update recipeId (recipeData_of input) now in
        ret updated
  end.

Definition deleteRecipe (recipeId userId : string) : DB unit :=
  await existingRecipe := db.recipe_findUnique recipeId in
  match existingRecipe with
  | None => throw (JsError "Recipe not found")
  | Some existingRecipe =>
      if negb (bool_decide (Recipe.userId (fst existingRecipe) = userId))
      then throw (JsError "Not authorized to delete this recipe")
      else db.recipe_delete recipeId
  end.

(** [getRecipe]: the recipe with its ingredients, its ratings and the
    averages of the aggregator. *)
Definition getRecipe (recipeId : string) : DB (option RecipeWithDetails.t) :=
  await s := get_store in
  ret ((λ recipe,
          let ratings := ratings_of s recipeId in
          {| RecipeWithDetails.recipe := recipe;
             RecipeWithDetails.ingredients :=
               db.with_item s <$> ingredients_of s recipeId;
             RecipeWithDetails.ratings := ratings;
             RecipeWithDetails.averageRatings := Some (averageRatings ratings) |})
       <$> Store.recipes s !! recipeId).

(** The [where] object [listRecipes] builds: [familyId] and one key per
    truthy filter other than [minRating]. *)
Definition where_of (familyId : string) (filters : option RecipeFilters.t)
    : RecipeWhere.t :=
  {| RecipeWhere.familyId := familyId;
     RecipeWhere.name := filters ≫= (λ f, str_or_null (RecipeFilters.name f));
     RecipeWhere.difficulty := filters ≫= RecipeFilters.difficulty;
     RecipeWhere.prepTime :=
       filters ≫= (λ f, num_or_null (RecipeFilters.maxPrepTime f));
     RecipeWhere.cookTime :=
       filters ≫= (λ f, num_or_null (RecipeFilters.maxCookTime f));
     RecipeWhere.ingredients :=
       filters ≫= (λ f, str_or_null (RecipeFilters.ingredient f)) |}.

(** [recipe.averageRatings?.flavor ?? 0]. *)
Definition flavorRating (recipe : RecipeWithDetails.t) : Q :=
  match RecipeWithDetails.averageRatings recipe with
  | Some averages => AverageRatings.flavor averages
  | None => 0%Q
  end.

Definition with_averages (recipe : RecipeWithDetails.t) : RecipeWithDetails.t :=
  {| RecipeWithDetails.recipe := RecipeWithDetails.recipe recipe;
     RecipeWithDetails.ingredients := RecipeWithDetails.ingredients recipe;
     RecipeWithDetails.ratings := RecipeWithDetails.ratings recipe;
     RecipeWithDetails.averageRatings :=
       Some (averageRatings (RecipeWithDetails.ratings recipe)) |}.

(** [flavorRating >= filters.minRating] compares two numbers.  The
    average the aggregator returns is the number nearest to the quotient
    of the sum, which is exact for [Int] scores, by the count;
    [calculateAverageRating] keeps the quotient itself, and the
    comparison, where the difference can show, rounds it. *)
Definition listRecipes (contains : string → string → bool)
    (familyId : string) (filters : option RecipeFilters.t)
    : DB (list RecipeWithDetails.t) :=
  await recipes := db.recipe_findMany contains (where_of familyId filters) in
  let recipesWithRatings := with_averages <$> recipes in
  if negb (truthy_Q (filters ≫= RecipeFilters.minRating))
  then ret recipesWithRatings
  else
    let minRating := default 0%Q (filters ≫= RecipeFilters.minRating) in
    ret (List.filter
           (λ recipe, Qle_bool minRating (binary64 (flavorRating recipe)))
           recipesWithRatings).

Definition rateRecipe (recipeId userId : string) (input : RateRecipeInput.t)
    (now : Date) : DB unit :=
  await existingRecipe := db.recipe_findUnique recipeId in
  match existingRecipe with
  | None => throw (JsError "Recipe not found")
  | Some _ => db.recipeRating_upsert recipeId userId input input now
  end.

Definition incrementUsageCount (recipeId : string) (now : Date) : DB unit :=
  db.recipe_update_increment recipeId now.

(** [({ id, recipeId, createdAt, updatedAt, ...ingredientData }) =>
    ingredientData]. *)
Definition ingredientData (ri : RecipeIngredient.t) : IngredientInput.t :=
  {| IngredientInput.itemId := RecipeIngredient.itemId ri;
     IngredientInput.quantity := RecipeIngredient.quantity ri;
     IngredientInput.unit := RecipeIngredient.unit ri;
     IngredientInput.notes := RecipeIngredient.notes ri |}.

(** The copy marker of [cloneRecipe]. *)
Definition copy_marker : string := " (Copy)".

(** [cloneRecipe]: the destructuring drops [id], [userId], [familyId],
    [createdAt], [updatedAt], [usageCount] and [ingredients] of the
    original; what is left is spread into the [data] of the create. *)
Definition cloneRecipe (originalRecipeId userId familyId : string)
    (now : Date) : DB (Recipe.t * list RecipeIngredient.t) :=
  await originalRecipe := db.recipe_findUnique originalRecipeId in
  match originalRecipe with
  | None => throw (JsError "Recipe not found")
  | Some (recipeData, originalIngredients) =>
      await clonedRecipe := db.recipe_create {|
        RecipeCreateData.name := Recipe.name recipeData +:+ copy_marker;
        RecipeCreateData.description := Recipe.description recipeData;
        RecipeCreateData.instructions := Recipe.instructions recipeData;
        RecipeCreateData.prepTime := Recipe.prepTime recipeData;
        RecipeCreateData.cookTime := Recipe.cookTime recipeData;
        RecipeCreateData.servings := Recipe.servings recipeData;
        RecipeCreateData.difficulty := Some (Recipe.difficulty recipeData);
        RecipeCreateData.usageCount := Some 0;
        RecipeCreateData.userId := userId;
        RecipeCreateData.familyId := familyId;
        RecipeCreateData.ingredients := ingredientData <$> originalIngredients
      |} now in
      ret clonedRecipe
  end.

End RecipeService.

(** ** [RecipePlugin] (index.ts): the role gates of the routes and the
    metrics *)

(** [RecipePluginConfig], as [configSchema] infers it. *)
Module RecipePluginConfig.
Record features := mk_features {
  ratings : bool;
  ingredients : bool;
  sharing : bool
}.

Record roles := mk_roles {
  canCreateRecipes : list string;
  canDeleteRecipes : list string;
  canRateRecipes : list string
}.

Record limits := mk_limits {
  maxRecipesPerUser : Z;
  maxIngredientsPerRecipe : Z
}.

Record t := mk {
  config_features : features;
  config_roles : roles;
  config_limits : limits
}.
End RecipePluginConfig.

Module RecipePlugin.

(** What a route answers: the 403 body the route builds itself with
    [c.json({ success: false, error: { code: 'FORBIDDEN', message } }, 403)],
    or the response of the controller handler it hands the request to. *)
Inductive RouteResponse (A : Type) :=
  | Json403 (message : string)
  | Handled (response : Result A).
Arguments Json403 {A} message.
Arguments Handled {A} response.

Definition Route (A : Type) : Type := Store.t → RouteResponse A * Store.t.

Definition handle {A} (handler : DB A) : Route A :=
  λ s, (Handled (fst (handler s)), snd (handler s)).

(** [config.roles.<list>.includes(user.role)]. *)
Definition includes (allowed : list string) (role : string) : bool :=
  bool_decide (role ∈ allowed).

(** [POST /api/recipes]. *)
Definition post_recipes (config : RecipePluginConfig.t) (user : UserContext.t)
    (data : CreateRecipeInput.t) (now : Date) : Route (option RecipeResult.t) :=
  if negb (includes (RecipePluginConfig.canCreateRecipes
                       (RecipePluginConfig.config_roles config))
                    (UserContext.role user))
  then λ s, (Json403 "User not authorized to create recipes", s)
  else handle (RecipeController.createRecipe user data now).

(** [DELETE /api/recipes/:id]. *)
Definition delete_recipe (config : RecipePluginConfig.t) (user : UserContext.t)
    (id : string) : Route unit :=
  if negb (includes (RecipePluginConfig.canDeleteRecipes
                       (RecipePluginConfig.config_roles config))
                    (UserContext.role user))
  then λ s, (Json403 "User not authorized to delete recipes", s)
  else handle (RecipeController.deleteRecipe user id).

(** [POST /api/recipes/:id/rate]: the route is registered only when
    [config.features.ratings] holds. *)
Definition post_rate (config : RecipePluginConfig.t)
    : option (UserContext.t → string → RateRecipeInput.t → Date
              → Route (option RecipeResult.t)) :=
  if RecipePluginConfig.ratings (RecipePluginConfig.config_features config)
  then Some (λ user id data now,
    if negb (includes (RecipePluginConfig.canRateRecipes
                         (RecipePluginConfig.config_roles config))
                      (UserContext.role user))
    then λ s, (Json403 "User not authorized to rate recipes", s)
    else handle (RecipeController.rateRecipe user id data now))
  else None.

(** The [metrics] object of the plugin. *)
Record Metrics := mk_metrics {
  totalRecipes : Z;
  activeRecipes : Z;
  totalRatings : Z;
  averageRating : Q
}.

(** [(nutrition + flavor + difficulty) / 3] of the metrics query: the sum
    is [NULL] as soon as one score is, and [/] divides integers. *)
Definition metrics_score (rr : RecipeRating.t) : option Z :=
  match RecipeRating.nutrition rr, RecipeRating.flavor rr,
        RecipeRating.difficulty rr with
  | Some n, Some f, Some d => Some (Z.quot (n + f + d) 3)
  | _, _, _ => None
  end.

(** [WHERE nutrition IS NOT NULL OR flavor IS NOT NULL
    OR difficulty IS NOT NULL]. *)
Definition has_a_score (rr : RecipeRating.t) : bool :=
  is_present (RecipeRating.nutrition rr)
  || is_present (RecipeRating.flavor rr)
  || is_present (RecipeRating.difficulty rr).

(** [Number(result?.avg || 0)]. *)
Definition avg_or_zero (avg : option Q) : Q :=
  match avg with
  | Some q => if Qeq_bool q 0 then 0%Q else q
  | None => 0%Q
  end.

(** [updateMetrics]: the metrics it assigns to [this.metrics]. *)
Definition updateMetrics : DB Metrics :=
  await total := CustomPrismaClient.countRecipes None in
  await rated := CustomPrismaClient.countRecipes (Some {|
    CustomPrismaClient.where_userId := None;
    CustomPrismaClient.where_familyId := None;
    CustomPrismaClient.where_difficulty := None;
    CustomPrismaClient.where_minRating := Some 1%Q |}) in
  await s := get_store in
  let avg :=
    CustomPrismaClient.sql_avg
      (metrics_score <$> List.filter has_a_score (Store.ratings s)) in
  ret {| totalRecipes := total;
         activeRecipes := rated;
         totalRatings := rated;
         averageRating := avg_or_zero avg |}.

End RecipePlugin.

(** * Notions the properties are stated with *)

(** The rating rows of one (recipe, user) pair. *)
Definition rating_rows (s : Store.t) (recipeId userId : string)
    : list RecipeRating.t :=
  List.filter (is_rating_of recipeId userId) (Store.ratings s).

(** One field after a partial update: the supplied value if there is one,
    the value it had before otherwise. *)
Definition field_merged {A} (before supplied after : option A) : Prop :=
  match supplied with
  | Some v => after = Some v
  | None => after = before
  end.

(** A rating row [after] is the payload merged over the row [before]. *)
Definition payload_merged_over (before : RecipeRating.t)
    (payload : RateRecipeInput.t) (after : RecipeRating.t) : Prop :=
  field_merged (RecipeRating.nutrition before)
    (RateRecipeInput.nutrition payload) (RecipeRating.nutrition after)
  ∧ field_merged (RecipeRating.flavor before)
      (RateRecipeInput.flavor payload) (RecipeRating.flavor after)
  ∧ field_merged (RecipeRating.difficulty before)
      (RateRecipeInput.difficulty payload) (RecipeRating.difficulty after)
  ∧ field_merged (RecipeRating.comment before)
      (RateRecipeInput.comment payload) (RecipeRating.comment after).

(** A rating payload read at one of its three score keys. *)
Definition payload_get (data : RateRecipeInput.t) (field : RatingField)
    : option Z :=
  match field with
  | nutrition => RateRecipeInput.nutrition data
  | flavor => RateRecipeInput.flavor data
  | difficulty => RateRecipeInput.difficulty data
  end.

(** A rating row as the create branch of the Prisma upsert stores a
    payload: every score the payload gives, 0 (the schema's default) for a
    score it leaves out, and the comment, if any. *)
Definition created_from (payload : RateRecipeInput.t) (row : RecipeRating.t)
    : Prop :=
  (∀ field, rating_get row field = Some (default 0 (payload_get payload field)))
  ∧ RecipeRating.comment row = RateRecipeInput.comment payload.

(** The joint rating of [count] as the specification words it: per rating
    row the mean of the three fields with null as zero, then the mean of
    these over the rows of the recipe (undefined without rows). *)
Definition row_mean (rr : RecipeRating.t) : Q :=
  (inject_Z (CustomPrismaClient.coalesce0 (RecipeRating.nutrition rr)
             + CustomPrismaClient.coalesce0 (RecipeRating.flavor rr)
             + CustomPrismaClient.coalesce0 (RecipeRating.difficulty rr))
   / 3)%Q.

Definition joint_mean (rows : list RecipeRating.t) : option Q :=
  match rows with
  | [] => None
  | _ => Some (foldr Qplus 0%Q (row_mean <$> rows)
               / inject_Z (Z.of_nat (length rows)))%Q
  end.

(** The SQL averages of a [RecipeResult], read at one of the three
    fields. *)
Definition result_average (averages : RecipeResult.averages)
    (field : RatingField) : option Q :=
  match field with
  | nutrition => RecipeResult.avg_nutrition averages
  | flavor => RecipeResult.avg_flavor averages
  | difficulty => RecipeResult.avg_difficulty averages
  end.

(** The three ways a rating call can leave the rating table. *)
Definition rating_outcome (recipeId userId : string) (s s1 : Store.t) : Prop :=
  Store.ratings s1 = Store.ratings s
  ∨ (∃ f,
       (∀ rr, is_rating_of recipeId userId (f rr)
              = is_rating_of recipeId userId rr)
       ∧ Store.ratings s1
         = map (λ rr, if is_rating_of recipeId userId rr then f rr else rr)
               (Store.ratings s))
  ∨ (rating_rows s recipeId userId = []
     ∧ ∃ row,
         is_rating_of recipeId userId row = true
         ∧ Store.ratings s1 = Store.ratings s ++ [row]).

(** A rating payload whose scores, where present, lie between 0 and 5. *)
Definition scores_in_range (data : RateRecipeInput.t) : Prop :=
  ∀ field v, payload_get data field = Some v → 0 ≤ v ≤ 5.

(** The constraints of the schema on the rows: a recipe is stored under
    its own identifier, an ingredient row refers to a stored recipe and to
    an existing item, and a rating row refers to a stored recipe. *)
Definition store_consistent (s : Store.t) : Prop :=
  (∀ id recipe, Store.recipes s !! id = Some recipe → Recipe.id recipe = id)
  ∧ Forall (λ ri, is_Some (Store.recipes s !! RecipeIngredient.recipeId ri)
                  ∧ is_Some (Store.items s !! RecipeIngredient.itemId ri))
           (Store.ingredients s)
  ∧ Forall (λ rr, is_Some (Store.recipes s !! RecipeRating.recipeId rr))
           (Store.ratings s).

(** An operation keeps a property of the store when the store it leaves
    has the property whenever the store it started from had it, whether
    the operation returns or throws. *)
Definition keeps {A} (P : Store.t → Prop) (m : DB A) : Prop :=
  ∀ s, P s → P (snd (m s)).

(** * Sample data *)

(** The two ratings of the worked example: [{flavor: 4}] by user B and
    [{flavor: 2, nutrition: 5}] by user C. *)
Definition example_ratings : list RecipeRating.t :=
  [ {| RecipeRating.id := "rating-1"; RecipeRating.recipeId := "R";
       RecipeRating.userId := "B";
       RecipeRating.nutrition := None; RecipeRating.flavor := Some 4;
       RecipeRating.difficulty := None; RecipeRating.comment := None;
       RecipeRating.createdAt := 1%nat; RecipeRating.updatedAt := 1%nat |};
    {| RecipeRating.id := "rating-2"; RecipeRating.recipeId := "R";
       RecipeRating.userId := "C";
       RecipeRating.nutrition := Some 5; RecipeRating.flavor := Some 2;
       RecipeRating.difficulty := None; RecipeRating.comment := None;
       RecipeRating.createdAt := 2%nat; RecipeRating.updatedAt := 2%nat |} ].

(** A small household: Alice owns the recipe "r1" of family "fam"; Bob is
    another member of "fam"; Mallory belongs to another family. *)
Definition soup : Recipe.t :=
  {| Recipe.id := "r1"; Recipe.name := "Soup";
     Recipe.description := None; Recipe.instructions := "Boil.";
     Recipe.prepTime := 10; Recipe.cookTime := 30; Recipe.servings := 4;
     Recipe.difficulty := EASY; Recipe.usageCount := 3;
     Recipe.createdAt := 1%nat; Recipe.updatedAt := 2%nat;
     Recipe.userId := "alice"; Recipe.familyId := "fam" |}.

Definition carrots : RecipeIngredient.t :=
  {| RecipeIngredient.id := "i1"; RecipeIngredient.recipeId := "r1";
     RecipeIngredient.itemId := "item-1"; RecipeIngredient.quantity := 2%Q;
     RecipeIngredient.unit := "pcs"; RecipeIngredient.notes := Some "diced";
     RecipeIngredient.createdAt := 1%nat; RecipeIngredient.updatedAt := 1%nat |}.

Definition rating_by (id userId : string) (n f d : option Z)
    : RecipeRating.t :=
  {| RecipeRating.id := id; RecipeRating.recipeId := "r1";
     RecipeRating.userId := userId;
     RecipeRating.nutrition := n; RecipeRating.flavor := f;
     RecipeRating.difficulty := d; RecipeRating.comment := None;
     RecipeRating.createdAt := 2%nat; RecipeRating.updatedAt := 2%nat |}.

Definition household : Store.t :=
  {| Store.recipes := {[ "r1" := soup ]};
     Store.ingredients := [carrots];
     Store.ratings := [rating_by "g1" "bob" (Some 5) (Some 5) (Some 4);
                       rating_by "g2" "alice" (Some 4) (Some 3) (Some 3)];
     Store.items := {[ "item-1" := "Carrot" ]} |}.

Definition bob : UserContext.t :=
  {| UserContext.id := "bob"; UserContext.role := "CHILD";
     UserContext.familyId := "fam" |}.

Definition rename_to (name : string) : UpdateRecipeInput.t :=
  {| UpdateRecipeInput.name := Some name;
     UpdateRecipeInput.description := None;
     UpdateRecipeInput.instructions := None;
     UpdateRecipeInput.prepTime := None;
     UpdateRecipeInput.cookTime := None;
     UpdateRecipeInput.servings := None;
     UpdateRecipeInput.difficulty := None;
     UpdateRecipeInput.ingredients := None |}.

Definition scores (n f d : option Z) : RateRecipeInput.t :=
  {| RateRecipeInput.nutrition := n; RateRecipeInput.flavor := f;
     RateRecipeInput.difficulty := d; RateRecipeInput.comment := None |}.

Definition count_where_minRating (minRating : Q)
    : CustomPrismaClient.CountWhere :=
  {| CustomPrismaClient.where_userId := None;
     CustomPrismaClient.where_familyId := None;
     CustomPrismaClient.where_difficulty := None;
     CustomPrismaClient.where_minRating := Some minRating |}.

(** A recipe whose only ingredient refers to an item that does not
    exist. *)
Definition salad_input : CreateRecipeInput.t :=
  {| CreateRecipeInput.name := "Salad";
     CreateRecipeInput.description := None;
     CreateRecipeInput.instructions := "Toss.";
     CreateRecipeInput.prepTime := 5;
     CreateRecipeInput.cookTime := 0;
     CreateRecipeInput.servings := 2;
     CreateRecipeInput.difficulty := None;
     CreateRecipeInput.ingredients :=
       [ {| IngredientInput.itemId := "no-such-item";
            IngredientInput.quantity := 1%Q;
            IngredientInput.unit := "head";
            IngredientInput.notes := None |} ] |}.

(** A case-sensitive substring test to run the listing with. *)
Definition substring_of (s sub : string) : bool :=
  is_present (String.index 0 sub s).

Definition filter_maxPrepTime (bound : Z) : RecipeFilters.t :=
  {| RecipeFilters.name := None; RecipeFilters.difficulty := None;
     RecipeFilters.maxPrepTime := Some bound;
     RecipeFilters.maxCookTime := None; RecipeFilters.minRating := None;
     RecipeFilters.ingredient := None |}.

Definition filter_minRating (bound : Q) : RecipeFilters.t :=
  {| RecipeFilters.name := None; RecipeFilters.difficulty := None;
     RecipeFilters.maxPrepTime := None; RecipeFilters.maxCookTime := None;
     RecipeFilters.minRating := Some bound;
     RecipeFilters.ingredient := None |}.

Definition replace_ingredients (ingredients : list IngredientInput.t)
    : UpdateRecipeInput.t :=
  {| UpdateRecipeInput.name := None;
     UpdateRecipeInput.description := None;
     UpdateRecipeInput.instructions := None;
     UpdateRecipeInput.prepTime := None;
     UpdateRecipeInput.cookTime := None;
     UpdateRecipeInput.servings := None;
     UpdateRecipeInput.difficulty := None;
     UpdateRecipeInput.ingredients := Some ingredients |}.

Definition two_carrots : IngredientInput.t :=
  {| IngredientInput.itemId := "item-1"; IngredientInput.quantity := 2%Q;
     IngredientInput.unit := "pcs"; IngredientInput.notes := Some "" |}.

Definition ghost_pepper : IngredientInput.t :=
  {| IngredientInput.itemId := "no-such-item"; IngredientInput.quantity := 1%Q;
     IngredientInput.unit := "pcs"; IngredientInput.notes := None |}.

Definition alice : UserContext.t :=
  {| UserContext.id := "alice"; UserContext.role := "PARENT";
     UserContext.familyId := "fam" |}.

Definition mallory : UserContext.t :=
  {| UserContext.id := "mallory"; UserContext.role := "PARENT";
     UserContext.familyId := "other" |}.

(** A recipe with one ingredient whose item exists; its notes are the
    empty string. *)
Definition stew_input : CreateRecipeInput.t :=
  {| CreateRecipeInput.name := "Stew";
     CreateRecipeInput.description := Some "";
     CreateRecipeInput.instructions := "Simmer.";
     CreateRecipeInput.prepTime := 15;
     CreateRecipeInput.cookTime := 90;
     CreateRecipeInput.servings := 6;
     CreateRecipeInput.difficulty := None;
     CreateRecipeInput.ingredients := [two_carrots] |}.

(** The configuration [configSchema] yields when every key is left to its
    default. *)
Definition configSchema_defaults : RecipePluginConfig.t :=
  {| RecipePluginConfig.config_features :=
       {| RecipePluginConfig.ratings := true;
          RecipePluginConfig.ingredients := true;
          RecipePluginConfig.sharing := true |};
     RecipePluginConfig.config_roles :=
       {| RecipePluginConfig.canCreateRecipes := ["PARENT"; "CHILD"];
          RecipePluginConfig.canDeleteRecipes := ["PARENT"];
          RecipePluginConfig.canRateRecipes := ["PARENT"; "CHILD"] |};
     RecipePluginConfig.config_limits :=
       {| RecipePluginConfig.maxRecipesPerUser := 100;
          RecipePluginConfig.maxIngredientsPerRecipe := 50 |} |}.

Definition count_where_user (userId : string) : CustomPrismaClient.CountWhere :=
  {| CustomPrismaClient.where_userId := Some userId;
     CustomPrismaClient.where_familyId := None;
     CustomPrismaClient.where_difficulty := None;
     CustomPrismaClient.where_minRating := None |}.

Definition count_where_family (familyId : string)
    : CustomPrismaClient.CountWhere :=
  {| CustomPrismaClient.where_userId := None;
     CustomPrismaClient.where_familyId := Some familyId;
     CustomPrismaClient.where_difficulty := None;
     CustomPrismaClient.where_minRating := None |}.

(** The household before anyone has rated the soup, and after Carol has
    rated its flavor -3 through the service. *)
Definition unrated_household : Store.t :=
  Store.with_ratings (λ _, []) household.

Definition sour_household : Store.t :=
  snd (RecipeService.rateRecipe "r1" "carol" (scores None (Some (-3)) None)
         5%nat unrated_household).

(** The household with the flavor scores 1, 2 and 2 for the soup, and the
    number 1.6666666666666667, which is the binary64 nearest to 5/3. *)
Definition thirds_household : Store.t :=
  Store.with_ratings
    (λ _, [rating_by "g1" "bob" None (Some 1) None;
           rating_by "g2" "alice" None (Some 2) None;
           rating_by "g3" "carol" None (Some 2) None])
    household.

Definition five_thirds : Q := 7505999378950827 # 4503599627370496.

Definition carol : UserContext.t :=
  {| UserContext.id := "carol"; UserContext.role := "CHILD";
     UserContext.familyId := "fam" |}.

(** * Properties *)

Ltac db_unfold :=
  unfold bind, ret, throw, get_store, modify, transaction in *.


(** ** Raw statements that call [uuid_generate_v4()] *)

Lemma calling_uuid_generate_v4 {A} (statement : DB A) :
  CustomPrismaClient.calling "uuid_generate_v4" statement
  = throw CustomPrismaClient.raw_query_failed.
Proof.
  unfold CustomPrismaClient.calling. rewrite bool_decide_eq_false_2; [done|].
  unfold CustomPrismaClient.sqlite_functions. intros Hin.
  repeat (apply elem_of_cons in Hin as [Hin|Hin]; [discriminate Hin|]).
  by apply elem_of_nil in Hin.
Qed.

(** A loop of such statements stops at the first one, if there is one. *)
Lemma raw_insert_loop {A} (l : list A) (body : A → DB unit) s :
  for_of l (λ x, CustomPrismaClient.calling "uuid_generate_v4" (body x)) s
  = match l with
    | [] => (Ok tt, s)
    | _ :: _ => (Err CustomPrismaClient.raw_query_failed, s)
    end.
Proof.
  destruct l as [|x l]; [done|]. simpl. unfold bind.
  by rewrite calling_uuid_generate_v4.
Qed.

(** ** The rating aggregator *)

Lemma reduce_or_zero_acc (ratings : list RecipeRating.t) field acc :
  fold_left (λ a rating, a + or_zero (rating_get rating field))
    (List.filter (λ r, is_present (rating_get r field)) ratings) acc
  = acc + sum_list (present_values ratings field).
Proof.
  revert acc. induction ratings as [|r ratings IH]; intros acc; simpl.
  - unfold sum_list. simpl. lia.
  - unfold present_values in *. simpl.
    destruct (rating_get r field) as [v|] eqn:Hv; simpl.
    + rewrite IH, Hv. unfold or_zero, sum_list. simpl.
      destruct (Z.eqb_spec v 0); lia.
    + apply IH.
Qed.

Lemma length_valid_ratings (ratings : list RecipeRating.t) field :
  length (List.filter (λ r, is_present (rating_get r field)) ratings)
  = length (present_values ratings field).
Proof.
  unfold present_values.
  induction ratings as [|r ratings IH]; simpl; [done|].
  destruct (rating_get r field); simpl; [f_equal|]; exact IH.
Qed.

Lemma calculateAverageRating_mean ratings field :
  calculateAverageRating ratings field
  = mean_or_zero (present_values ratings field).
Proof.
  unfold calculateAverageRating.
  rewrite reduce_or_zero_acc, length_valid_ratings, Z.add_0_l.
  destruct (present_values ratings field); reflexivity.
Qed.

(** C2. For every sequence of ratings, each of the three averages is the
    arithmetic mean of the non-null values of its own field and 0 when no
    rating has the field; on the ratings [{flavor: 4}] and
    [{flavor: 2, nutrition: 5}] the flavor average is 3, the nutrition
    average 5 and the difficulty average 0. *)
Theorem averageRatings_per_field_mean :
  (∀ ratings field,
     calculateAverageRating ratings field
     = mean_or_zero (present_values ratings field))
  ∧ (∀ ratings,
       averageRatings ratings
       = {| AverageRatings.nutrition :=
              mean_or_zero (present_values ratings nutrition);
            AverageRatings.flavor :=
              mean_or_zero (present_values ratings flavor);
            AverageRatings.difficulty :=
              mean_or_zero (present_values ratings difficulty) |})
  ∧ (AverageRatings.flavor (averageRatings example_ratings) == 3
     ∧ AverageRatings.nutrition (averageRatings example_ratings) == 5
     ∧ AverageRatings.difficulty (averageRatings example_ratings) == 0)%Q.
Proof.
  split; [exact calculateAverageRating_mean|].
  split.
  - intros ratings. unfold averageRatings.
    by rewrite !calculateAverageRating_mean.
  - repeat split; reflexivity.
Qed.

(** ** Who may update and delete *)

Lemma recipe_findUnique_found s id recipe :
  Store.recipes s !! id = Some recipe →
  db.recipe_findUnique id s = (Ok (Some (recipe, ingredients_of s id)), s).
Proof. intros H. unfold db.recipe_findUnique. db_unfold. by rewrite H. Qed.

Lemma recipe_findUnique_missing s id :
  Store.recipes s !! id = None →
  db.recipe_findUnique id s = (Ok None, s).
Proof. intros H. unfold db.recipe_findUnique. db_unfold. by rewrite H. Qed.

Lemma service_updateRecipe_refuses s id recipe userId input now :
  Store.recipes s !! id = Some recipe →
  userId ≠ Recipe.userId recipe →
  RecipeService.updateRecipe id userId input now s
  = (Err (JsError "Not authorized to update this recipe"), s).
Proof.
  intros Hr Hne. unfold RecipeService.updateRecipe, bind at 1.
  rewrite (recipe_findUnique_found _ _ _ Hr). simpl.
  rewrite bool_decide_eq_false_2 by congruence. reflexivity.
Qed.

Lemma service_deleteRecipe_refuses s id recipe userId :
  Store.recipes s !! id = Some recipe →
  userId ≠ Recipe.userId recipe →
  RecipeService.deleteRecipe id userId s
  = (Err (JsError "Not authorized to delete this recipe"), s).
Proof.
  intros Hr Hne. unfold RecipeService.deleteRecipe, bind at 1.
  rewrite (recipe_findUnique_found _ _ _ Hr). simpl.
  rewrite bool_decide_eq_false_2 by congruence. reflexivity.
Qed.

Lemma findRecipeById_found s id recipe includeDetails :
  Store.recipes s !! id = Some recipe →
  ∃ result,
    CustomPrismaClient.findRecipeById id includeDetails s = (Ok (Some result), s)
    ∧ RecipeResult.row result = recipe.
Proof.
  intros H. unfold CustomPrismaClient.findRecipeById. db_unfold.
  rewrite H. destruct includeDetails; eexists; split; reflexivity.
Qed.

Lemma controller_updateRecipe_refuses s id recipe user data now :
  Store.recipes s !! id = Some recipe →
  Recipe.userId recipe ≠ UserContext.id user →
  Recipe.familyId recipe ≠ UserContext.familyId user →
  RecipeController.updateRecipe user id data now s
  = (Err (RecipeError FORBIDDEN
            "You do not have permission to update this recipe"), s).
Proof.
  intros Hr Hu Hf.
  destruct (findRecipeById_found s id recipe true Hr) as (result & Hfind & Hrow).
  unfold RecipeController.updateRecipe, bind at 1. rewrite Hfind, Hrow.
  rewrite !bool_decide_eq_false_2 by done. reflexivity.
Qed.

Lemma controller_updateRecipe_admits s id recipe user data now :
  Store.recipes s !! id = Some recipe →
  Recipe.userId recipe = UserContext.id user
  ∨ Recipe.familyId recipe = UserContext.familyId user →
  RecipeController.updateRecipe user id data now s
  = (await validatedData := RecipeController.recipeSchema_partial_parse data in
     CustomPrismaClient.updateRecipe id validatedData now) s.
Proof.
  intros Hr Hor.
  destruct (findRecipeById_found s id recipe true Hr) as (result & Hfind & Hrow).
  unfold RecipeController.updateRecipe, bind at 1. rewrite Hfind, Hrow.
  assert (negb (bool_decide (Recipe.userId recipe = UserContext.id user))
          && negb (bool_decide (Recipe.familyId recipe = UserContext.familyId user))
          = false) as ->.
  { destruct Hor as [H | H]; rewrite (bool_decide_eq_true_2 _ H);
      simpl; by rewrite ?andb_false_r. }
  unfold bind, ret.
  destruct (RecipeController.recipeSchema_partial_parse data s) as [[v|e] s1];
    [|done].
  by destruct (CustomPrismaClient.updateRecipe id v now s1) as [[?|?] ?].
Qed.

Lemma controller_deleteRecipe_refuses s id recipe user :
  Store.recipes s !! id = Some recipe →
  Recipe.userId recipe ≠ UserContext.id user →
  Recipe.familyId recipe ≠ UserContext.familyId user →
  RecipeController.deleteRecipe user id s
  = (Err (RecipeError FORBIDDEN
            "You do not have permission to delete this recipe"), s).
Proof.
  intros Hr Hu Hf.
  destruct (findRecipeById_found s id recipe true Hr) as (result & Hfind & Hrow).
  unfold RecipeController.deleteRecipe, bind at 1. rewrite Hfind, Hrow.
  rewrite !bool_decide_eq_false_2 by done. reflexivity.
Qed.

Lemma controller_deleteRecipe_admits s id recipe user :
  Store.recipes s !! id = Some recipe →
  Recipe.userId recipe = UserContext.id user
  ∨ Recipe.familyId recipe = UserContext.familyId user →
  ∃ s', RecipeController.deleteRecipe user id s = (Ok tt, s')
        ∧ Store.recipes s' !! id = None.
Proof.
  intros Hr Hor.
  destruct (findRecipeById_found s id recipe true Hr) as (result & Hfind & Hrow).
  destruct (findRecipeById_found s id recipe false Hr) as (result' & Hfind' & _).
  unfold RecipeController.deleteRecipe, bind at 1. rewrite Hfind, Hrow.
  assert (negb (bool_decide (Recipe.userId recipe = UserContext.id user))
          && negb (bool_decide (Recipe.familyId recipe = UserContext.familyId user))
          = false) as ->.
  { destruct Hor as [H | H]; rewrite (bool_decide_eq_true_2 _ H);
      simpl; by rewrite ?andb_false_r. }
  unfold CustomPrismaClient.deleteRecipe, bind at 1 2. rewrite Hfind'.
  unfold delete_recipe_cascade. db_unfold. simpl.
  eexists. split; [reflexivity|]. simpl. apply lookup_delete_eq.
Qed.

Lemma service_updateRecipe_owner s id recipe userId input now v s' :
  Store.recipes s !! id = Some recipe →
  RecipeService.updateRecipe id userId input now s = (Ok v, s') →
  userId = Recipe.userId recipe.
Proof.
  intros Hr Hok. destruct (decide (userId = Recipe.userId recipe)); [done|].
  by rewrite (service_updateRecipe_refuses _ _ _ _ input now Hr) in Hok.
Qed.

Lemma service_deleteRecipe_owner s id recipe userId v s' :
  Store.recipes s !! id = Some recipe →
  RecipeService.deleteRecipe id userId s = (Ok v, s') →
  userId = Recipe.userId recipe.
Proof.
  intros Hr Hok. destruct (decide (userId = Recipe.userId recipe)); [done|].
  by rewrite (service_deleteRecipe_refuses _ _ _ _ Hr) in Hok.
Qed.

(** The only error an ingredient insert raises is the one it was given. *)
Lemma insert_ingredient_error error recipeId ingredient notes now s e s' :
  insert_ingredient error recipeId ingredient notes now s = (Err e, s') →
  e = error ∧ s' = s.
Proof.
  unfold insert_ingredient. db_unfold.
  destruct (_ && _); intros [= ]; auto.
Qed.

Lemma findRecipeById_reads id includeDetails s :
  ∃ result,
    CustomPrismaClient.findRecipeById id includeDetails s = (Ok result, s).
Proof.
  unfold CustomPrismaClient.findRecipeById. db_unfold.
  destruct (Store.recipes s !! id); [destruct includeDetails|]; eauto.
Qed.

Lemma client_updateRecipe_error id data now s e s' :
  CustomPrismaClient.updateRecipe id data now s = (Err e, s') →
  e = CustomPrismaClient.raw_query_failed
  ∨ e = JsError "Failed to update recipe".
Proof.
  unfold CustomPrismaClient.updateRecipe, transaction.
  match goal with
  | |- context [bind ?m ?k s] => destruct (bind m k s) as [[v|e0] s0] eqn:Hb
  end; [intros [= ]|].
  intros [= <- <-]. revert Hb. unfold bind at 1.
  destruct (if CustomPrismaClient.has_set_clauses data then _ else _)
    as [[[]|e1] s1] eqn:H1.
  2:{ destruct (CustomPrismaClient.has_set_clauses data); discriminate H1. }
  unfold bind at 1.
  destruct (UpdateRecipeInput.ingredients data) as [ingredients|].
  - unfold bind at 1, delete_ingredients, modify at 1.
    match goal with
    | |- context [for_of ?l ?b ?st] =>
        destruct (for_of l b st) as [[[]|e2] s2] eqn:H2
    end.
    + unfold bind at 1.
      destruct (findRecipeById_reads id true s2) as [[r|] ->];
        unfold ret, throw; intros [= ]; subst; auto.
    + intros [= <- <-]. left.
      rewrite raw_insert_loop in H2. by destruct ingredients; injection H2.
  - unfold ret at 1, bind at 1.
    destruct (findRecipeById_reads id true s1) as [[r|] ->];
      unfold ret, throw; intros [= ]; subst; auto.
Qed.

Lemma controller_updateRecipe_not_forbidden s id recipe user data now message s' :
  Store.recipes s !! id = Some recipe →
  Recipe.userId recipe = UserContext.id user
  ∨ Recipe.familyId recipe = UserContext.familyId user →
  RecipeController.updateRecipe user id data now s
  ≠ (Err (RecipeError FORBIDDEN message), s').
Proof.
  intros Hr Hor. rewrite (controller_updateRecipe_admits _ _ _ _ _ _ Hr Hor).
  unfold bind, RecipeController.recipeSchema_partial_parse.
  destruct (_ && _); unfold ret, throw; [|done].
  destruct (CustomPrismaClient.updateRecipe id data now s) as [[v|e] s1] eqn:Hu;
    [done|].
  apply client_updateRecipe_error in Hu as [-> | ->]; done.
Qed.

(** C1, as the code has it. For an existing recipe, [RecipeService]'s
    update and delete succeed only for the caller whose [userId] is the
    recipe's and fail with "Not authorized" for every other caller, family
    members included.  [RecipeController]'s update and delete handlers
    answer FORBIDDEN when the caller is neither the owner nor in the
    recipe's family, and never when the caller is the owner or a member of
    the family: for such a caller delete succeeds, and update goes on to
    validation and the write. *)
Theorem update_delete_authorization s id recipe :
  Store.recipes s !! id = Some recipe →
  (∀ userId input now,
     (∀ v s', RecipeService.updateRecipe id userId input now s = (Ok v, s') →
              userId = Recipe.userId recipe)
     ∧ (userId ≠ Recipe.userId recipe →
        RecipeService.updateRecipe id userId input now s
        = (Err (JsError "Not authorized to update this recipe"), s)))
  ∧ (∀ userId,
       (∀ v s', RecipeService.deleteRecipe id userId s = (Ok v, s') →
                userId = Recipe.userId recipe)
       ∧ (userId ≠ Recipe.userId recipe →
          RecipeService.deleteRecipe id userId s
          = (Err (JsError "Not authorized to delete this recipe"), s)))
  ∧ (∀ user data now,
       (Recipe.userId recipe ≠ UserContext.id user →
        Recipe.familyId recipe ≠ UserContext.familyId user →
        RecipeController.updateRecipe user id data now s
        = (Err (RecipeError FORBIDDEN
                  "You do not have permission to update this recipe"), s))
       ∧ (Recipe.userId recipe = UserContext.id user
          ∨ Recipe.familyId recipe = UserContext.familyId user →
          (∀ message s',
             RecipeController.updateRecipe user id data now s
             ≠ (Err (RecipeError FORBIDDEN message), s'))
          ∧ RecipeController.updateRecipe user id data now s
            = (await validatedData :=
                 RecipeController.recipeSchema_partial_parse data in
               CustomPrismaClient.updateRecipe id validatedData now) s))
  ∧ (∀ user,
       (Recipe.userId recipe ≠ UserContext.id user →
        Recipe.familyId recipe ≠ UserContext.familyId user →
        RecipeController.deleteRecipe user id s
        = (Err (RecipeError FORBIDDEN
                  "You do not have permission to delete this recipe"), s))
       ∧ (Recipe.userId recipe = UserContext.id user
          ∨ Recipe.familyId recipe = UserContext.familyId user →
          ∃ s', RecipeController.deleteRecipe user id s = (Ok tt, s')
                ∧ Store.recipes s' !! id = None)).
Proof.
  intros Hr. repeat split.
  - intros v s'. by apply service_updateRecipe_owner.
  - by apply service_updateRecipe_refuses.
  - intros v s'. by apply service_deleteRecipe_owner.
  - by apply service_deleteRecipe_refuses.
  - by apply controller_updateRecipe_refuses.
  - intros message s'. by eapply controller_updateRecipe_not_forbidden.
  - by eapply controller_updateRecipe_admits.
  - by apply controller_deleteRecipe_refuses.
  - by apply controller_deleteRecipe_admits.
Qed.

Lemma update_delete_authorization_household :
  Store.recipes household !! "r1" = Some soup
  ∧ RecipeService.deleteRecipe "r1" "bob" household
    = (Err (JsError "Not authorized to delete this recipe"), household)
  ∧ ∃ s', RecipeController.deleteRecipe bob "r1" household = (Ok tt, s')
          ∧ Store.recipes s' !! "r1" = None.
Proof.
  pose proof (update_delete_authorization household "r1" soup eq_refl)
    as (_ & Hdelete & _ & Hcontroller).
  split; [reflexivity|]. split.
  - apply (Hdelete "bob"). discriminate.
  - apply (Hcontroller bob). right. reflexivity.
Defined.

(** C1 fails at the controller: Bob is not the owner of Alice's recipe,
    only a member of her family, and both his update and his delete go
    through. *)
Lemma family_member_updates_and_deletes :
  UserContext.id bob ≠ Recipe.userId soup
  ∧ UserContext.familyId bob = Recipe.familyId soup
  ∧ Store.recipes household !! "r1" = Some soup
  ∧ (∃ result s',
       RecipeController.updateRecipe bob "r1" (rename_to "Stew") 7%nat household
       = (Ok result, s')
       ∧ Recipe.name <$> Store.recipes s' !! "r1" = Some "Stew")
  ∧ (∃ s', RecipeController.deleteRecipe bob "r1" household = (Ok tt, s')
           ∧ Store.recipes s' !! "r1" = None).
Proof.
  split; [discriminate|]. split; [reflexivity|]. split; [reflexivity|]. split.
  - eexists _, _. split; [vm_compute; reflexivity|]. reflexivity.
  - eexists. split; [vm_compute; reflexivity|]. reflexivity.
Qed.

(** ** Rating the same recipe twice *)

Lemma is_rating_of_set_fields recipeId userId data now rr :
  is_rating_of recipeId userId (CustomPrismaClient.set_rating_fields data now rr)
  = is_rating_of recipeId userId rr.
Proof. reflexivity. Qed.

(** An [UPDATE ... WHERE] that keeps the key columns maps over the rows it
    selects and leaves their number unchanged. *)
Lemma filter_update_where (p : RecipeRating.t → bool)
    (f : RecipeRating.t → RecipeRating.t) (rows : list RecipeRating.t) :
  (∀ rr, p (f rr) = p rr) →
  List.filter p (map (λ rr, if p rr then f rr else rr) rows)
  = map f (List.filter p rows).
Proof.
  intros Hp. induction rows as [|rr rows IH]; simpl; [done|].
  destruct (p rr) eqn:Hrr; simpl.
  - by rewrite Hp, Hrr, IH.
  - by rewrite Hrr.
Qed.

Lemma payload_merged_set_fields data now rr :
  payload_merged_over rr data (CustomPrismaClient.set_rating_fields data now rr).
Proof.
  unfold payload_merged_over, field_merged. simpl.
  destruct data as [[?|] [?|] [?|] [?|]]; simpl; auto.
Qed.

Lemma payload_merged_unchanged data rr :
  CustomPrismaClient.rating_has_set_clauses data = false →
  payload_merged_over rr data rr.
Proof.
  unfold payload_merged_over, field_merged.
  destruct data as [[?|] [?|] [?|] [?|]]; simpl; done.
Qed.

(** What one call of [CustomPrismaClient.rateRecipe] leaves behind when
    the pair already has its row. *)
Lemma client_rateRecipe_existing s recipeId userId data now r0 :
  rating_rows s recipeId userId = [r0] →
  ∃ r1,
    rating_rows (snd (CustomPrismaClient.rateRecipe recipeId userId data now s))
      recipeId userId = [r1]
    ∧ payload_merged_over r0 data r1
    ∧ RecipeRating.id r1 = RecipeRating.id r0
    ∧ length (Store.ratings
                (snd (CustomPrismaClient.rateRecipe recipeId userId data now s)))
      = length (Store.ratings s)
    ∧ Store.recipes
        (snd (CustomPrismaClient.rateRecipe recipeId userId data now s))
      = Store.recipes s.
Proof.
  intros Hrows. unfold CustomPrismaClient.rateRecipe, bind, get_store.
  fold (rating_rows s recipeId userId). rewrite Hrows. simpl.
  destruct (CustomPrismaClient.rating_has_set_clauses data) eqn:Hclauses.
  - exists (CustomPrismaClient.set_rating_fields data now r0).
    unfold CustomPrismaClient.update_ratings_where, modify, rating_rows. simpl.
    rewrite filter_update_where by apply is_rating_of_set_fields.
    fold (rating_rows s recipeId userId). rewrite Hrows, length_map.
    repeat split; try done; apply payload_merged_set_fields.
  - exists r0. unfold throw. simpl. rewrite Hrows.
    repeat split; try done; by apply payload_merged_unchanged.
Qed.

(** ... and when it has none: the [INSERT] is rejected, whether or not the
    recipe exists, and nothing is stored. *)
Lemma client_rateRecipe_fresh s recipeId userId data now :
  rating_rows s recipeId userId = [] →
  CustomPrismaClient.rateRecipe recipeId userId data now s
  = (Err CustomPrismaClient.raw_query_failed, s).
Proof.
  intros Hrows. unfold CustomPrismaClient.rateRecipe, bind, get_store.
  fold (rating_rows s recipeId userId). rewrite Hrows. simpl.
  by rewrite calling_uuid_generate_v4.
Qed.

Lemma at_most_one_row {A} (rows : list A) :
  (length rows ≤ 1)%nat → rows = [] ∨ ∃ row, rows = [row].
Proof. destruct rows as [|row [|? ?]]; simpl; eauto; lia. Qed.

Lemma existsb_filter {A} (p : A → bool) (rows : list A) :
  existsb p rows = negb (bool_decide (List.filter p rows = [])).
Proof.
  induction rows as [|row rows IH]; simpl; [done|].
  destruct (p row); simpl; [done|exact IH].
Qed.

Lemma service_rateRecipe_updates s recipeId userId input now r0 :
  is_Some (Store.recipes s !! recipeId) →
  rating_rows s recipeId userId = [r0] →
  RecipeService.rateRecipe recipeId userId input now s
  = (Ok tt,
     Store.with_ratings
       (map (λ rr, if is_rating_of recipeId userId rr
                   then CustomPrismaClient.set_rating_fields input now rr
                   else rr)) s).
Proof.
  intros [recipe Hrecipe] Hrows. unfold RecipeService.rateRecipe, bind at 1.
  rewrite (recipe_findUnique_found _ _ _ Hrecipe).
  unfold db.recipeRating_upsert, bind, get_store.
  rewrite existsb_filter. fold (rating_rows s recipeId userId).
  by rewrite Hrows.
Qed.

Lemma service_rateRecipe_existing s recipeId userId input now r0 :
  is_Some (Store.recipes s !! recipeId) →
  rating_rows s recipeId userId = [r0] →
  ∃ r1,
    rating_rows (snd (RecipeService.rateRecipe recipeId userId input now s))
      recipeId userId = [r1]
    ∧ payload_merged_over r0 input r1
    ∧ RecipeRating.id r1 = RecipeRating.id r0
    ∧ length (Store.ratings
                (snd (RecipeService.rateRecipe recipeId userId input now s)))
      = length (Store.ratings s)
    ∧ Store.recipes
        (snd (RecipeService.rateRecipe recipeId userId input now s))
      = Store.recipes s.
Proof.
  intros Hrecipe Hrows.
  rewrite (service_rateRecipe_updates _ _ _ input now _ Hrecipe Hrows).
  exists (CustomPrismaClient.set_rating_fields input now r0).
  unfold rating_rows. simpl.
  rewrite filter_update_where by apply is_rating_of_set_fields.
  fold (rating_rows s recipeId userId). rewrite Hrows, length_map.
  repeat split; try done; apply payload_merged_set_fields.
Qed.

(** The row the create branch of the upsert appends. *)
Lemma service_rateRecipe_fresh_row s recipeId userId input now :
  is_Some (Store.recipes s !! recipeId) →
  rating_rows s recipeId userId = [] →
  ∃ row,
    RecipeService.rateRecipe recipeId userId input now s
    = (Ok tt, Store.with_ratings (λ rows, rows ++ [row]) s)
    ∧ rating_rows (Store.with_ratings (λ rows, rows ++ [row]) s)
        recipeId userId = [row]
    ∧ created_from input row
    ∧ RecipeRating.recipeId row = recipeId
    ∧ RecipeRating.userId row = userId
    ∧ RecipeRating.id row = uuid s.
Proof.
  intros Hsome Hrows. pose proof Hsome as [recipe Hrecipe].
  unfold RecipeService.rateRecipe, bind at 1.
  rewrite (recipe_findUnique_found _ _ _ Hrecipe).
  unfold db.recipeRating_upsert, bind, get_store.
  rewrite existsb_filter. fold (rating_rows s recipeId userId).
  rewrite Hrows. simpl. rewrite bool_decide_eq_true_2 by done.
  eexists. split; [reflexivity|]. split.
  - unfold rating_rows. simpl. rewrite List.filter_app.
    fold (rating_rows s recipeId userId). rewrite Hrows. simpl.
    unfold is_rating_of. simpl. by rewrite !bool_decide_eq_true_2.
  - split; [|done]. split; [by intros []|done].
Qed.

(** Two submissions for a pair that has its row: each is the partial
    update of the row the one before left. *)
Lemma client_rateRecipe_twice s recipeId userId first second now1 now2 r0 :
  rating_rows s recipeId userId = [r0] →
  let s1 := snd (CustomPrismaClient.rateRecipe recipeId userId first now1 s) in
  let s2 := snd (CustomPrismaClient.rateRecipe recipeId userId second now2 s1) in
  ∃ r1 r2,
    rating_rows s1 recipeId userId = [r1]
    ∧ payload_merged_over r0 first r1
    ∧ rating_rows s2 recipeId userId = [r2]
    ∧ payload_merged_over r1 second r2
    ∧ RecipeRating.id r2 = RecipeRating.id r0
    ∧ length (Store.ratings s2) = length (Store.ratings s).
Proof.
  intros Hone s1 s2.
  destruct (client_rateRecipe_existing s recipeId userId first now1 r0 Hone)
    as (r1 & Hr1 & Hmerged1 & Hid1 & Hlen1 & _).
  destruct (client_rateRecipe_existing s1 recipeId userId second now2 r1 Hr1)
    as (r2 & Hr2 & Hmerged2 & Hid2 & Hlen2 & _).
  exists r1, r2. subst s1 s2.
  split; [done|]. split; [done|]. split; [done|]. split; [done|].
  split; [by rewrite Hid2|]. by rewrite Hlen2.
Qed.

Lemma service_rateRecipe_twice s recipeId userId first second now1 now2 r0 :
  is_Some (Store.recipes s !! recipeId) →
  rating_rows s recipeId userId = [r0] →
  let s1 := snd (RecipeService.rateRecipe recipeId userId first now1 s) in
  let s2 := snd (RecipeService.rateRecipe recipeId userId second now2 s1) in
  ∃ r1 r2,
    rating_rows s1 recipeId userId = [r1]
    ∧ payload_merged_over r0 first r1
    ∧ rating_rows s2 recipeId userId = [r2]
    ∧ payload_merged_over r1 second r2
    ∧ RecipeRating.id r2 = RecipeRating.id r0
    ∧ length (Store.ratings s2) = length (Store.ratings s).
Proof.
  intros Hrecipe Hone s1 s2.
  destruct (service_rateRecipe_existing s recipeId userId first now1 r0
              Hrecipe Hone) as (r1 & Hr1 & Hmerged1 & Hid1 & Hlen1 & Hsame).
  rewrite <- Hsame in Hrecipe.
  destruct (service_rateRecipe_existing s1 recipeId userId second now2 r1
              Hrecipe Hr1) as (r2 & Hr2 & Hmerged2 & Hid2 & Hlen2 & _).
  exists r1, r2. subst s1 s2.
  split; [done|]. split; [done|]. split; [done|]. split; [done|].
  split; [by rewrite Hid2|]. by rewrite Hlen2.
Qed.

(** Two submissions through the upsert for a pair that has no row: the
    first creates the row from its payload, the second updates it. *)
Lemma service_rateRecipe_twice_fresh s recipeId userId first second now1 now2 :
  is_Some (Store.recipes s !! recipeId) →
  rating_rows s recipeId userId = [] →
  ∃ r1 r2 s1 s2,
    RecipeService.rateRecipe recipeId userId first now1 s = (Ok tt, s1)
    ∧ RecipeService.rateRecipe recipeId userId second now2 s1 = (Ok tt, s2)
    ∧ rating_rows s1 recipeId userId = [r1]
    ∧ created_from first r1
    ∧ rating_rows s2 recipeId userId = [r2]
    ∧ payload_merged_over r1 second r2
    ∧ RecipeRating.id r2 = RecipeRating.id r1
    ∧ length (Store.ratings s1) = S (length (Store.ratings s))
    ∧ length (Store.ratings s2) = length (Store.ratings s1).
Proof.
  intros Hrecipe Hnone.
  destruct (service_rateRecipe_fresh_row s recipeId userId first now1
              Hrecipe Hnone) as (r1 & Hrate1 & Hr1 & Hcreated & _).
  set (s1 := Store.with_ratings (λ rows, rows ++ [r1]) s) in *.
  assert (is_Some (Store.recipes s1 !! recipeId)) as Hrecipe1 by done.
  pose proof (service_rateRecipe_updates s1 recipeId userId second now2 r1
                Hrecipe1 Hr1) as Hrate2.
  destruct (service_rateRecipe_existing s1 recipeId userId second now2 r1
              Hrecipe1 Hr1) as (r2 & Hr2 & Hmerged & Hid & Hlen & _).
  rewrite Hrate2 in Hr2, Hlen. simpl in Hr2, Hlen.
  eexists r1, r2, s1, _.
  split; [exact Hrate1|]. split; [exact Hrate2|].
  split; [exact Hr1|]. split; [exact Hcreated|].
  split; [exact Hr2|]. split; [exact Hmerged|]. split; [exact Hid|].
  split; [|exact Hlen].
  subst s1. simpl. rewrite length_app. simpl. lia.
Qed.

(** C3. Two rating payloads submitted in sequence for the same stored
    recipe and the same user.  Through [RecipeService.rateRecipe], for a
    pair that has no row, the first submission creates one row with the
    values of the first payload (a score the payload leaves out is the 0
    of the schema's default) and the second leaves exactly that row, in
    which every field the second payload supplies holds its value and
    every other field the value the first submission stored.  Through
    [CustomPrismaClient.rateRecipe] both submissions are rejected for such
    a pair, since the [INSERT] calls a function the database does not
    define, and no row exists afterwards.  For a pair that has its row
    both paths update it twice and add no row. *)
Theorem rating_twice_keeps_one_merged_row
    s recipeId userId first second now1 now2 :
  is_Some (Store.recipes s !! recipeId) →
  (rating_rows s recipeId userId = [] →
   ∃ r1 r2 s1 s2,
     RecipeService.rateRecipe recipeId userId first now1 s = (Ok tt, s1)
     ∧ RecipeService.rateRecipe recipeId userId second now2 s1 = (Ok tt, s2)
     ∧ rating_rows s1 recipeId userId = [r1]
     ∧ created_from first r1
     ∧ rating_rows s2 recipeId userId = [r2]
     ∧ payload_merged_over r1 second r2
     ∧ RecipeRating.id r2 = RecipeRating.id r1
     ∧ length (Store.ratings s1) = S (length (Store.ratings s))
     ∧ length (Store.ratings s2) = length (Store.ratings s1))
  ∧ (rating_rows s recipeId userId = [] →
     CustomPrismaClient.rateRecipe recipeId userId first now1 s
     = (Err (PrismaError "P2010"), s)
     ∧ CustomPrismaClient.rateRecipe recipeId userId second now2 s
       = (Err (PrismaError "P2010"), s))
  ∧ (∀ r0,
       rating_rows s recipeId userId = [r0] →
       (let s1 := snd (RecipeService.rateRecipe recipeId userId first now1 s) in
        let s2 := snd (RecipeService.rateRecipe recipeId userId second now2 s1) in
        ∃ r1 r2,
          rating_rows s1 recipeId userId = [r1]
          ∧ payload_merged_over r0 first r1
          ∧ rating_rows s2 recipeId userId = [r2]
          ∧ payload_merged_over r1 second r2
          ∧ RecipeRating.id r2 = RecipeRating.id r0
          ∧ length (Store.ratings s2) = length (Store.ratings s))
       ∧ (let s1 :=
            snd (CustomPrismaClient.rateRecipe recipeId userId first now1 s) in
          let s2 :=
            snd (CustomPrismaClient.rateRecipe recipeId userId second now2 s1) in
          ∃ r1 r2,
            rating_rows s1 recipeId userId = [r1]
            ∧ payload_merged_over r0 first r1
            ∧ rating_rows s2 recipeId userId = [r2]
            ∧ payload_merged_over r1 second r2
            ∧ RecipeRating.id r2 = RecipeRating.id r0
            ∧ length (Store.ratings s2) = length (Store.ratings s))).
Proof.
  intros Hrecipe. split; [|split].
  - intros Hnone. by apply service_rateRecipe_twice_fresh.
  - intros Hnone. split; by apply client_rateRecipe_fresh.
  - intros r0 Hone. split.
    + by apply service_rateRecipe_twice.
    + by apply client_rateRecipe_twice.
Qed.

Lemma rating_twice_household :
  is_Some (Store.recipes household !! "r1")
  ∧ rating_rows household "r1" "carol" = []
  ∧ (∃ r2 s1 s2,
       RecipeService.rateRecipe "r1" "carol" (scores None (Some 4) None)
         5%nat household = (Ok tt, s1)
       ∧ RecipeService.rateRecipe "r1" "carol" (scores (Some 5) (Some 2) None)
           6%nat s1 = (Ok tt, s2)
       ∧ rating_rows s2 "r1" "carol" = [r2]
       ∧ RecipeRating.nutrition r2 = Some 5
       ∧ RecipeRating.flavor r2 = Some 2
       ∧ RecipeRating.difficulty r2 = Some 0)
  ∧ CustomPrismaClient.rateRecipe "r1" "carol" (scores None (Some 4) None)
      5%nat household
    = (Err (PrismaError "P2010"), household).
Proof.
  assert (is_Some (Store.recipes household !! "r1")) as Hrecipe
    by (eexists; reflexivity).
  assert (rating_rows household "r1" "carol" = []) as Hnone by reflexivity.
  split; [exact Hrecipe|]. split; [exact Hnone|].
  destruct (rating_twice_keeps_one_merged_row household "r1" "carol"
              (scores None (Some 4) None) (scores (Some 5) (Some 2) None)
              5%nat 6%nat Hrecipe)
    as (Hservice & Hclient & _).
  split; [|apply (Hclient Hnone)].
  destruct (Hservice Hnone)
    as (r1 & r2 & s1 & s2 & H1 & H2 & _ & Hcreated & Hr2 & Hmerged & _).
  exists r2, s1, s2. split; [exact H1|]. split; [exact H2|].
  split; [exact Hr2|].
  destruct Hmerged as (Hn & Hf & Hd & _). simpl in Hn, Hf, Hd.
  split; [exact Hn|]. split; [exact Hf|].
  rewrite Hd. apply (proj1 Hcreated difficulty).
Defined.

(** ** A first score of zero *)

Lemma present_values_app ratings ratings' field :
  present_values (ratings ++ ratings') field
  = present_values ratings field ++ present_values ratings' field.
Proof. unfold present_values. apply omap_app. Qed.

Lemma ratings_of_appended s recipeId row :
  RecipeRating.recipeId row = recipeId →
  ratings_of (Store.with_ratings (λ rows, rows ++ [row]) s) recipeId
  = ratings_of s recipeId ++ [row].
Proof.
  intros Hrow. unfold ratings_of. simpl. rewrite List.filter_app. simpl.
  by rewrite bool_decide_eq_true_2.
Qed.

(** C9. [CustomPrismaClient.rateRecipe] never inserts a rating row: for a
    pair that has no row its [INSERT] calls [uuid_generate_v4()], which
    the SQLite datasource does not define, so the call is rejected and the
    store is left as it was, whatever the payload and whether or not the
    recipe exists; a first score of 0 is therefore not stored at all.  On
    the update branch (the pair has its row) a supplied 0 is stored as 0.
    The first rating through [RecipeService.rateRecipe] is stored, and
    stores a 0 as 0. *)
Theorem client_first_rating_is_rejected s recipeId userId data now :
  (rating_rows s recipeId userId = [] →
   CustomPrismaClient.rateRecipe recipeId userId data now s
   = (Err (PrismaError "P2010"), s))
  ∧ (∀ r0 field,
       rating_rows s recipeId userId = [r0] →
       payload_get data field = Some 0 →
       ∃ r1,
         rating_rows
           (snd (CustomPrismaClient.rateRecipe recipeId userId data now s))
           recipeId userId = [r1]
         ∧ rating_get r1 field = Some 0)
  ∧ (is_Some (Store.recipes s !! recipeId) →
     rating_rows s recipeId userId = [] →
     ∃ row,
       RecipeService.rateRecipe recipeId userId data now s
       = (Ok tt, Store.with_ratings (λ rows, rows ++ [row]) s)
       ∧ ∀ field,
           payload_get data field = Some 0 → rating_get row field = Some 0).
Proof.
  split; [|split].
  - intros Hrows. by apply client_rateRecipe_fresh.
  - intros r0 field Hrows Hzero.
    destruct (client_rateRecipe_existing s recipeId userId data now r0 Hrows)
      as (r1 & Hr1 & Hmerged & _).
    exists r1. split; [exact Hr1|].
    destruct Hmerged as (Hn & Hf & Hd & _).
    destruct field; simpl in *; rewrite Hzero in *; assumption.
  - intros Hrecipe Hrows.
    destruct (service_rateRecipe_fresh_row s recipeId userId data now
                Hrecipe Hrows) as (row & Hrate & _ & [Hscores _] & _).
    exists row. split; [exact Hrate|].
    intros field Hzero. by rewrite Hscores, Hzero.
Qed.

Lemma client_first_rating_is_rejected_household :
  Store.recipes household !! "r1" = Some soup
  ∧ rating_rows household "r1" "carol" = []
  ∧ CustomPrismaClient.rateRecipe "r1" "carol" (scores None (Some 0) None)
      5%nat household
    = (Err (PrismaError "P2010"), household).
Proof.
  split; [reflexivity|]. split; [reflexivity|].
  apply (client_first_rating_is_rejected household "r1" "carol"
           (scores None (Some 0) None) 5%nat).
  reflexivity.
Defined.

(** ** Counting usage *)

Lemma store_eta (s : Store.t) :
  Store.mk (Store.recipes s) (Store.ingredients s) (Store.ratings s)
    (Store.items s) = s.
Proof. by destruct s. Qed.

Lemma client_incrementUsageCount_present s id now recipe :
  Store.recipes s !! id = Some recipe →
  ∃ s',
    CustomPrismaClient.incrementUsageCount id now s = (Ok tt, s')
    ∧ Recipe.usageCount <$> Store.recipes s' !! id
      = Some (Recipe.usageCount recipe + 1)
    ∧ (∀ other, other ≠ id → Store.recipes s' !! other = Store.recipes s !! other)
    ∧ Store.ingredients s' = Store.ingredients s
    ∧ Store.ratings s' = Store.ratings s.
Proof.
  intros Hr. unfold CustomPrismaClient.incrementUsageCount, modify.
  eexists. split; [reflexivity|]. simpl.
  rewrite lookup_alter_eq, Hr. split; [done|]. split; [|done].
  intros other Hother. by rewrite lookup_alter_ne.
Qed.

Lemma service_incrementUsageCount_missing s id now :
  Store.recipes s !! id = None →
  RecipeService.incrementUsageCount id now s = (Err db.record_not_found, s).
Proof.
  intros Hr. unfold RecipeService.incrementUsageCount,
    db.recipe_update_increment, bind, get_store. by rewrite Hr.
Qed.

Lemma service_incrementUsageCount_present s id now recipe :
  Store.recipes s !! id = Some recipe →
  RecipeService.incrementUsageCount id now s
  = CustomPrismaClient.incrementUsageCount id now s.
Proof.
  intros Hr. unfold RecipeService.incrementUsageCount,
    db.recipe_update_increment, bind, get_store. by rewrite Hr.
Qed.

(** C5, where the code departs from it. For an id that is not in the
    store, [CustomPrismaClient.incrementUsageCount] reports success and
    leaves the store as it was, whereas [RecipeService.incrementUsageCount]
    fails with Prisma's record-not-found error. *)
Theorem client_incrementUsageCount_missing_succeeds s id now :
  Store.recipes s !! id = None →
  CustomPrismaClient.incrementUsageCount id now s = (Ok tt, s)
  ∧ RecipeService.incrementUsageCount id now s
    = (Err db.record_not_found, s).
Proof.
  intros Hr. split; [|by apply service_incrementUsageCount_missing].
  unfold CustomPrismaClient.incrementUsageCount, modify, Store.with_recipes.
  rewrite alter_id' by done. by rewrite store_eta.
Qed.

Lemma client_incrementUsageCount_missing_household :
  Store.recipes household !! "r404" = None
  ∧ CustomPrismaClient.incrementUsageCount "r404" 9%nat household
    = (Ok tt, household).
Proof.
  split; [reflexivity|].
  apply (client_incrementUsageCount_missing_succeeds household "r404" 9%nat).
  reflexivity.
Defined.

(** ** Counting by minimum rating *)

(** The rule [countRecipes] applies for a non-zero [minRating] alone: a
    recipe counts when the average of its truncated row scores reaches the
    bound; a recipe without ratings does not count. *)
Lemma countRecipes_minRating_rule s minRating :
  Qeq_bool minRating 0 = false →
  CustomPrismaClient.countRecipes (Some (count_where_minRating minRating)) s
  = (Ok (Z.of_nat (length
       (List.filter
          (λ r, CustomPrismaClient.sql_ge
                  (CustomPrismaClient.rating_subquery s (Recipe.id r)) minRating)
          (snd <$> map_to_list (Store.recipes s))))), s).
Proof.
  intros Hnonzero.
  unfold CustomPrismaClient.countRecipes, CustomPrismaClient.conditions,
    bind, get_store, ret.
  simpl. rewrite Hnonzero. simpl. do 4 f_equal.
  apply filter_ext. intros r. apply andb_true_r.
Qed.

(** C8, where the code departs from it. The recipe "r1" has the rating
    rows (5, 5, 4) and (4, 3, 3); the mean over them of
    (nutrition + flavor + difficulty) / 3 is 4, yet counting with
    [minRating] 4 leaves the recipe out: the query averages the truncated
    quotients 4 and 3, which gives 7/2. *)
Theorem countRecipes_truncates_row_scores :
  ratings_of household "r1"
  = [rating_by "g1" "bob" (Some 5) (Some 5) (Some 4);
     rating_by "g2" "alice" (Some 4) (Some 3) (Some 3)]
  ∧ (∃ mean, joint_mean (ratings_of household "r1") = Some mean
             ∧ (4 <= mean)%Q)
  ∧ CustomPrismaClient.rating_subquery household "r1" = Some (7 # 2)%Q
  ∧ CustomPrismaClient.countRecipes (Some (count_where_minRating 4)) household
    = (Ok 0, household)
  ∧ CustomPrismaClient.countRecipes None household = (Ok 1, household).
Proof.
  split; [reflexivity|]. split.
  - eexists. split; [reflexivity|]. vm_compute. discriminate.
  - repeat split; vm_compute; reflexivity.
Qed.

(** ** Creating a recipe with its ingredients *)

Lemma uuid_not_used s : uuid s ∉ used_ids s.
Proof. exact (is_fresh (used_ids s)). Qed.

Lemma uuid_not_a_recipe s : Store.recipes s !! uuid s = None.
Proof.
  apply not_elem_of_dom. pose proof (uuid_not_used s) as Hfresh.
  unfold used_ids in Hfresh. rewrite !elem_of_union in Hfresh. tauto.
Qed.

Lemma insert_ingredient_frame error recipeId ingredient notes now s v s' :
  insert_ingredient error recipeId ingredient notes now s = (Ok v, s') →
  Store.recipes s' = Store.recipes s ∧ Store.items s' = Store.items s
  ∧ Store.ratings s' = Store.ratings s.
Proof.
  unfold insert_ingredient. db_unfold.
  destruct (_ && _); intros [= ]; subst; auto.
Qed.

(** A loop of ingredient inserts stops with the given error as soon as an
    ingredient refers to an item that does not exist. *)
Lemma for_of_insert_fails error recipeId
    (notes : IngredientInput.t → option string) now l s :
  Exists (λ i, Store.items s !! IngredientInput.itemId i = None) l →
  ∃ s', for_of l (λ ingredient,
          insert_ingredient error recipeId ingredient (notes ingredient) now) s
        = (Err error, s').
Proof.
  revert s. induction l as [|i l IH]; intros s Hex.
  - by apply Exists_nil in Hex.
  - simpl. unfold bind at 1.
    destruct (insert_ingredient error recipeId i (notes i) now s)
      as [[[]|e] s1] eqn:Hi.
    + apply insert_ingredient_frame in Hi as Hframe.
      destruct Hframe as (_ & Hitems & _).
      apply Exists_cons in Hex as [Hhead | Htail].
      * revert Hi. unfold insert_ingredient. db_unfold.
        rewrite Hhead.
        rewrite (bool_decide_eq_false_2 (is_Some None)), andb_false_r
          by (by intros [? ?]).
        discriminate.
      * apply IH. by rewrite Hitems.
    + apply insert_ingredient_error in Hi as [-> ->]. eauto.
Qed.

Lemma client_createRecipe_atomic userId familyId data now s e s' :
  CustomPrismaClient.createRecipe userId familyId data now s = (Err e, s') →
  s' = s.
Proof.
  unfold CustomPrismaClient.createRecipe, transaction.
  match goal with
  | |- context [bind ?m ?k s] => destruct (bind m k s) as [[v|e0] s0]
  end; by intros [= ].
Qed.

(** The [INSERT] of the parent row is rejected, so the transaction ends
    there. *)
Lemma client_createRecipe_never userId familyId data now s :
  CustomPrismaClient.createRecipe userId familyId data now s
  = (Err CustomPrismaClient.raw_query_failed, s).
Proof.
  unfold CustomPrismaClient.createRecipe, transaction. unfold bind at 1.
  by rewrite calling_uuid_generate_v4.
Qed.

Lemma client_createRecipe_rejects userId familyId data now s :
  Exists (λ i, Store.items s !! IngredientInput.itemId i = None)
         (CreateRecipeInput.ingredients data) →
  CustomPrismaClient.createRecipe userId familyId data now s
  = (Err CustomPrismaClient.raw_query_failed, s).
Proof. intros _. apply client_createRecipe_never. Qed.

Lemma for_of_fmap {A B} (f : A → B) (body : B → DB unit) (l : list A) s :
  for_of (f <$> l) body s = for_of l (λ x, body (f x)) s.
Proof.
  revert s. induction l as [|x l IH]; intros s; simpl; [done|].
  unfold bind. destruct (body (f x) s) as [[[]|e] s1]; [apply IH|done].
Qed.

Lemma service_createMany_rejects recipeId ingredients now s :
  Exists (λ i, Store.items s !! IngredientInput.itemId i = None) ingredients →
  db.recipeIngredient_createMany
    ((λ ingredient, (recipeId, ingredient)) <$> ingredients) now s
  = (Err db.foreign_key_failed, s).
Proof.
  intros Hex. unfold db.recipeIngredient_createMany, transaction.
  rewrite for_of_fmap.
  by destruct (for_of_insert_fails db.foreign_key_failed recipeId
                 IngredientInput.notes now ingredients s Hex) as [s1 ->].
Qed.

(** C4, where the code departs from it. When an ingredient of the input
    refers to an item that does not exist, [RecipeService.createRecipe]
    fails with the foreign-key error and leaves the new parent row in the
    [Recipe] table, without any ingredient; [CustomPrismaClient.createRecipe]
    on the same input fails and leaves the store as it was. *)
Theorem service_createRecipe_leaves_parent_row s userId familyId input now :
  Exists (λ i, Store.items s !! IngredientInput.itemId i = None)
         (CreateRecipeInput.ingredients input) →
  (∃ recipe,
     RecipeService.createRecipe userId familyId input now s
     = (Err db.foreign_key_failed,
        Store.with_recipes (insert (uuid s) recipe) s)
     ∧ Recipe.name recipe = CreateRecipeInput.name input
     ∧ Recipe.userId recipe = userId
     ∧ Store.recipes s !! uuid s = None)
  ∧ CustomPrismaClient.createRecipe userId familyId input now s
    = (Err CustomPrismaClient.raw_query_failed, s).
Proof.
  intros Hex. split; [|by apply client_createRecipe_rejects].
  eexists. split; [|split; [|split]]; [| | |apply uuid_not_a_recipe].
  - unfold RecipeService.createRecipe. unfold bind at 1.
    unfold db.recipe_create, transaction. simpl.
    unfold bind at 1.
    assert ((0 <? length (CreateRecipeInput.ingredients input))%nat = true) as ->.
    { destruct (CreateRecipeInput.ingredients input);
        [by apply Exists_nil in Hex | done]. }
    rewrite service_createMany_rejects by done. reflexivity.
  - reflexivity.
  - reflexivity.
Qed.

Lemma service_createRecipe_household :
  Exists (λ i, Store.items household !! IngredientInput.itemId i = None)
         (CreateRecipeInput.ingredients salad_input)
  ∧ ∃ recipe,
      RecipeService.createRecipe "alice" "fam" salad_input 9%nat household
      = (Err db.foreign_key_failed,
         Store.with_recipes (insert (uuid household) recipe)
           household)
      ∧ Recipe.name recipe = "Salad".
Proof.
  assert (Exists (λ i, Store.items household !! IngredientInput.itemId i = None)
            (CreateRecipeInput.ingredients salad_input)) as Hex
    by (apply Exists_cons_hd; reflexivity).
  split; [exact Hex|].
  destruct (service_createRecipe_leaves_parent_row household "alice" "fam"
              salad_input 9%nat Hex) as [(recipe & Hcreate & Hname & _) _].
  exists recipe. auto.
Defined.

(** ** Cloning *)

Lemma used_ids_with_ingredient s row x :
  x ∈ used_ids (Store.with_ingredients (λ old, old ++ [row]) s)
  ↔ x ∈ used_ids s ∨ x = RecipeIngredient.id row
    ∨ x = RecipeIngredient.recipeId row.
Proof.
  unfold used_ids. simpl. rewrite !fmap_app, !list_to_set_app_L. simpl.
  rewrite !elem_of_union, !elem_of_singleton, !elem_of_empty. tauto.
Qed.

Lemma used_ids_with_recipe s id recipe x :
  x ∈ used_ids (Store.with_recipes (insert id recipe) s)
  ↔ x ∈ used_ids s ∨ x = id.
Proof.
  unfold used_ids. simpl. rewrite dom_insert_L.
  rewrite !elem_of_union, !elem_of_singleton. tauto.
Qed.

Lemma with_ingredients_app s rows rows' :
  Store.with_ingredients (λ old, old ++ rows')
    (Store.with_ingredients (λ old, old ++ rows) s)
  = Store.with_ingredients (λ old, old ++ rows ++ rows') s.
Proof. unfold Store.with_ingredients. simpl. by rewrite <- app_assoc. Qed.

Lemma with_ingredients_nil s :
  Store.with_ingredients (λ old, old ++ []) s = s.
Proof.
  unfold Store.with_ingredients. rewrite app_nil_r. apply store_eta.
Qed.

(** A loop of ingredient inserts whose items all exist appends one row per
    ingredient, in order, each with a new identifier. *)
Lemma for_of_insert_ok error recipeId now l s :
  is_Some (Store.recipes s !! recipeId) →
  Forall (λ i, is_Some (Store.items s !! IngredientInput.itemId i)) l →
  ∃ rows,
    for_of l (λ ingredient,
      insert_ingredient error recipeId ingredient
        (IngredientInput.notes ingredient) now) s
    = (Ok tt, Store.with_ingredients (λ old, old ++ rows) s)
    ∧ RecipeService.ingredientData <$> rows = l
    ∧ Forall (λ row, RecipeIngredient.recipeId row = recipeId
                     ∧ RecipeIngredient.createdAt row = now
                     ∧ RecipeIngredient.updatedAt row = now
                     ∧ RecipeIngredient.id row ∉ used_ids s) rows
    ∧ NoDup (RecipeIngredient.id <$> rows).
Proof.
  revert s. induction l as [|i l IH]; intros s Hrecipe Hitems.
  - exists []. simpl. unfold ret. rewrite with_ingredients_nil.
    repeat split; constructor.
  - apply Forall_cons in Hitems as [Hi Hl]. simpl. unfold bind at 1.
    unfold insert_ingredient at 1, bind at 1, get_store, modify.
    rewrite !bool_decide_eq_true_2 by done. simpl.
    set (row := RecipeIngredient.mk (uuid s) recipeId _ _ _ _ now now).
    destruct (IH (Store.with_ingredients (λ old, old ++ [row]) s) Hrecipe Hl)
      as (rows & Hloop & Hdata & Hrows & Hnodup).
    exists (row :: rows). rewrite Hloop, with_ingredients_app. simpl.
    split; [done|].
    split; [f_equal; [by subst row; destruct i | exact Hdata]|].
    split; [|constructor; [|done]].
    + constructor; [repeat split; apply uuid_not_used|].
      eapply Forall_impl; [exact Hrows|]. simpl.
      intros r (? & ? & ? & Hr). repeat split; try done.
      intros Hused. apply Hr, used_ids_with_ingredient. auto.
    + intros Hin. apply list_elem_of_fmap in Hin as (r & Hid & Hr).
      rewrite Forall_forall in Hrows. destruct (Hrows r Hr) as (_ & _ & _ & Hfresh).
      apply Hfresh, used_ids_with_ingredient. right. left. by rewrite <- Hid.
Qed.

Lemma filter_none {A} (p : A → bool) (l : list A) :
  (∀ x, x ∈ l → p x = false) → List.filter p l = [].
Proof.
  induction l as [|x l IH]; intros Hp; simpl; [done|].
  rewrite (Hp x) by apply list_elem_of_here.
  apply IH. intros y Hy. apply Hp. by apply list_elem_of_further.
Qed.

Lemma ingredients_of_uuid s : ingredients_of s (uuid s) = [].
Proof.
  apply filter_none. intros ri Hin. apply bool_decide_eq_false_2. intros Heq.
  apply (uuid_not_used s). unfold used_ids.
  rewrite !elem_of_union, !elem_of_list_to_set. left. left. right.
  rewrite <- Heq. by apply list_elem_of_fmap_2.
Qed.

Lemma ratings_of_uuid s : ratings_of s (uuid s) = [].
Proof.
  apply filter_none. intros rr Hin. apply bool_decide_eq_false_2. intros Heq.
  apply (uuid_not_used s). unfold used_ids.
  rewrite !elem_of_union, !elem_of_list_to_set. right.
  rewrite <- Heq. by apply list_elem_of_fmap_2.
Qed.

Lemma filter_recipeId_all recipeId (rows : list RecipeIngredient.t) :
  Forall (λ row, RecipeIngredient.recipeId row = recipeId) rows →
  List.filter (λ ri, bool_decide (RecipeIngredient.recipeId ri = recipeId)) rows
  = rows.
Proof.
  induction 1 as [|row rows Hrow _ IH]; simpl; [done|].
  by rewrite bool_decide_eq_true_2, IH.
Qed.

Lemma filter_recipeId_none recipeId other (rows : list RecipeIngredient.t) :
  other ≠ recipeId →
  Forall (λ row, RecipeIngredient.recipeId row = recipeId) rows →
  List.filter (λ ri, bool_decide (RecipeIngredient.recipeId ri = other)) rows
  = [].
Proof.
  intros Hne. induction 1 as [|row rows Hrow _ IH]; simpl; [done|].
  by rewrite bool_decide_eq_false_2, IH by congruence.
Qed.

(** [recipe.create] with nested ingredient creates whose items exist. *)
Lemma recipe_create_ok data now s :
  Forall (λ i, is_Some (Store.items s !! IngredientInput.itemId i))
         (RecipeCreateData.ingredients data) →
  ∃ recipe rows,
    db.recipe_create data now s
    = (Ok (recipe, rows),
       Store.with_ingredients (λ old, old ++ rows)
         (Store.with_recipes (insert (uuid s) recipe) s))
    ∧ recipe = {|
        Recipe.id := uuid s;
        Recipe.name := RecipeCreateData.name data;
        Recipe.description := RecipeCreateData.description data;
        Recipe.instructions := RecipeCreateData.instructions data;
        Recipe.prepTime := RecipeCreateData.prepTime data;
        Recipe.cookTime := RecipeCreateData.cookTime data;
        Recipe.servings := RecipeCreateData.servings data;
        Recipe.difficulty := default MEDIUM (RecipeCreateData.difficulty data);
        Recipe.usageCount := default 0 (RecipeCreateData.usageCount data);
        Recipe.createdAt := now;
        Recipe.updatedAt := now;
        Recipe.userId := RecipeCreateData.userId data;
        Recipe.familyId := RecipeCreateData.familyId data |}
    ∧ RecipeService.ingredientData <$> rows = RecipeCreateData.ingredients data
    ∧ Forall (λ row, RecipeIngredient.recipeId row = uuid s
                     ∧ RecipeIngredient.createdAt row = now
                     ∧ RecipeIngredient.updatedAt row = now
                     ∧ RecipeIngredient.id row ∉ used_ids s) rows
    ∧ NoDup (RecipeIngredient.id <$> rows).
Proof.
  intros Hitems. eexists _. 
  unfold db.recipe_create, transaction.
  unfold bind at 1, get_store. unfold bind at 1, modify at 1.
  unfold bind at 1. cbn [Recipe.id].
  match goal with
  | |- context [for_of _ _ ?st] =>
      destruct (for_of_insert_ok db.foreign_key_failed (uuid s)
                  now (RecipeCreateData.ingredients data) st)
        as (rows & Hloop & Hdata & Hrows & Hnodup)
  end.
  { simpl. rewrite lookup_insert_eq. eauto. }
  { exact Hitems. }
  exists rows. rewrite Hloop. unfold bind, get_store, ret.
  assert (Forall (λ row, RecipeIngredient.recipeId row = uuid s) rows)
    as Hrid by (eapply Forall_impl; [exact Hrows|]; simpl; tauto).
  split; [|split; [reflexivity|split; [exact Hdata|split; [|exact Hnodup]]]].
  - do 2 f_equal. unfold ingredients_of at 1. simpl. rewrite List.filter_app.
    fold (ingredients_of s (uuid s)).
    by rewrite ingredients_of_uuid, filter_recipeId_all.
  - eapply Forall_impl; [exact Hrows|]. simpl.
    intros r (? & ? & ? & Hr). repeat split; try done.
    intros Hused. apply Hr, used_ids_with_recipe. auto.
Qed.

(** C6, as the code has it. Cloning an existing recipe whose ingredients
    refer to existing items yields a recipe with a new id, owned by the
    given user and family, named after the original with " (Copy)"
    appended, with usage count 0, with the description, instructions,
    times, servings and difficulty of the original and with [createdAt] and
    [updatedAt] set to the time of the clone; its ingredient rows are new
    rows with new ids carrying the item, quantity, unit and notes of the
    original's, in order; it has no rating; the original, its ingredients
    and all ratings stay as they were. Cloning an id that is not in the
    store fails with "Recipe not found" and changes nothing. *)
Theorem cloneRecipe_copies s originalRecipeId userId familyId now :
  (Store.recipes s !! originalRecipeId = None →
   RecipeService.cloneRecipe originalRecipeId userId familyId now s
   = (Err (JsError "Recipe not found"), s))
  ∧ (∀ original,
       Store.recipes s !! originalRecipeId = Some original →
       Forall (λ ri, is_Some (Store.items s !! RecipeIngredient.itemId ri))
              (ingredients_of s originalRecipeId) →
       ∃ clone ingredients s',
         RecipeService.cloneRecipe originalRecipeId userId familyId now s
         = (Ok (clone, ingredients), s')
         ∧ (Recipe.id clone ∉ used_ids s)
         ∧ Store.recipes s' !! Recipe.id clone = Some clone
         ∧ Recipe.userId clone = userId
         ∧ Recipe.familyId clone = familyId
         ∧ Recipe.name clone = (Recipe.name original +:+ " (Copy)")
         ∧ Recipe.usageCount clone = 0
         ∧ Recipe.description clone = Recipe.description original
         ∧ Recipe.instructions clone = Recipe.instructions original
         ∧ Recipe.prepTime clone = Recipe.prepTime original
         ∧ Recipe.cookTime clone = Recipe.cookTime original
         ∧ Recipe.servings clone = Recipe.servings original
         ∧ Recipe.difficulty clone = Recipe.difficulty original
         ∧ Recipe.createdAt clone = now
         ∧ Recipe.updatedAt clone = now
         ∧ ingredients_of s' (Recipe.id clone) = ingredients
         ∧ RecipeService.ingredientData <$> ingredients
           = RecipeService.ingredientData <$> ingredients_of s originalRecipeId
         ∧ Forall (λ row, RecipeIngredient.recipeId row = Recipe.id clone
                          ∧ RecipeIngredient.id row ∉ used_ids s) ingredients
         ∧ NoDup (RecipeIngredient.id <$> ingredients)
         ∧ ratings_of s' (Recipe.id clone) = []
         ∧ Store.recipes s' !! originalRecipeId = Some original
         ∧ ingredients_of s' originalRecipeId = ingredients_of s originalRecipeId
         ∧ Store.ratings s' = Store.ratings s).
Proof.
  split.
  - intros Hnone. unfold RecipeService.cloneRecipe, bind at 1.
    by rewrite recipe_findUnique_missing.
  - intros original Horiginal Hitems.
    unfold RecipeService.cloneRecipe, bind at 1.
    rewrite (recipe_findUnique_found _ _ _ Horiginal).
    match goal with
    | |- context [db.recipe_create ?data now] =>
        destruct (recipe_create_ok data now s)
          as (clone & rows & Hcreate & Hclone & Hdata & Hrows & Hnodup)
    end.
    { simpl. rewrite Forall_fmap. exact Hitems. }
    assert (uuid s ≠ originalRecipeId) as Hne.
    { intros Heq. pose proof (uuid_not_a_recipe s) as Hfresh.
      rewrite Heq, Horiginal in Hfresh. discriminate. }
    assert (Forall (λ row, RecipeIngredient.recipeId row = uuid s) rows)
      as Hrid by (eapply Forall_impl; [exact Hrows|]; simpl; tauto).
    exists clone, rows. eexists. unfold bind, ret. rewrite Hcreate.
    split; [reflexivity|]. rewrite Hclone. cbn [Recipe.id Recipe.userId
      Recipe.familyId Recipe.name Recipe.usageCount Recipe.description
      Recipe.instructions Recipe.prepTime Recipe.cookTime Recipe.servings
      Recipe.difficulty Recipe.createdAt Recipe.updatedAt
      RecipeCreateData.name RecipeCreateData.description
      RecipeCreateData.instructions RecipeCreateData.prepTime
      RecipeCreateData.cookTime RecipeCreateData.servings
      RecipeCreateData.difficulty RecipeCreateData.usageCount
      RecipeCreateData.userId RecipeCreateData.familyId default].
    split; [apply uuid_not_used|].
    split; [simpl; apply lookup_insert_eq|].
    do 12 (split; [reflexivity|]).
    split.
    { unfold ingredients_of at 1. simpl. rewrite List.filter_app.
      fold (ingredients_of s (uuid s)).
      by rewrite ingredients_of_uuid, filter_recipeId_all. }
    split; [exact Hdata|].
    split.
    { eapply Forall_impl; [exact Hrows|]. simpl. tauto. }
    split; [exact Hnodup|].
    split; [exact (ratings_of_uuid s)|].
    split; [simpl; by rewrite lookup_insert_ne|].
    split; [|reflexivity].
    unfold ingredients_of at 1. simpl. rewrite List.filter_app.
    fold (ingredients_of s originalRecipeId).
    rewrite (filter_recipeId_none (uuid s)) by done.
    apply app_nil_r.
Qed.

Lemma cloneRecipe_household :
  Store.recipes household !! "r1" = Some soup
  ∧ Forall (λ ri, is_Some (Store.items household !! RecipeIngredient.itemId ri))
           (ingredients_of household "r1")
  ∧ ∃ clone ingredients s',
      RecipeService.cloneRecipe "r1" "bob" "fam" 9%nat household
      = (Ok (clone, ingredients), s')
      ∧ Recipe.name clone = "Soup (Copy)"
      ∧ Recipe.usageCount clone = 0
      ∧ ratings_of s' (Recipe.id clone) = [].
Proof.
  assert (Forall (λ ri, is_Some (Store.items household !! RecipeIngredient.itemId ri))
            (ingredients_of household "r1")) as Hitems.
  { repeat constructor. eexists. reflexivity. }
  split; [reflexivity|]. split; [exact Hitems|].
  destruct (cloneRecipe_copies household "r1" "bob" "fam" 9%nat) as [_ Hclone].
  destruct (Hclone soup eq_refl Hitems) as (clone & ingredients & s' & H).
  exists clone, ingredients, s'. tauto.
Defined.

(** C6 fails on the time stamps: the clone of Alice's recipe, made at time
    9, has neither the [createdAt] nor the [updatedAt] of the original. *)
Lemma clone_timestamps_differ :
  Store.recipes household !! "r1" = Some soup
  ∧ ∃ clone ingredients s',
      RecipeService.cloneRecipe "r1" "bob" "fam" 9%nat household
      = (Ok (clone, ingredients), s')
      ∧ Recipe.createdAt clone ≠ Recipe.createdAt soup
      ∧ Recipe.updatedAt clone ≠ Recipe.updatedAt soup.
Proof.
  split; [reflexivity|]. eexists _, _, _.
  split; [vm_compute; reflexivity|]. split; discriminate.
Qed.

(** ** Creating, when every item exists *)

(** On the path without a failure [RecipeService.createRecipe] stores the
    parent row and one ingredient row per submitted ingredient, and the
    read that follows returns exactly these. *)
Lemma service_createRecipe_ok s userId familyId input now :
  Forall (λ i, is_Some (Store.items s !! IngredientInput.itemId i))
         (CreateRecipeInput.ingredients input) →
  ∃ recipe rows s',
    RecipeService.createRecipe userId familyId input now s
    = (Ok (recipe, rows), s')
    ∧ db.recipe_findUnique (Recipe.id recipe) s' = (Ok (Some (recipe, rows)), s')
    ∧ RecipeService.ingredientData <$> rows = CreateRecipeInput.ingredients input
    ∧ Recipe.userId recipe = userId
    ∧ Recipe.familyId recipe = familyId.
Proof.
  intros Hitems. unfold RecipeService.createRecipe. unfold bind at 1.
  match goal with
  | |- context [db.recipe_create ?data now s] =>
      destruct (recipe_create_ok data now s)
        as (recipe & rows0 & Hcreate & Hrecipe & Hdata0 & _); [constructor|]
  end.
  apply fmap_nil_inv in Hdata0 as ->.
  rewrite Hcreate, with_ingredients_nil. cbn [fst].
  set (s1 := Store.with_recipes (insert (uuid s) recipe) s).
  assert (Recipe.id recipe = uuid s) as Hid by (by rewrite Hrecipe).
  rewrite Hid.
  destruct (for_of_insert_ok db.foreign_key_failed (uuid s) now
              (CreateRecipeInput.ingredients input) s1)
    as (rows & Hloop & Hdata & Hrows & _).
  { subst s1. simpl. rewrite lookup_insert_eq. eauto. }
  { exact Hitems. }
  assert (Forall (λ row, RecipeIngredient.recipeId row = uuid s) rows)
    as Hrid by (eapply Forall_impl; [exact Hrows|]; simpl; tauto).
  set (s2 := Store.with_ingredients (λ old, old ++ rows) s1).
  assert ((if (0 <? length (CreateRecipeInput.ingredients input))%nat
           then db.recipeIngredient_createMany
                  ((λ ingredient, (uuid s, ingredient))
                   <$> CreateRecipeInput.ingredients input) now
           else ret tt) s1 = (Ok tt, s2)) as Hmany.
  { destruct (CreateRecipeInput.ingredients input) as [|i l] eqn:Hl.
    - apply fmap_nil_inv in Hdata as ->. subst s2.
      by rewrite with_ingredients_nil.
    - cbn [length Nat.ltb Nat.leb].
      unfold db.recipeIngredient_createMany, transaction.
      by rewrite for_of_fmap, Hloop. }
  assert (ingredients_of s2 (uuid s) = rows) as Hread.
  { subst s2 s1. unfold ingredients_of at 1. simpl. rewrite List.filter_app.
    fold (ingredients_of s (uuid s)).
    by rewrite ingredients_of_uuid, filter_recipeId_all. }
  assert (db.recipe_findUnique (uuid s) s2
          = (Ok (Some (recipe, rows)), s2)) as Hfind.
  { rewrite (recipe_findUnique_found s2 _ recipe), Hread; [done|].
    subst s2 s1. simpl. apply lookup_insert_eq. }
  exists recipe, rows, s2. unfold bind. rewrite Hmany, Hfind.
  rewrite Hid. split; [done|]. split; [done|]. split; [done|].
  by rewrite Hrecipe.
Qed.

(** ** Listing with filters *)

Lemma elem_of_List_filter {A} (p : A → bool) (l : list A) x :
  x ∈ List.filter p l ↔ x ∈ l ∧ p x = true.
Proof. rewrite !list_elem_of_In. apply filter_In. Qed.

Lemma elem_of_recipe_rows s recipe :
  recipe ∈ (snd <$> map_to_list (Store.recipes s))
  ↔ ∃ id, Store.recipes s !! id = Some recipe.
Proof.
  rewrite list_elem_of_fmap. split.
  - intros ([id r] & -> & Hin). exists id. by apply elem_of_map_to_list.
  - intros [id Hid]. exists (id, recipe). split; [done|].
    by apply elem_of_map_to_list.
Qed.

(** What [recipe.findMany] returns: the recipes of the store that match
    the [where] object, each with its ingredients and ratings. *)
Lemma recipe_findMany_spec contains w s :
  ∃ recipes,
    db.recipe_findMany contains w s = (Ok recipes, s)
    ∧ ∀ found,
        found ∈ recipes
        ↔ ∃ id recipe,
            Store.recipes s !! id = Some recipe
            ∧ db.matches contains s w recipe = true
            ∧ found = {|
                RecipeWithDetails.recipe := recipe;
                RecipeWithDetails.ingredients :=
                  db.with_item s <$> ingredients_of s (Recipe.id recipe);
                RecipeWithDetails.ratings := ratings_of s (Recipe.id recipe);
                RecipeWithDetails.averageRatings := None |}.
Proof.
  unfold db.recipe_findMany, bind, get_store, ret.
  eexists. split; [reflexivity|]. intros found.
  rewrite list_elem_of_fmap. split.
  - intros (recipe & -> & Hin).
    apply elem_of_List_filter in Hin as [Hin Hmatch].
    apply elem_of_recipe_rows in Hin as [id Hid]. eauto.
  - intros (id & recipe & Hid & Hmatch & ->). exists recipe.
    split; [done|]. apply elem_of_List_filter. split; [|done].
    apply elem_of_recipe_rows. eauto.
Qed.

Lemma listRecipes_unfold contains familyId filters s :
  ∃ recipes,
    db.recipe_findMany contains (RecipeService.where_of familyId filters) s
    = (Ok recipes, s)
    ∧ RecipeService.listRecipes contains familyId filters s
      = (Ok (if negb (truthy_Q (filters ≫= RecipeFilters.minRating))
             then RecipeService.with_averages <$> recipes
             else List.filter
                    (λ recipe,
                       Qle_bool (default 0%Q (filters ≫= RecipeFilters.minRating))
                                (binary64 (RecipeService.flavorRating recipe)))
                    (RecipeService.with_averages <$> recipes)), s).
Proof.
  destruct (recipe_findMany_spec contains
              (RecipeService.where_of familyId filters) s) as (recipes & Hfind & _).
  exists recipes. split; [exact Hfind|].
  unfold RecipeService.listRecipes, bind. rewrite Hfind.
  by destruct (negb _).
Qed.

(** C7, as the code has it.  [listRecipes] returns exactly the recipes of
    the family that satisfy the filters pushed into the query and, when
    the filter has a [minRating] other than 0, whose flavor average is at
    least [minRating]: the mean of the non-null flavor values (0 when
    there is none) as the number the division yields, that is rounded to
    the nearest binary64.  A [minRating] of 0 puts no condition on the
    ratings.  The [where] object handed to the query does not depend on
    [minRating], so the bound is applied after the query, and only the
    flavor field enters it. *)
Theorem listRecipes_minRating_is_flavor_post_filter
    contains s familyId filters :
  (∃ result,
     RecipeService.listRecipes contains familyId (Some filters) s
     = (Ok result, s)
     ∧ ∀ listed,
         listed ∈ result
         ↔ ∃ id recipe,
             Store.recipes s !! id = Some recipe
             ∧ Recipe.familyId recipe = familyId
             ∧ db.matches contains s
                 (RecipeService.where_of familyId (Some filters)) recipe = true
             ∧ (∀ minRating,
                  RecipeFilters.minRating filters = Some minRating →
                  ¬ (minRating == 0)%Q →
                  (minRating
                   <= binary64
                        (mean_or_zero
                           (present_values (ratings_of s (Recipe.id recipe))
                                           flavor)))%Q)
             ∧ listed = {|
                 RecipeWithDetails.recipe := recipe;
                 RecipeWithDetails.ingredients :=
                   db.with_item s <$> ingredients_of s (Recipe.id recipe);
                 RecipeWithDetails.ratings := ratings_of s (Recipe.id recipe);
                 RecipeWithDetails.averageRatings :=
                   Some (averageRatings (ratings_of s (Recipe.id recipe))) |})
  ∧ (∀ other,
       RecipeService.where_of familyId (Some filters)
       = RecipeService.where_of familyId (Some {|
           RecipeFilters.name := RecipeFilters.name filters;
           RecipeFilters.difficulty := RecipeFilters.difficulty filters;
           RecipeFilters.maxPrepTime := RecipeFilters.maxPrepTime filters;
           RecipeFilters.maxCookTime := RecipeFilters.maxCookTime filters;
           RecipeFilters.minRating := other;
           RecipeFilters.ingredient := RecipeFilters.ingredient filters |})).
Proof.
  split; [|reflexivity].
  destruct (recipe_findMany_spec contains
              (RecipeService.where_of familyId (Some filters)) s)
    as (recipes & Hfind & Hrecipes).
  destruct (listRecipes_unfold contains familyId (Some filters) s)
    as (recipes' & Hfind' & Hlist).
  rewrite Hfind in Hfind'. injection Hfind' as <-.
  eexists. split; [exact Hlist|]. simpl.
  assert (∀ recipe,
            db.matches contains s
              (RecipeService.where_of familyId (Some filters)) recipe = true →
            Recipe.familyId recipe = familyId) as Hfamily.
  { intros recipe. unfold db.matches. simpl.
    rewrite !andb_true_iff, bool_decide_eq_true. tauto. }
  intros listed.
  destruct (RecipeFilters.minRating filters) as [bound|] eqn:Hmin; simpl.
  - destruct (Qeq_bool bound 0) eqn:Hzero; simpl.
    + apply Qeq_bool_iff in Hzero. rewrite list_elem_of_fmap. split.
      * intros (found & -> & Hfound).
        apply Hrecipes in Hfound as (id & recipe & Hid & Hmatch & ->).
        exists id, recipe. repeat split; auto.
        intros minRating [= <-] Hne. by destruct Hne.
      * intros (id & recipe & Hid & _ & Hmatch & _ & ->).
        eexists. split; [|apply Hrecipes; eauto]. reflexivity.
    + apply Qeq_bool_neq in Hzero.
      rewrite elem_of_List_filter, list_elem_of_fmap. split.
      * intros [(found & -> & Hfound) Hle].
        apply Hrecipes in Hfound as (id & recipe & Hid & Hmatch & ->).
        exists id, recipe. repeat split; auto.
        intros minRating [= <-] _.
        apply Qle_bool_iff in Hle. revert Hle.
        unfold RecipeService.flavorRating, RecipeService.with_averages,
          averageRatings. simpl. by rewrite calculateAverageRating_mean.
      * intros (id & recipe & Hid & _ & Hmatch & Hle & ->). split.
        -- eexists. split; [|apply Hrecipes; eauto]. reflexivity.
        -- apply Qle_bool_iff.
           unfold RecipeService.flavorRating. simpl.
           rewrite calculateAverageRating_mean. by apply Hle.
  - rewrite list_elem_of_fmap. split.
    + intros (found & -> & Hfound).
      apply Hrecipes in Hfound as (id & recipe & Hid & Hmatch & ->).
      exists id, recipe. repeat split; auto.
      intros minRating [= ].
    + intros (id & recipe & Hid & _ & Hmatch & _ & ->).
      eexists. split; [|apply Hrecipes; eauto]. reflexivity.
Qed.

Lemma listRecipes_minRating_household :
  (∃ result listed,
     RecipeService.listRecipes substring_of "fam"
       (Some (filter_minRating 4)) household
     = (Ok result, household)
     ∧ listed ∈ result
     ∧ RecipeWithDetails.recipe listed = soup)
  ∧ (∃ result,
       RecipeService.listRecipes substring_of "fam"
         (Some (filter_minRating (9 # 2))) household
       = (Ok result, household)
       ∧ ∀ listed, listed ∉ result).
Proof.
  split.
  - destruct (listRecipes_minRating_is_flavor_post_filter substring_of household
                "fam" (filter_minRating 4)) as [(result & Hlist & Hresult) _].
    eexists result, _. split; [exact Hlist|]. split.
    + apply Hresult. exists "r1", soup.
      split; [reflexivity|]. split; [reflexivity|]. split; [reflexivity|].
      split; [|reflexivity].
      intros minRating [= <-] _. apply Qle_bool_iff. vm_compute. reflexivity.
    + reflexivity.
  - destruct (listRecipes_minRating_is_flavor_post_filter substring_of household
                "fam" (filter_minRating (9 # 2)))
      as [(result & Hlist & Hresult) _].
    exists result. split; [exact Hlist|].
    intros listed (id & recipe & Hid & _ & _ & Hbound & _)%Hresult.
    unfold household in Hid. simpl in Hid.
    apply lookup_singleton_Some in Hid as [<- <-].
    specialize (Hbound (9 # 2)%Q eq_refl).
    apply Qle_bool_iff in Hbound; [|by intros [= ]].
    vm_compute in Hbound. discriminate Hbound.
Defined.

(** A [minRating] of 0 against C7 as the specification words it: a recipe
    whose only flavor score is -3, stored through
    [RecipeService.rateRecipe], is returned although its flavor average is
    below the bound. *)
Lemma listRecipes_minRating_zero_keeps_negative_average :
  RecipeService.rateRecipe "r1" "carol" (scores None (Some (-3)) None) 5%nat
    unrated_household
  = (Ok tt, sour_household)
  ∧ RecipeFilters.minRating (filter_minRating 0) = Some 0%Q
  ∧ ∃ listed,
      RecipeService.listRecipes substring_of "fam"
        (Some (filter_minRating 0)) sour_household
      = (Ok [listed], sour_household)
      ∧ RecipeWithDetails.recipe listed = soup
      ∧ calculateAverageRating (RecipeWithDetails.ratings listed) flavor
        = (-3)%Q
      ∧ ¬ (0 <= calculateAverageRating (RecipeWithDetails.ratings listed) flavor)%Q.
Proof.
  split; [vm_compute; reflexivity|]. split; [reflexivity|].
  eexists. split; [vm_compute; reflexivity|].
  split; [reflexivity|]. split; [vm_compute; reflexivity|].
  intros Hle. apply Qle_bool_iff in Hle. vm_compute in Hle. discriminate Hle.
Qed.

(** The comparison is one of numbers: with the flavor scores 1, 2 and 2
    the quotient 5/3 is below the bound 1.6666666666666667, the number
    nearest to it, and the recipe is returned. *)
Lemma listRecipes_minRating_compares_numbers :
  (mean_or_zero (present_values (ratings_of thirds_household "r1") flavor)
   < five_thirds)%Q
  ∧ ∃ listed,
      RecipeService.listRecipes substring_of "fam"
        (Some (filter_minRating five_thirds)) thirds_household
      = (Ok [listed], thirds_household)
      ∧ RecipeWithDetails.recipe listed = soup.
Proof.
  split; [by vm_compute|].
  eexists. split; [vm_compute; reflexivity|]. reflexivity.
Qed.

(** C10. In [listRecipes] a [maxPrepTime] of 0, a [maxCookTime] of 0 and a
    [minRating] of 0 each behave as if the field were absent from the
    filter.  In the household, a listing with [maxPrepTime] 0 returns the
    recipe whose preparation takes 10 minutes, which a listing with
    [maxPrepTime] 5 leaves out. *)
Theorem listRecipes_zero_filter_is_absent
    contains familyId s name difficulty maxPrepTime maxCookTime minRating
    ingredient (denominator : positive) :
  RecipeService.listRecipes contains familyId
    (Some (RecipeFilters.mk name difficulty (Some 0) maxCookTime minRating
             ingredient)) s
  = RecipeService.listRecipes contains familyId
      (Some (RecipeFilters.mk name difficulty None maxCookTime minRating
               ingredient)) s
  ∧ RecipeService.listRecipes contains familyId
      (Some (RecipeFilters.mk name difficulty maxPrepTime (Some 0) minRating
               ingredient)) s
    = RecipeService.listRecipes contains familyId
        (Some (RecipeFilters.mk name difficulty maxPrepTime None minRating
                 ingredient)) s
  ∧ RecipeService.listRecipes contains familyId
      (Some (RecipeFilters.mk name difficulty maxPrepTime maxCookTime
               (Some (0 # denominator)%Q) ingredient)) s
    = RecipeService.listRecipes contains familyId
        (Some (RecipeFilters.mk name difficulty maxPrepTime maxCookTime None
                 ingredient)) s
  ∧ (∃ listed,
       RecipeService.listRecipes substring_of "fam"
         (Some (filter_maxPrepTime 0)) household
       = (Ok [listed], household)
       ∧ Recipe.prepTime (RecipeWithDetails.recipe listed) = 10)
  ∧ RecipeService.listRecipes substring_of "fam"
      (Some (filter_maxPrepTime 5)) household
    = (Ok [], household).
Proof.
  split; [reflexivity|]. split; [reflexivity|]. split; [reflexivity|]. split.
  - eexists. split; [vm_compute; reflexivity|]. reflexivity.
  - vm_compute. reflexivity.
Qed.

(** * Further properties of the code *)

(** ** The aggregator: bounds and order *)

Lemma sum_list_bounds lo hi (l : list Z) :
  Forall (λ v, lo ≤ v ≤ hi) l →
  lo * Z.of_nat (length l) ≤ sum_list l ≤ hi * Z.of_nat (length l).
Proof.
  unfold sum_list. induction 1 as [|v l Hv _ IH]; simpl length; simpl foldr.
  - lia.
  - rewrite Nat2Z.inj_succ. nia.
Qed.

Lemma mean_or_zero_bounds lo hi (l : list Z) :
  l ≠ [] →
  Forall (λ v, lo ≤ v ≤ hi) l →
  (inject_Z lo <= mean_or_zero l)%Q ∧ (mean_or_zero l <= inject_Z hi)%Q.
Proof.
  intros Hne Hl. destruct (sum_list_bounds lo hi l Hl) as [Hlo Hhi].
  unfold mean_or_zero. destruct l as [|v l]; [done|].
  set (n := Z.of_nat (length (v :: l))) in *.
  assert (0 < inject_Z n)%Q as Hn.
  { unfold Qlt. simpl. subst n. simpl length. lia. }
  split.
  - apply Qle_shift_div_l; [exact Hn|].
    by rewrite <- inject_Z_mult, <- Zle_Qle.
  - apply Qle_shift_div_r; [exact Hn|].
    by rewrite <- inject_Z_mult, <- Zle_Qle.
Qed.

Lemma present_values_bounds lo hi ratings field :
  (∀ r v, r ∈ ratings → rating_get r field = Some v → lo ≤ v ≤ hi) →
  Forall (λ v, lo ≤ v ≤ hi) (present_values ratings field).
Proof.
  intros Hbounds. apply Forall_forall. intros v Hv.
  unfold present_values in Hv.
  apply list_elem_of_omap in Hv as (r & Hr & Hget). by eapply Hbounds.
Qed.

(** X1. When every score of a field lies between [lo] and [hi] and at
    least one rating has the field, the average of the field lies between
    [lo] and [hi] as well; with scores from 0 to 5 no average leaves that
    range. *)
Theorem calculateAverageRating_within_bounds ratings field lo hi :
  (∀ r v, r ∈ ratings → rating_get r field = Some v → lo ≤ v ≤ hi) →
  (∃ r v, r ∈ ratings ∧ rating_get r field = Some v) →
  (inject_Z lo <= calculateAverageRating ratings field)%Q
  ∧ (calculateAverageRating ratings field <= inject_Z hi)%Q.
Proof.
  intros Hbounds (r & v & Hr & Hget). rewrite calculateAverageRating_mean.
  apply mean_or_zero_bounds; [|by apply present_values_bounds].
  intros Hnil.
  assert (v ∈ present_values ratings field) as Hv
    by (unfold present_values; apply list_elem_of_omap; eauto).
  rewrite Hnil in Hv. by apply elem_of_nil in Hv.
Qed.

Lemma calculateAverageRating_within_bounds_example :
  (0 <= calculateAverageRating example_ratings flavor)%Q
  ∧ (calculateAverageRating example_ratings flavor <= 5)%Q.
Proof.
  apply (calculateAverageRating_within_bounds example_ratings flavor 0 5).
  - intros r v Hr Hget. simpl in Hr.
    apply elem_of_cons in Hr as [-> | Hr];
      [|apply elem_of_cons in Hr as [-> | Hr]; [|by apply elem_of_nil in Hr]];
      simpl in Hget; injection Hget as <-; lia.
  - eexists _, 4. split; [apply list_elem_of_here|reflexivity].
Defined.

Lemma sum_list_Permutation (l l' : list Z) :
  l ≡ₚ l' → sum_list l = sum_list l'.
Proof.
  unfold sum_list. induction 1; simpl; lia.
Qed.

Lemma mean_or_zero_Permutation (l l' : list Z) :
  l ≡ₚ l' → mean_or_zero l = mean_or_zero l'.
Proof.
  intros Hperm. unfold mean_or_zero.
  rewrite (sum_list_Permutation _ _ Hperm), (Permutation_length Hperm).
  destruct l as [|v l], l' as [|v' l']; try done.
  all: first [ by apply Permutation_nil_cons in Hperm
             | symmetry in Hperm; by apply Permutation_nil_cons in Hperm ].
Qed.

(** X2. The averages do not depend on the order in which the ratings are
    read: any rearrangement of the ratings gives the same three values. *)
Theorem averageRatings_order_independent ratings ratings' :
  ratings ≡ₚ ratings' →
  averageRatings ratings = averageRatings ratings'.
Proof.
  intros Hperm. unfold averageRatings.
  rewrite !calculateAverageRating_mean.
  assert (∀ field, present_values ratings field ≡ₚ present_values ratings' field)
    as Hvalues.
  { intros field. unfold present_values. by rewrite Hperm. }
  by rewrite (mean_or_zero_Permutation _ _ (Hvalues nutrition)),
    (mean_or_zero_Permutation _ _ (Hvalues flavor)),
    (mean_or_zero_Permutation _ _ (Hvalues difficulty)).
Qed.

Lemma averageRatings_order_independent_example :
  averageRatings example_ratings = averageRatings (reverse example_ratings).
Proof.
  apply averageRatings_order_independent. symmetry. apply reverse_Permutation.
Defined.

(** ** What [findRecipeById] returns *)

Lemma omap_id_left_join {A} (l : list A) :
  omap id (CustomPrismaClient.left_join l) = l.
Proof.
  destruct l as [|x l]; [done|]. unfold CustomPrismaClient.left_join.
  generalize (x :: l). intros l'. induction l' as [|y l' IH]; [done|].
  simpl. by rewrite <- IH at 2.
Qed.

Lemma length_left_join {A} (l : list A) :
  length (CustomPrismaClient.left_join l) = Nat.max 1 (length l).
Proof.
  destruct l as [|x l]; [done|]. unfold CustomPrismaClient.left_join.
  rewrite length_fmap. simpl. lia.
Qed.

Lemma omap_fst_pair_some {A B} (a : A) (others : list (option B)) :
  omap fst ((λ o, (Some a, o)) <$> others) = replicate (length others) a.
Proof.
  induction others as [|o others IH]; [done|]. simpl. f_equal. exact IH.
Qed.

Lemma omap_fst_pair_none {A B} (others : list (option B)) :
  omap fst ((λ o, (@None A, o)) <$> others) = [].
Proof. induction others as [|o others IH]; [done|]. exact IH. Qed.

Lemma omap_snd_pair {A B} (p : option A) (others : list (option B)) :
  omap snd ((λ o, (p, o)) <$> others) = omap id others.
Proof.
  induction others as [|o others IH]; [done|].
  simpl. destruct o; simpl; [f_equal|]; exact IH.
Qed.

(** The parent side of the joined rows: every parent once per row of the
    other side. *)
Lemma omap_fst_join {A B} (parents : list (option A)) (others : list (option B)) :
  omap fst (flat_map (λ p, (λ o, (p, o)) <$> others) parents)
  = flat_map (λ p, replicate (length others) p) (omap id parents).
Proof.
  induction parents as [|p parents IH]; [done|].
  cbn [flat_map]. rewrite omap_app, IH. destruct p as [a|].
  - by rewrite omap_fst_pair_some.
  - by rewrite omap_fst_pair_none.
Qed.

(** The other side: all its rows once per parent. *)
Lemma omap_snd_join {A B} (parents : list (option A)) (others : list (option B)) :
  omap snd (flat_map (λ p, (λ o, (p, o)) <$> others) parents)
  = flat_map (λ _, omap id others) parents.
Proof.
  induction parents as [|p parents IH]; [done|].
  cbn [flat_map]. by rewrite omap_app, IH, omap_snd_pair.
Qed.

Lemma flat_map_const_length {A B} (l : list A) (block : list B) :
  length (flat_map (λ _, block) l) = (length l * length block)%nat.
Proof.
  induction l as [|x l IH]; [done|]. simpl. rewrite length_app, IH. lia.
Qed.

Lemma flat_map_replicate_length {A} (n : nat) (l : list A) :
  length (flat_map (λ x, replicate n x) l) = (length l * n)%nat.
Proof.
  induction l as [|x l IH]; [done|].
  simpl. rewrite length_app, length_replicate, IH. lia.
Qed.

Lemma flat_map_const_concat {A B} (l : list A) (block : list B) :
  flat_map (λ _, block) l = concat (replicate (length l) block).
Proof. induction l as [|x l IH]; [done|]. simpl. by rewrite IH. Qed.

Lemma findRecipeById_found_details s id recipe :
  Store.recipes s !! id = Some recipe →
  ∃ details,
    CustomPrismaClient.findRecipeById id true s
    = (Ok (Some {| RecipeResult.row := recipe;
                   RecipeResult.parsed := Some details |}), s)
    ∧ RecipeResult.ingredients details
      = (CustomPrismaClient.ingredient_json s
         <$> omap fst (CustomPrismaClient.joined_rows s id))
    ∧ RecipeResult.ratings details
      = (CustomPrismaClient.rating_json
         <$> omap snd (CustomPrismaClient.joined_rows s id))
    ∧ ∀ field,
        result_average (RecipeResult.averageRatings details) field
        = CustomPrismaClient.sql_avg
            ((λ row, snd row ≫= (λ rr, rating_get rr field))
             <$> CustomPrismaClient.joined_rows s id).
Proof.
  intros Hr. unfold CustomPrismaClient.findRecipeById, bind, get_store, ret.
  rewrite Hr. eexists. split; [reflexivity|]. simpl.
  split; [done|]. split; [done|]. by intros [].
Qed.

(** X3. For an existing recipe, [findRecipeById] with details lists every
    ingredient row once per rating row of the recipe (once when it has no
    rating) and the rating rows once per ingredient row (once when it has
    no ingredient): the two left joins multiply the rows that the JSON
    arrays collect. *)
Theorem findRecipeById_arrays_multiply s id recipe :
  Store.recipes s !! id = Some recipe →
  ∃ details,
    CustomPrismaClient.findRecipeById id true s
    = (Ok (Some {| RecipeResult.row := recipe;
                   RecipeResult.parsed := Some details |}), s)
    ∧ RecipeResult.ingredients details
      = (CustomPrismaClient.ingredient_json s
         <$> flat_map (λ ri, replicate (Nat.max 1 (length (ratings_of s id))) ri)
                      (ingredients_of s id))
    ∧ RecipeResult.ratings details
      = (CustomPrismaClient.rating_json
         <$> concat (replicate (Nat.max 1 (length (ingredients_of s id)))
                               (ratings_of s id))).
Proof.
  intros Hr.
  destruct (findRecipeById_found_details s id recipe Hr)
    as (details & Hfind & Hingredients & Hratings & _).
  exists details. split; [exact Hfind|].
  rewrite Hingredients, Hratings. unfold CustomPrismaClient.joined_rows.
  rewrite omap_fst_join, omap_snd_join, !omap_id_left_join,
    flat_map_const_concat, !length_left_join.
  done.
Qed.

Lemma findRecipeById_arrays_multiply_household :
  Store.recipes household !! "r1" = Some soup
  ∧ ∃ details,
      CustomPrismaClient.findRecipeById "r1" true household
      = (Ok (Some {| RecipeResult.row := soup;
                     RecipeResult.parsed := Some details |}), household)
      ∧ length (RecipeResult.ingredients details) = 2%nat.
Proof.
  split; [reflexivity|].
  destruct (findRecipeById_arrays_multiply household "r1" soup eq_refl)
    as (details & Hfind & Hingredients & _).
  exists details. split; [exact Hfind|]. by rewrite Hingredients.
Defined.

Lemma sum_list_app (l l' : list Z) :
  sum_list (l ++ l') = sum_list l + sum_list l'.
Proof. unfold sum_list. induction l as [|v l IH]; simpl; lia. Qed.

Lemma sum_list_flat_map_const {A} (l : list A) (block : list Z) :
  sum_list (flat_map (λ _, block) l) = Z.of_nat (length l) * sum_list block.
Proof.
  induction l as [|x l IH]; [done|].
  simpl flat_map. rewrite sum_list_app, IH. simpl length. lia.
Qed.

Lemma omap_flat_map_const {A B C} (f : B → option C) (l : list A) (block : list B) :
  omap f (flat_map (λ _, block) l) = flat_map (λ _, omap f block) l.
Proof.
  induction l as [|x l IH]; [done|]. cbn [flat_map]. by rewrite omap_app, IH.
Qed.

(** The SQL average over a column repeated [k >= 1] times is the average
    over the column. *)
Lemma sql_avg_repeated {A} (parents : list A) (values : list Z) :
  parents ≠ [] →
  match CustomPrismaClient.sql_avg (Some <$> flat_map (λ _, values) parents) with
  | Some q => values ≠ [] ∧ (q == mean_or_zero values)%Q
  | None => values = []
  end.
Proof.
  intros Hparents. unfold CustomPrismaClient.sql_avg.
  assert (omap id (Some <$> flat_map (λ _, values) parents)
          = flat_map (λ _, values) parents) as ->.
  { generalize (flat_map (λ _ : A, values) parents). intros l.
    induction l as [|v l IH]; [done|]. simpl. f_equal. exact IH. }
  destruct values as [|v values].
  - assert (flat_map (λ _ : A, @nil Z) parents = []) as ->; [|done].
    clear. induction parents as [|x parents IH]; [done|]. exact IH.
  - destruct parents as [|x parents]; [done|].
    set (block := v :: values).
    assert (flat_map (λ _, block) (x :: parents) ≠ []) as Hne by done.
    destruct (flat_map (λ _, block) (x :: parents)) as [|w rest] eqn:Hflat;
      [done|].
    split; [done|]. rewrite <- Hflat.
    rewrite sum_list_flat_map_const, flat_map_const_length.
    unfold mean_or_zero. fold block.
    rewrite Nat2Z.inj_mul, !inject_Z_mult.
    change (match block with [] => 0%Q | _ :: _ => ?q end) with q.
    generalize (sum_list block). intros total.
    assert (¬ (inject_Z (Z.of_nat (length block)) == 0)%Q) as Hblock
      by (unfold Qeq; simpl; subst block; simpl length; lia).
    assert (¬ (inject_Z (Z.of_nat (length (x :: parents))) == 0)%Q) as Hcount
      by (unfold Qeq; simpl; lia).
    revert Hblock Hcount.
    generalize (inject_Z (Z.of_nat (length block))),
      (inject_Z (Z.of_nat (length (x :: parents)))), (inject_Z total).
    intros a b c Ha Hb. field. auto.
Qed.

Lemma omap_snd_bind {A B C} (g : B → option C) (rows : list (A * option B)) :
  omap id ((λ row, snd row ≫= g) <$> rows) = omap g (omap snd rows).
Proof.
  induction rows as [|[a [b|]] rows IH]; [done| |]; simpl.
  - destruct (g b); simpl; [f_equal|]; exact IH.
  - exact IH.
Qed.

Lemma sql_avg_present (column : list (option Z)) :
  CustomPrismaClient.sql_avg column
  = CustomPrismaClient.sql_avg (Some <$> omap id column).
Proof.
  unfold CustomPrismaClient.sql_avg.
  assert (∀ l : list Z, omap id (Some <$> l) = l) as ->; [|done].
  intros l. induction l as [|v l IH]; [done|]. simpl. f_equal. exact IH.
Qed.

Lemma left_join_not_nil {A} (l : list A) : CustomPrismaClient.left_join l ≠ [].
Proof. by destruct l. Qed.

(** X4. For an existing recipe the averages [findRecipeById] takes from
    SQL agree with the aggregator of the service on every field that some
    rating of the recipe has, although the joined rows repeat the ratings;
    on a field no rating has, [findRecipeById] reports null where the
    aggregator reports 0. *)
Theorem findRecipeById_averages_agree s id recipe :
  Store.recipes s !! id = Some recipe →
  ∃ details,
    CustomPrismaClient.findRecipeById id true s
    = (Ok (Some {| RecipeResult.row := recipe;
                   RecipeResult.parsed := Some details |}), s)
    ∧ ∀ field,
        match result_average (RecipeResult.averageRatings details) field with
        | Some q =>
            present_values (ratings_of s id) field ≠ []
            ∧ (q == calculateAverageRating (ratings_of s id) field)%Q
        | None =>
            present_values (ratings_of s id) field = []
            ∧ calculateAverageRating (ratings_of s id) field = 0%Q
        end.
Proof.
  intros Hr.
  destruct (findRecipeById_found_details s id recipe Hr)
    as (details & Hfind & _ & _ & Haverages).
  exists details. split; [exact Hfind|]. intros field.
  rewrite Haverages, sql_avg_present, omap_snd_bind.
  unfold CustomPrismaClient.joined_rows.
  rewrite omap_snd_join, omap_id_left_join, omap_flat_map_const.
  fold (present_values (ratings_of s id) field).
  pose proof (sql_avg_repeated
                (CustomPrismaClient.left_join (ingredients_of s id))
                (present_values (ratings_of s id) field)
                (left_join_not_nil _)) as Havg.
  rewrite calculateAverageRating_mean.
  destruct (CustomPrismaClient.sql_avg _) as [q|]; [exact Havg|].
  split; [exact Havg|]. by rewrite Havg.
Qed.

Lemma findRecipeById_averages_agree_household :
  Store.recipes household !! "r1" = Some soup
  ∧ ∃ details,
      CustomPrismaClient.findRecipeById "r1" true household
      = (Ok (Some {| RecipeResult.row := soup;
                     RecipeResult.parsed := Some details |}), household)
      ∧ match RecipeResult.avg_flavor (RecipeResult.averageRatings details) with
        | Some q => (q == calculateAverageRating (ratings_of household "r1") flavor)%Q
        | None => False
        end.
Proof.
  split; [reflexivity|].
  destruct (findRecipeById_averages_agree household "r1" soup eq_refl)
    as (details & Hfind & Haverages).
  exists details. split; [exact Hfind|].
  specialize (Haverages flavor). simpl in Haverages.
  destruct (RecipeResult.avg_flavor _) as [q|].
  - apply Haverages.
  - destruct Haverages as [Hnone _]. discriminate Hnone.
Defined.

(** ** Deleting *)

Lemma filter_filter_other {A} (key : A → string) (id other : string) (rows : list A) :
  other ≠ id →
  List.filter (λ row, bool_decide (key row = other))
    (List.filter (λ row, negb (bool_decide (key row = id))) rows)
  = List.filter (λ row, bool_decide (key row = other)) rows.
Proof.
  intros Hne. induction rows as [|row rows IH]; [done|]. simpl.
  destruct (decide (key row = id)) as [Hid | Hid].
  - rewrite (bool_decide_eq_true_2 _ Hid). simpl.
    rewrite bool_decide_eq_false_2 by congruence. exact IH.
  - rewrite (bool_decide_eq_false_2 _ Hid). simpl. by rewrite IH.
Qed.

Lemma filter_filter_same {A} (key : A → string) (id : string) (rows : list A) :
  List.filter (λ row, bool_decide (key row = id))
    (List.filter (λ row, negb (bool_decide (key row = id))) rows)
  = [].
Proof.
  apply filter_none. intros row Hin.
  apply elem_of_List_filter in Hin as [_ Hneg].
  by apply negb_true_iff in Hneg.
Qed.

(** What the cascading delete of one recipe leaves behind. *)
Lemma delete_recipe_cascade_spec s id :
  ∃ s',
    delete_recipe_cascade id s = (Ok tt, s')
    ∧ Store.recipes s' !! id = None
    ∧ ingredients_of s' id = []
    ∧ ratings_of s' id = []
    ∧ (∀ other, other ≠ id →
         Store.recipes s' !! other = Store.recipes s !! other
         ∧ ingredients_of s' other = ingredients_of s other
         ∧ ratings_of s' other = ratings_of s other)
    ∧ Store.items s' = Store.items s.
Proof.
  unfold delete_recipe_cascade, modify. eexists. split; [reflexivity|].
  unfold ingredients_of, ratings_of. simpl.
  split; [apply lookup_delete_eq|].
  split; [apply (filter_filter_same RecipeIngredient.recipeId)|].
  split; [apply (filter_filter_same RecipeRating.recipeId)|].
  split; [|done]. intros other Hne.
  split; [by rewrite lookup_delete_ne|].
  split.
  - by apply (filter_filter_other RecipeIngredient.recipeId).
  - by apply (filter_filter_other RecipeRating.recipeId).
Qed.

Lemma client_deleteRecipe_found s id recipe :
  Store.recipes s !! id = Some recipe →
  ∃ s',
    CustomPrismaClient.deleteRecipe id s
    = (Ok {| RecipeResult.row := recipe; RecipeResult.parsed := None |}, s')
    ∧ Store.recipes s' !! id = None
    ∧ ingredients_of s' id = []
    ∧ ratings_of s' id = []
    ∧ (∀ other, other ≠ id →
         Store.recipes s' !! other = Store.recipes s !! other
         ∧ ingredients_of s' other = ingredients_of s other
         ∧ ratings_of s' other = ratings_of s other)
    ∧ Store.items s' = Store.items s.
Proof.
  intros Hr.
  destruct (delete_recipe_cascade_spec s id) as (s' & Hdelete & Hspec).
  exists s'. split; [|exact Hspec].
  unfold CustomPrismaClient.deleteRecipe, CustomPrismaClient.findRecipeById,
    bind, get_store, ret. by rewrite Hr, Hdelete.
Qed.

(** X5. [CustomPrismaClient.deleteRecipe] fails with "Recipe not found" on
    an id that is not stored and changes nothing; on a stored id it
    returns the recipe, removes it together with all its ingredient and
    rating rows, and leaves every other recipe, with its ingredients and
    ratings, and the items as they were. *)
Theorem client_deleteRecipe_cascades s id :
  (Store.recipes s !! id = None →
   CustomPrismaClient.deleteRecipe id s = (Err (JsError "Recipe not found"), s))
  ∧ (∀ recipe,
       Store.recipes s !! id = Some recipe →
       ∃ s',
         CustomPrismaClient.deleteRecipe id s
         = (Ok {| RecipeResult.row := recipe; RecipeResult.parsed := None |}, s')
         ∧ Store.recipes s' !! id = None
         ∧ ingredients_of s' id = []
         ∧ ratings_of s' id = []
         ∧ (∀ other, other ≠ id →
              Store.recipes s' !! other = Store.recipes s !! other
              ∧ ingredients_of s' other = ingredients_of s other
              ∧ ratings_of s' other = ratings_of s other)
         ∧ Store.items s' = Store.items s).
Proof.
  split.
  - intros Hnone.
    unfold CustomPrismaClient.deleteRecipe, CustomPrismaClient.findRecipeById,
      bind, get_store, ret, throw. by rewrite Hnone.
  - intros recipe Hr. by apply client_deleteRecipe_found.
Qed.

Lemma client_deleteRecipe_cascades_household :
  Store.recipes household !! "r1" = Some soup
  ∧ ∃ s',
      CustomPrismaClient.deleteRecipe "r1" household
      = (Ok {| RecipeResult.row := soup; RecipeResult.parsed := None |}, s')
      ∧ ingredients_of s' "r1" = []
      ∧ ratings_of s' "r1" = [].
Proof.
  split; [reflexivity|].
  destruct (client_deleteRecipe_cascades household "r1") as [_ Hdelete].
  destruct (Hdelete soup eq_refl) as (s' & Hcall & _ & Hingredients & Hratings & _).
  exists s'. auto.
Defined.

(** X6. [RecipeService.deleteRecipe] by the owner and
    [RecipeController.deleteRecipe] by the owner or by a member of the
    recipe's family succeed and leave exactly the store that
    [CustomPrismaClient.deleteRecipe] leaves: the recipe is gone with its
    ingredients and ratings. *)
Theorem delete_paths_agree s id recipe user :
  Store.recipes s !! id = Some recipe →
  Recipe.userId recipe = UserContext.id user
  ∨ Recipe.familyId recipe = UserContext.familyId user →
  RecipeService.deleteRecipe id (Recipe.userId recipe) s
  = (Ok tt, snd (CustomPrismaClient.deleteRecipe id s))
  ∧ RecipeController.deleteRecipe user id s
    = (Ok tt, snd (CustomPrismaClient.deleteRecipe id s))
  ∧ Store.recipes (snd (CustomPrismaClient.deleteRecipe id s)) !! id = None
  ∧ ingredients_of (snd (CustomPrismaClient.deleteRecipe id s)) id = []
  ∧ ratings_of (snd (CustomPrismaClient.deleteRecipe id s)) id = [].
Proof.
  intros Hr Hor.
  destruct (client_deleteRecipe_found s id recipe Hr)
    as (s' & Hclient & Hgone & Hingredients & Hratings & _).
  rewrite Hclient. simpl. split; [|split; [|done]].
  - unfold RecipeService.deleteRecipe, bind at 1.
    rewrite (recipe_findUnique_found _ _ _ Hr). simpl.
    rewrite bool_decide_eq_true_2 by done. simpl.
    unfold db.recipe_delete, bind, get_store. rewrite Hr.
    revert Hclient.
    unfold CustomPrismaClient.deleteRecipe, CustomPrismaClient.findRecipeById,
      bind, get_store, ret. rewrite Hr.
    destruct (delete_recipe_cascade id s) as [[[]|e] s0]; by intros [= <-].
  - destruct (findRecipeById_found s id recipe true Hr) as (result & Hfind & Hrow).
    unfold RecipeController.deleteRecipe, bind at 1. rewrite Hfind, Hrow.
    assert (negb (bool_decide (Recipe.userId recipe = UserContext.id user))
            && negb (bool_decide (Recipe.familyId recipe = UserContext.familyId user))
            = false) as ->.
    { destruct Hor as [H | H]; rewrite (bool_decide_eq_true_2 _ H);
        simpl; by rewrite ?andb_false_r. }
    unfold bind. by rewrite Hclient.
Qed.

Lemma delete_paths_agree_household :
  Store.recipes household !! "r1" = Some soup
  ∧ (Recipe.userId soup = UserContext.id bob
     ∨ Recipe.familyId soup = UserContext.familyId bob)
  ∧ RecipeService.deleteRecipe "r1" "alice" household
    = (Ok tt, snd (CustomPrismaClient.deleteRecipe "r1" household))
  ∧ RecipeController.deleteRecipe bob "r1" household
    = (Ok tt, snd (CustomPrismaClient.deleteRecipe "r1" household)).
Proof.
  assert (Recipe.userId soup = UserContext.id bob
          ∨ Recipe.familyId soup = UserContext.familyId bob) as Hor
    by (right; reflexivity).
  split; [reflexivity|]. split; [exact Hor|].
  destruct (delete_paths_agree household "r1" soup bob eq_refl Hor)
    as (Hservice & Hcontroller & _).
  split; [exact Hservice | exact Hcontroller].
Defined.

(** ** Existence is checked before permission in the service and the
    handlers *)

(** X7. For an id that is not stored, these eight operations check
    existence before permission and leave the store as it was:
    [RecipeService.updateRecipe], [deleteRecipe] and [rateRecipe] throw
    "Recipe not found" for every user id, [RecipeService.getRecipe]
    returns null, and the handlers [getRecipeById], [updateRecipe],
    [deleteRecipe] and [rateRecipe] of [RecipeController], called for any
    user and any data, answer RECIPE_NOT_FOUND, which carries status 404,
    and not FORBIDDEN.  (The role checks of the routes in front of the
    delete and rate handlers, and [CustomPrismaClient.incrementUsageCount],
    are not among the eight.) *)
Theorem missing_recipe_is_not_found s id :
  Store.recipes s !! id = None →
  (∀ userId input now,
     RecipeService.updateRecipe id userId input now s
     = (Err (JsError "Recipe not found"), s))
  ∧ (∀ userId,
       RecipeService.deleteRecipe id userId s
       = (Err (JsError "Recipe not found"), s))
  ∧ (∀ userId input now,
       RecipeService.rateRecipe id userId input now s
       = (Err (JsError "Recipe not found"), s))
  ∧ RecipeService.getRecipe id s = (Ok None, s)
  ∧ (∀ user,
       RecipeController.getRecipeById user id s
       = (Err (RecipeError RECIPE_NOT_FOUND "Recipe not found"), s))
  ∧ (∀ user data now,
       RecipeController.updateRecipe user id data now s
       = (Err (RecipeError RECIPE_NOT_FOUND "Recipe not found"), s))
  ∧ (∀ user,
       RecipeController.deleteRecipe user id s
       = (Err (RecipeError RECIPE_NOT_FOUND "Recipe not found"), s))
  ∧ (∀ user data now,
       RecipeController.rateRecipe user id data now s
       = (Err (RecipeError RECIPE_NOT_FOUND "Recipe not found"), s))
  ∧ statusCode RECIPE_NOT_FOUND = 404.
Proof.
  intros Hnone.
  assert (CustomPrismaClient.findRecipeById id true s = (Ok None, s)) as Hfind.
  { unfold CustomPrismaClient.findRecipeById, bind, get_store, ret.
    by rewrite Hnone. }
  pose proof (recipe_findUnique_missing s id Hnone) as Hunique.
  repeat split.
  - intros. unfold RecipeService.updateRecipe, bind at 1. by rewrite Hunique.
  - intros. unfold RecipeService.deleteRecipe, bind at 1. by rewrite Hunique.
  - intros. unfold RecipeService.rateRecipe, bind at 1. by rewrite Hunique.
  - unfold RecipeService.getRecipe, bind, get_store, ret. by rewrite Hnone.
  - intros. unfold RecipeController.getRecipeById, bind at 1. by rewrite Hfind.
  - intros. unfold RecipeController.updateRecipe, bind at 1. by rewrite Hfind.
  - intros. unfold RecipeController.deleteRecipe, bind at 1. by rewrite Hfind.
  - intros. unfold RecipeController.rateRecipe, bind at 1. by rewrite Hfind.
Qed.

Lemma missing_recipe_is_not_found_household :
  Store.recipes household !! "r404" = None
  ∧ RecipeController.deleteRecipe bob "r404" household
    = (Err (RecipeError RECIPE_NOT_FOUND "Recipe not found"), household).
Proof.
  split; [reflexivity|].
  apply (missing_recipe_is_not_found household "r404" eq_refl).
Defined.

(** ** Updating *)

(** X8. [CustomPrismaClient.updateRecipe] cannot store an ingredient: with
    a list that is not empty it deletes the ingredient rows of the recipe
    and then sends an [INSERT] that calls [uuid_generate_v4()], which the
    SQLite datasource does not define, so the call fails and the
    transaction restores the store, whether or not the recipe and the
    items exist.  With the empty list, on a stored recipe, it succeeds and
    removes every ingredient row of the recipe and of no other recipe; the
    ratings and the items are untouched and the recipe row changes only
    through the fields supplied. *)
Theorem client_updateRecipe_ingredient_lists s id data ingredients now :
  UpdateRecipeInput.ingredients data = Some ingredients →
  (ingredients ≠ [] →
   CustomPrismaClient.updateRecipe id data now s
   = (Err (PrismaError "P2010"), s))
  ∧ (ingredients = [] →
     is_Some (Store.recipes s !! id) →
     ∃ result s',
       CustomPrismaClient.updateRecipe id data now s = (Ok result, s')
       ∧ ingredients_of s' id = []
       ∧ (∀ other, other ≠ id → ingredients_of s' other = ingredients_of s other)
       ∧ Store.ratings s' = Store.ratings s
       ∧ Store.items s' = Store.items s
       ∧ Store.recipes s'
         = (if CustomPrismaClient.has_set_clauses data
            then alter (CustomPrismaClient.set_recipe_fields data now) id
                       (Store.recipes s)
            else Store.recipes s)).
Proof.
  intros Hingredients.
  set (s1 := if CustomPrismaClient.has_set_clauses data
             then Store.with_recipes
                    (alter (CustomPrismaClient.set_recipe_fields data now) id) s
             else s).
  assert ((if CustomPrismaClient.has_set_clauses data
           then modify (Store.with_recipes
                  (alter (CustomPrismaClient.set_recipe_fields data now) id))
           else ret tt) s = (Ok tt, s1)) as Hset.
  { subst s1. unfold modify, ret.
    by destruct (CustomPrismaClient.has_set_clauses data). }
  split.
  - intros Hne. unfold CustomPrismaClient.updateRecipe, transaction.
    unfold bind at 1. rewrite Hset. unfold bind at 1. rewrite Hingredients.
    unfold bind at 1, delete_ingredients, modify at 1.
    rewrite raw_insert_loop. by destruct ingredients.
  - intros -> Hsome.
    assert (is_Some (Store.recipes s1 !! id)) as [recipe1 Hrecipe1].
    { destruct Hsome as [recipe Hr]. subst s1.
      destruct (CustomPrismaClient.has_set_clauses data); simpl;
        [rewrite lookup_alter_eq, Hr|rewrite Hr]; eauto. }
    assert (Store.ingredients s1 = Store.ingredients s
            ∧ Store.ratings s1 = Store.ratings s
            ∧ Store.items s1 = Store.items s) as (Hings1 & Hratings1 & Hitems1).
    { subst s1. by destruct (CustomPrismaClient.has_set_clauses data). }
    set (s2 := Store.with_ingredients
                 (List.filter
                    (λ ri, negb (bool_decide (RecipeIngredient.recipeId ri = id))))
                 s1).
    unfold CustomPrismaClient.updateRecipe, transaction.
    unfold bind at 1. rewrite Hset. unfold bind at 1. rewrite Hingredients.
    unfold bind at 1, delete_ingredients, modify at 1. fold s2.
    rewrite raw_insert_loop. unfold bind at 1.
    destruct (findRecipeById_found s2 id recipe1 true Hrecipe1)
      as (result & Hfind & _).
    rewrite Hfind. unfold ret. exists result, s2. split; [done|].
    unfold ingredients_of. subst s2. simpl. rewrite Hings1.
    split; [apply (filter_filter_same RecipeIngredient.recipeId)|].
    split.
    { intros other Hne.
      by apply (filter_filter_other RecipeIngredient.recipeId). }
    split; [exact Hratings1|]. split; [exact Hitems1|].
    subst s1. by destruct (CustomPrismaClient.has_set_clauses data).
Qed.

Lemma client_updateRecipe_ingredient_lists_household :
  Store.recipes household !! "r1" = Some soup
  ∧ Forall (λ i, is_Some (Store.items household !! IngredientInput.itemId i))
           [two_carrots]
  ∧ CustomPrismaClient.updateRecipe "r1" (replace_ingredients [two_carrots])
      7%nat household
    = (Err (PrismaError "P2010"), household)
  ∧ ingredients_of household "r1" = [carrots]
  ∧ ∃ result s',
      CustomPrismaClient.updateRecipe "r1" (replace_ingredients []) 7%nat
        household = (Ok result, s')
      ∧ ingredients_of s' "r1" = [].
Proof.
  split; [reflexivity|]. split.
  { repeat constructor. eexists. reflexivity. }
  split.
  - by apply (client_updateRecipe_ingredient_lists household "r1"
                (replace_ingredients [two_carrots]) [two_carrots] 7%nat eq_refl).
  - split; [reflexivity|].
    destruct (client_updateRecipe_ingredient_lists household "r1"
                (replace_ingredients []) [] 7%nat eq_refl) as [_ Hempty].
    destruct (Hempty eq_refl) as (result & s' & Hcall & Hgone & _).
    { by exists soup. }
    exists result, s'. auto.
Defined.

(** X9. [RecipeService.updateRecipe] by the owner with an ingredient list
    in which some item does not exist fails with the foreign-key error
    after its [deleteMany] has run and outside any transaction: the recipe
    is left without any ingredient row, its own fields unchanged.
    [CustomPrismaClient.updateRecipe] on the same input fails inside its
    transaction and leaves the store as it was. *)
Theorem service_updateRecipe_loses_ingredients s id recipe input ingredients now :
  Store.recipes s !! id = Some recipe →
  UpdateRecipeInput.ingredients input = Some ingredients →
  Exists (λ i, Store.items s !! IngredientInput.itemId i = None) ingredients →
  (∃ s',
     RecipeService.updateRecipe id (Recipe.userId recipe) input now s
     = (Err db.foreign_key_failed, s')
     ∧ ingredients_of s' id = []
     ∧ (∀ other, other ≠ id → ingredients_of s' other = ingredients_of s other)
     ∧ Store.recipes s' = Store.recipes s
     ∧ Store.ratings s' = Store.ratings s)
  ∧ CustomPrismaClient.updateRecipe id input now s
    = (Err CustomPrismaClient.raw_query_failed, s).
Proof.
  intros Hr Hingredients Hex. split.
  - unfold RecipeService.updateRecipe, bind at 1.
    rewrite (recipe_findUnique_found _ _ _ Hr). simpl.
    rewrite bool_decide_eq_true_2 by done. simpl.
    rewrite Hingredients. unfold bind at 1. unfold bind at 1.
    unfold db.recipeIngredient_deleteMany, delete_ingredients, modify at 1.
    rewrite service_createMany_rejects by done.
    eexists. split; [reflexivity|]. unfold ingredients_of. simpl.
    split; [apply (filter_filter_same RecipeIngredient.recipeId)|].
    split; [|done]. intros other Hne.
    by apply (filter_filter_other RecipeIngredient.recipeId).
  - unfold CustomPrismaClient.updateRecipe, transaction.
    unfold bind at 1.
    assert (∃ s1, (if CustomPrismaClient.has_set_clauses input
                   then modify (Store.with_recipes
                          (alter (CustomPrismaClient.set_recipe_fields input now) id))
                   else ret tt) s = (Ok tt, s1)
                  ∧ Store.items s1 = Store.items s) as (s1 & -> & Hitems1).
    { unfold modify, ret.
      destruct (CustomPrismaClient.has_set_clauses input); eauto. }
    unfold bind at 1. rewrite Hingredients.
    unfold bind at 1, delete_ingredients, modify at 1.
    rewrite raw_insert_loop.
    destruct ingredients; [by apply Exists_nil in Hex|done].
Qed.

Lemma service_updateRecipe_loses_ingredients_household :
  Store.recipes household !! "r1" = Some soup
  ∧ Exists (λ i, Store.items household !! IngredientInput.itemId i = None)
           [ghost_pepper]
  ∧ ingredients_of household "r1" = [carrots]
  ∧ ∃ s',
      RecipeService.updateRecipe "r1" "alice" (replace_ingredients [ghost_pepper])
        7%nat household = (Err db.foreign_key_failed, s')
      ∧ ingredients_of s' "r1" = [].
Proof.
  assert (Exists (λ i, Store.items household !! IngredientInput.itemId i = None)
            [ghost_pepper]) as Hex by (apply Exists_cons_hd; reflexivity).
  split; [reflexivity|]. split; [exact Hex|]. split; [reflexivity|].
  destruct (service_updateRecipe_loses_ingredients household "r1" soup
              (replace_ingredients [ghost_pepper]) [ghost_pepper] 7%nat
              eq_refl eq_refl Hex) as [(s' & Hcall & Hgone & _) _].
  exists s'. auto.
Defined.

(** What [CustomPrismaClient.updateRecipe] can leave behind: the store it
    was given, or one whose recipe table is the old one with the supplied
    fields set on the row [id], with the ratings and items of the old. *)
Lemma client_updateRecipe_store id data now s r s' :
  CustomPrismaClient.updateRecipe id data now s = (r, s') →
  s' = s
  ∨ (Store.recipes s'
     = (if CustomPrismaClient.has_set_clauses data
        then alter (CustomPrismaClient.set_recipe_fields data now) id
                   (Store.recipes s)
        else Store.recipes s)
     ∧ Store.ratings s' = Store.ratings s
     ∧ Store.items s' = Store.items s).
Proof.
  unfold CustomPrismaClient.updateRecipe, transaction.
  match goal with
  | |- context [bind ?m ?k s] => destruct (bind m k s) as [[v|e] s0] eqn:Hb
  end; [|intros [= <- <-]; by left].
  intros [= <- <-]. right. revert Hb. unfold bind at 1.
  set (s1 := if CustomPrismaClient.has_set_clauses data
             then Store.with_recipes
                    (alter (CustomPrismaClient.set_recipe_fields data now) id) s
             else s).
  assert ((if CustomPrismaClient.has_set_clauses data
           then modify (Store.with_recipes
                  (alter (CustomPrismaClient.set_recipe_fields data now) id))
           else ret tt) s = (Ok tt, s1)) as ->.
  { subst s1. unfold modify, ret.
    by destruct (CustomPrismaClient.has_set_clauses data). }
  assert (Store.recipes s1
          = (if CustomPrismaClient.has_set_clauses data
             then alter (CustomPrismaClient.set_recipe_fields data now) id
                        (Store.recipes s)
             else Store.recipes s)
          ∧ Store.ratings s1 = Store.ratings s
          ∧ Store.items s1 = Store.items s) as (Hr1 & Hg1 & Hi1).
  { subst s1. by destruct (CustomPrismaClient.has_set_clauses data). }
  unfold bind at 1.
  destruct (UpdateRecipeInput.ingredients data) as [ingredients|].
  - unfold bind at 1, delete_ingredients, modify at 1.
    rewrite raw_insert_loop. destruct ingredients; [|discriminate].
    unfold bind at 1.
    match goal with
    | |- context [CustomPrismaClient.findRecipeById id true ?st] =>
        destruct (findRecipeById_reads id true st) as [[result|] ->]
    end; unfold ret, throw; intros [= ]; subst.
    simpl. repeat split; congruence.
  - unfold ret at 1, bind at 1.
    destruct (findRecipeById_reads id true s1) as [[result|] ->];
      unfold ret, throw; intros [= ]; subst. done.
Qed.

(** X10. Whatever it is given and whether it succeeds or fails,
    [CustomPrismaClient.updateRecipe] neither adds nor removes a recipe,
    leaves every recipe other than [id] as it was, and on the recipe [id]
    never changes the id, the owner, the family, the usage count or the
    creation time; it never touches a rating or an item. *)
Theorem client_updateRecipe_keeps_identity id data now s :
  (∀ key,
     match Store.recipes s !! key,
           Store.recipes (snd (CustomPrismaClient.updateRecipe id data now s)) !! key
     with
     | Some before, Some after =>
         Recipe.id after = Recipe.id before
         ∧ Recipe.userId after = Recipe.userId before
         ∧ Recipe.familyId after = Recipe.familyId before
         ∧ Recipe.usageCount after = Recipe.usageCount before
         ∧ Recipe.createdAt after = Recipe.createdAt before
         ∧ (key ≠ id → after = before)
     | None, None => True
     | _, _ => False
     end)
  ∧ Store.ratings (snd (CustomPrismaClient.updateRecipe id data now s))
    = Store.ratings s
  ∧ Store.items (snd (CustomPrismaClient.updateRecipe id data now s))
    = Store.items s.
Proof.
  destruct (CustomPrismaClient.updateRecipe id data now s) as [r s'] eqn:Hcall.
  apply client_updateRecipe_store in Hcall as [-> | (Hrecipes & Hratings & Hitems)].
  - simpl. split; [|done]. intros key.
    destruct (Store.recipes s !! key); done.
  - simpl. split; [|done]. intros key. rewrite Hrecipes.
    destruct (CustomPrismaClient.has_set_clauses data).
    + destruct (decide (key = id)) as [-> | Hne].
      * rewrite lookup_alter_eq. destruct (Store.recipes s !! id); simpl; done.
      * rewrite lookup_alter_ne by done.
        destruct (Store.recipes s !! key); done.
    + destruct (Store.recipes s !! key); done.
Qed.

(** X11. An update that supplies no field and no ingredient list changes
    nothing, not even [updatedAt]: on a stored recipe
    [CustomPrismaClient.updateRecipe] returns the recipe as it is and
    leaves the store untouched, and so does the controller's handler for
    the owner and for any member of the recipe's family. *)
Theorem empty_update_changes_nothing s id recipe user data now :
  Store.recipes s !! id = Some recipe →
  CustomPrismaClient.has_set_clauses data = false →
  UpdateRecipeInput.ingredients data = None →
  Recipe.userId recipe = UserContext.id user
  ∨ Recipe.familyId recipe = UserContext.familyId user →
  ∃ result,
    CustomPrismaClient.updateRecipe id data now s = (Ok result, s)
    ∧ RecipeController.updateRecipe user id data now s = (Ok result, s)
    ∧ RecipeResult.row result = recipe.
Proof.
  intros Hr Hclauses Hingredients Hor.
  destruct (findRecipeById_found s id recipe true Hr) as (result & Hfind & Hrow).
  assert (CustomPrismaClient.updateRecipe id data now s = (Ok result, s)) as Hcall.
  { unfold CustomPrismaClient.updateRecipe, transaction.
    rewrite Hclauses, Hingredients. unfold bind, ret. by rewrite Hfind. }
  exists result. split; [exact Hcall|]. split; [|exact Hrow].
  rewrite (controller_updateRecipe_admits _ _ _ _ _ _ Hr Hor).
  unfold bind, RecipeController.recipeSchema_partial_parse.
  assert (UpdateRecipeInput.name data = None
          ∧ UpdateRecipeInput.instructions data = None
          ∧ UpdateRecipeInput.prepTime data = None
          ∧ UpdateRecipeInput.cookTime data = None
          ∧ UpdateRecipeInput.servings data = None) as (-> & -> & -> & -> & ->).
  { revert Hclauses. unfold CustomPrismaClient.has_set_clauses.
    destruct data as [[?|] [?|] [?|] [?|] [?|] [?|] [?|] ?]; simpl; done. }
  rewrite Hingredients. simpl. unfold ret. by rewrite Hcall.
Qed.

Lemma empty_update_changes_nothing_household :
  Store.recipes household !! "r1" = Some soup
  ∧ ∃ result,
      RecipeController.updateRecipe bob "r1"
        (UpdateRecipeInput.mk None None None None None None None None)
        7%nat household
      = (Ok result, household).
Proof.
  split; [reflexivity|].
  destruct (empty_update_changes_nothing household "r1" soup bob
              (UpdateRecipeInput.mk None None None None None None None None)
              7%nat eq_refl eq_refl eq_refl (or_intror eq_refl))
    as (result & _ & Hcontroller & _).
  exists result. exact Hcontroller.
Defined.

(** ** Rating: one row per pair, and the rows of others *)

Lemma is_rating_of_true recipeId userId rr :
  is_rating_of recipeId userId rr = true
  ↔ RecipeRating.recipeId rr = recipeId ∧ RecipeRating.userId rr = userId.
Proof.
  unfold is_rating_of. by rewrite andb_true_iff, !bool_decide_eq_true.
Qed.

Lemma is_rating_of_other recipeId userId r u rr :
  r ≠ recipeId ∨ u ≠ userId →
  is_rating_of recipeId userId rr = true →
  is_rating_of r u rr = false.
Proof.
  intros Hne [Hr Hu]%is_rating_of_true.
  apply not_true_is_false. intros [Hr' Hu']%is_rating_of_true.
  destruct Hne; congruence.
Qed.

(** An update of the rows of one pair that keeps their keys leaves the
    rows of every other pair as they were. *)
Lemma filter_update_other recipeId userId r u
    (f : RecipeRating.t → RecipeRating.t) (rows : list RecipeRating.t) :
  r ≠ recipeId ∨ u ≠ userId →
  (∀ rr, is_rating_of recipeId userId (f rr) = is_rating_of recipeId userId rr) →
  List.filter (is_rating_of r u)
    (map (λ rr, if is_rating_of recipeId userId rr then f rr else rr) rows)
  = List.filter (is_rating_of r u) rows.
Proof.
  intros Hne Hkeys. induction rows as [|rr rows IH]; [done|]. simpl.
  destruct (is_rating_of recipeId userId rr) eqn:Hrr.
  - rewrite (is_rating_of_other recipeId userId r u (f rr)) by (by rewrite ?Hkeys).
    by rewrite (is_rating_of_other recipeId userId r u rr).
  - by rewrite IH.
Qed.

Lemma rating_outcome_pairs recipeId userId s s1 :
  rating_outcome recipeId userId s s1 →
  (∀ r u, r ≠ recipeId ∨ u ≠ userId →
          rating_rows s1 r u = rating_rows s r u)
  ∧ ((length (rating_rows s recipeId userId) ≤ 1)%nat →
     (length (rating_rows s1 recipeId userId) ≤ 1)%nat).
Proof.
  unfold rating_rows.
  intros [-> | [(f & Hkeys & ->) | (Hnone & row & Hrow & ->)]].
  - done.
  - split.
    + intros r u Hne. by apply filter_update_other.
    + by rewrite filter_update_where, length_map.
  - split.
    + intros r u Hne. rewrite List.filter_app. simpl.
      rewrite (is_rating_of_other recipeId userId r u row) by done.
      apply app_nil_r.
    + intros _. rewrite List.filter_app. unfold rating_rows in Hnone.
      rewrite Hnone. simpl. rewrite Hrow. simpl. lia.
Qed.

Lemma client_rateRecipe_outcome s recipeId userId data now :
  rating_outcome recipeId userId s
    (snd (CustomPrismaClient.rateRecipe recipeId userId data now s))
  ∧ Store.recipes (snd (CustomPrismaClient.rateRecipe recipeId userId data now s))
    = Store.recipes s.
Proof.
  unfold CustomPrismaClient.rateRecipe, bind, get_store.
  fold (rating_rows s recipeId userId).
  destruct (rating_rows s recipeId userId) as [|r0 rest] eqn:Hrows.
  - rewrite calling_uuid_generate_v4. simpl. split; [by left|done].
  - simpl. destruct (CustomPrismaClient.rating_has_set_clauses data); simpl.
    + split; [|done]. right. left.
      exists (CustomPrismaClient.set_rating_fields data now). done.
    + split; [by left|done].
Qed.

Lemma service_rateRecipe_outcome s recipeId userId input now :
  rating_outcome recipeId userId s
    (snd (RecipeService.rateRecipe recipeId userId input now s))
  ∧ Store.recipes (snd (RecipeService.rateRecipe recipeId userId input now s))
    = Store.recipes s.
Proof.
  unfold RecipeService.rateRecipe, bind at 1, db.recipe_findUnique,
    bind, get_store, ret.
  destruct (Store.recipes s !! recipeId) as [recipe|] eqn:Hr; simpl;
    [|split; [by left|done]].
  unfold db.recipeRating_upsert, bind, get_store.
  rewrite existsb_filter. fold (rating_rows s recipeId userId).
  destruct (rating_rows s recipeId userId) as [|r0 rest] eqn:Hrows; simpl.
  - rewrite Hr. rewrite bool_decide_eq_true_2 by eauto. simpl.
    split; [|done]. right. right. split; [done|]. eexists.
    split; [|reflexivity]. apply is_rating_of_true. done.
  - split; [|done]. right. left.
    exists (CustomPrismaClient.set_rating_fields input now). done.
Qed.

(** X12. On both access paths a rating call never leaves a second row for
    a (recipe, user) pair that had at most one, never touches the rating
    row of any other pair, and never changes a recipe: the uniqueness of
    ratings per recipe and user is kept by every call, whether it inserts,
    updates or fails. *)
Theorem rateRecipe_keeps_one_row_per_pair s recipeId userId data now :
  (∀ r u, (length (rating_rows s r u) ≤ 1)%nat) →
  ((∀ r u,
      (length (rating_rows
                 (snd (CustomPrismaClient.rateRecipe recipeId userId data now s))
                 r u) ≤ 1)%nat)
   ∧ (∀ r u, r ≠ recipeId ∨ u ≠ userId →
        rating_rows
          (snd (CustomPrismaClient.rateRecipe recipeId userId data now s)) r u
        = rating_rows s r u)
   ∧ Store.recipes
       (snd (CustomPrismaClient.rateRecipe recipeId userId data now s))
     = Store.recipes s)
  ∧ ((∀ r u,
        (length (rating_rows
                   (snd (RecipeService.rateRecipe recipeId userId data now s))
                   r u) ≤ 1)%nat)
     ∧ (∀ r u, r ≠ recipeId ∨ u ≠ userId →
          rating_rows
            (snd (RecipeService.rateRecipe recipeId userId data now s)) r u
          = rating_rows s r u)
     ∧ Store.recipes
         (snd (RecipeService.rateRecipe recipeId userId data now s))
       = Store.recipes s).
Proof.
  intros Hunique.
  assert (∀ s1, rating_outcome recipeId userId s s1 →
            (∀ r u, (length (rating_rows s1 r u) ≤ 1)%nat)
            ∧ (∀ r u, r ≠ recipeId ∨ u ≠ userId →
                 rating_rows s1 r u = rating_rows s r u)) as Hpairs.
  { intros s1 Houtcome.
    destruct (rating_outcome_pairs _ _ _ _ Houtcome) as [Hother Hsame].
    split; [|exact Hother]. intros r u.
    destruct (decide (r = recipeId)) as [-> | Hr];
      [destruct (decide (u = userId)) as [-> | Hu]|].
    - apply Hsame, Hunique.
    - rewrite Hother by auto. apply Hunique.
    - rewrite Hother by auto. apply Hunique. }
  destruct (client_rateRecipe_outcome s recipeId userId data now) as [Hclient ?].
  destruct (service_rateRecipe_outcome s recipeId userId data now) as [Hservice ?].
  destruct (Hpairs _ Hclient), (Hpairs _ Hservice). done.
Qed.

Lemma rateRecipe_keeps_one_row_per_pair_household :
  (∀ r u, (length (rating_rows household r u) ≤ 1)%nat)
  ∧ ∀ r u,
      (length (rating_rows
                 (snd (CustomPrismaClient.rateRecipe "r1" "bob"
                         (scores None (Some 1%Z) None) 8%nat household))
                 r u) ≤ 1)%nat.
Proof.
  assert (∀ r u, (length (rating_rows household r u) ≤ 1)%nat) as Hunique.
  { intros r u. unfold rating_rows, is_rating_of. simpl.
    destruct (bool_decide (r = "r1")) eqn:Hr;
      [|rewrite !(bool_decide_ext ("r1" = r) (r = "r1")) by done;
        rewrite Hr; simpl; lia].
    rewrite !(bool_decide_ext ("r1" = r) (r = "r1")) by done. rewrite Hr. simpl.
    destruct (decide (u = "bob")) as [-> | Hbob].
    - simpl. lia.
    - rewrite (bool_decide_eq_false_2 ("bob" = u)) by done.
      destruct (bool_decide ("alice" = u)); simpl; lia. }
  split; [exact Hunique|].
  apply (rateRecipe_keeps_one_row_per_pair household "r1" "bob"
           (scores None (Some 1) None) 8%nat Hunique).
Defined.

(** X13. The first rating a user gives through [RecipeService.rateRecipe]
    stores every score the payload leaves out as 0, the default of the
    schema, not as null: the new row has all three scores, and each of
    them, also the ones never submitted, enters the averages of the
    recipe. *)
Theorem service_first_rating_defaults_to_zero s recipeId userId input now :
  is_Some (Store.recipes s !! recipeId) →
  rating_rows s recipeId userId = [] →
  ∃ row,
    RecipeService.rateRecipe recipeId userId input now s
    = (Ok tt, Store.with_ratings (λ rows, rows ++ [row]) s)
    ∧ (∀ field,
         rating_get row field = Some (default 0 (payload_get input field)))
    ∧ RecipeRating.comment row = RateRecipeInput.comment input
    ∧ (∀ field,
         present_values
           (ratings_of (Store.with_ratings (λ rows, rows ++ [row]) s) recipeId)
           field
         = present_values (ratings_of s recipeId) field
           ++ [default 0 (payload_get input field)]).
Proof.
  intros Hsome Hrows. pose proof Hsome as [recipe Hrecipe].
  unfold RecipeService.rateRecipe, bind at 1.
  rewrite (recipe_findUnique_found _ _ _ Hrecipe).
  unfold db.recipeRating_upsert, bind, get_store.
  rewrite existsb_filter. fold (rating_rows s recipeId userId).
  rewrite Hrows. simpl. rewrite bool_decide_eq_true_2 by done.
  eexists. split; [reflexivity|].
  split; [by intros []|]. split; [done|].
  intros field. rewrite ratings_of_appended by done.
  rewrite present_values_app. f_equal. by destruct field.
Qed.

Lemma service_first_rating_defaults_to_zero_household :
  is_Some (Store.recipes household !! "r1")
  ∧ rating_rows household "r1" "carol" = []
  ∧ ∃ row,
      RecipeService.rateRecipe "r1" "carol" (scores None (Some 4) None)
        8%nat household
      = (Ok tt, Store.with_ratings (λ rows, rows ++ [row]) household)
      ∧ rating_get row nutrition = Some 0.
Proof.
  assert (is_Some (Store.recipes household !! "r1")) as Hrecipe
    by (eexists; reflexivity).
  split; [exact Hrecipe|]. split; [reflexivity|].
  destruct (service_first_rating_defaults_to_zero household "r1" "carol"
              (scores None (Some 4) None) 8%nat Hrecipe eq_refl)
    as (row & Hcall & Hscores & _).
  exists row. split; [exact Hcall|]. apply (Hscores nutrition).
Defined.

(** ** The rating handler *)

Lemma ratingSchema_parse_ok data s :
  scores_in_range data →
  RecipeController.ratingSchema_parse data s = (Ok data, s).
Proof.
  intros Hrange. unfold RecipeController.ratingSchema_parse.
  assert (∀ field,
            RecipeController.opt_all (λ v, (0 <=? v) && (v <=? 5))
              (payload_get data field) = true) as Hfield.
  { intros field. destruct (payload_get data field) as [v|] eqn:Hv; [|done].
    simpl. destruct (Hrange field v Hv). apply andb_true_iff. split; lia. }
  pose proof (Hfield nutrition) as Hn. pose proof (Hfield flavor) as Hf.
  pose proof (Hfield difficulty) as Hd. simpl in Hn, Hf, Hd.
  by rewrite Hn, Hf, Hd.
Qed.

Lemma ratingSchema_parse_rejects data s field v :
  payload_get data field = Some v →
  v < 0 ∨ 5 < v →
  RecipeController.ratingSchema_parse data s = (Err ZodError, s).
Proof.
  intros Hv Hout. unfold RecipeController.ratingSchema_parse.
  assert (RecipeController.opt_all (λ v, (0 <=? v) && (v <=? 5))
            (payload_get data field) = false) as Hfield.
  { rewrite Hv. simpl. apply andb_false_iff. destruct Hout; [left|right]; lia. }
  destruct field; simpl in Hfield; rewrite Hfield;
    by rewrite ?andb_false_r.
Qed.

(** The handler on a user who has rated the recipe before: the rating is
    updated and the usage count goes up by one. *)
Lemma controller_rateRecipe_ok s id recipe user data now r0 :
  Store.recipes s !! id = Some recipe →
  Recipe.familyId recipe = UserContext.familyId user →
  scores_in_range data →
  rating_rows s id (UserContext.id user) = [r0] →
  CustomPrismaClient.rating_has_set_clauses data = true →
  ∃ result s' rating,
    RecipeController.rateRecipe user id data now s = (Ok (Some result), s')
    ∧ Store.recipes s' !! id = Some (RecipeResult.row result)
    ∧ Recipe.usageCount (RecipeResult.row result) = Recipe.usageCount recipe + 1
    ∧ Recipe.userId (RecipeResult.row result) = Recipe.userId recipe
    ∧ rating_rows s' id (UserContext.id user) = [rating]
    ∧ payload_merged_over r0 data rating
    ∧ Store.ingredients s' = Store.ingredients s.
Proof.
  intros Hr Hfamily Hrange Hone Hclauses.
  destruct (findRecipeById_found s id recipe true Hr) as (found & Hfind & Hrow).
  unfold RecipeController.rateRecipe, bind at 1. rewrite Hfind, Hrow.
  rewrite bool_decide_eq_true_2 by done. simpl.
  unfold bind at 1. rewrite ratingSchema_parse_ok by done.
  unfold bind at 1.
  assert (CustomPrismaClient.rateRecipe id (UserContext.id user) data now s
          = (Ok tt,
             Store.with_ratings
               (map (λ rr, if is_rating_of id (UserContext.id user) rr
                           then CustomPrismaClient.set_rating_fields data now rr
                           else rr)) s)) as Hrate.
  { unfold CustomPrismaClient.rateRecipe, bind, get_store.
    fold (rating_rows s id (UserContext.id user)). rewrite Hone. simpl.
    by rewrite Hclauses. }
  destruct (client_rateRecipe_existing s id (UserContext.id user) data now
              r0 Hone) as (rating & Hrating & Hmerged & _).
  rewrite Hrate in *. simpl in Hrating.
  set (s1 := Store.with_ratings _ s) in *.
  unfold bind at 1.
  destruct (client_incrementUsageCount_present s1 id now recipe)
    as (s2 & Hincrement & Hcount & Hothers & Hings2 & Hratings2).
  { exact Hr. }
  rewrite Hincrement. unfold bind at 1.
  destruct (Store.recipes s2 !! id) as [recipe2|] eqn:Hr2; [|done].
  destruct (findRecipeById_found s2 id recipe2 true Hr2) as (result & Hfind2 & Hrow2).
  rewrite Hfind2. unfold ret. exists result, s2, rating.
  split; [done|]. rewrite Hrow2. split; [done|].
  simpl in Hcount. injection Hcount as Hcount. split; [exact Hcount|].
  split.
  { revert Hincrement Hr2.
    unfold CustomPrismaClient.incrementUsageCount, modify. intros [= <-]. simpl.
    rewrite lookup_alter_eq, Hr. simpl. by intros [= <-]. }
  split; [|split; [exact Hmerged|by rewrite Hings2]].
  unfold rating_rows in *. by rewrite Hratings2.
Qed.

(** The handler on a user who has not rated the recipe: the [INSERT] is
    rejected before the usage count is touched. *)
Lemma controller_rateRecipe_first s id recipe user data now :
  Store.recipes s !! id = Some recipe →
  Recipe.familyId recipe = UserContext.familyId user →
  scores_in_range data →
  rating_rows s id (UserContext.id user) = [] →
  RecipeController.rateRecipe user id data now s
  = (Err CustomPrismaClient.raw_query_failed, s).
Proof.
  intros Hr Hfamily Hrange Hnone.
  destruct (findRecipeById_found s id recipe true Hr) as (found & Hfind & Hrow).
  unfold RecipeController.rateRecipe, bind at 1. rewrite Hfind, Hrow.
  rewrite bool_decide_eq_true_2 by done. simpl.
  unfold bind at 1. rewrite ratingSchema_parse_ok by done.
  unfold bind at 1. by rewrite client_rateRecipe_fresh.
Qed.

(** X14. When a member of the recipe's family who has rated the recipe
    before rates it again, with scores between 0 and 5 and at least one
    field, the handler succeeds, the recipe it returns has a usage count
    higher by exactly one, the user's one rating row is the old row with
    the payload merged over it, and no ingredient is touched: such a
    rating counts as one use.  A first rating does not: the handler's
    [INSERT] is rejected by the database and the store, with the usage
    count, stays as it was. *)
Theorem controller_rateRecipe_counts_one_use s id recipe user data now :
  Store.recipes s !! id = Some recipe →
  Recipe.familyId recipe = UserContext.familyId user →
  scores_in_range data →
  (∀ r0,
     rating_rows s id (UserContext.id user) = [r0] →
     CustomPrismaClient.rating_has_set_clauses data = true →
     ∃ result s' rating,
       RecipeController.rateRecipe user id data now s = (Ok (Some result), s')
       ∧ Store.recipes s' !! id = Some (RecipeResult.row result)
       ∧ Recipe.usageCount (RecipeResult.row result)
         = Recipe.usageCount recipe + 1
       ∧ Recipe.userId (RecipeResult.row result) = Recipe.userId recipe
       ∧ rating_rows s' id (UserContext.id user) = [rating]
       ∧ payload_merged_over r0 data rating
       ∧ Store.ingredients s' = Store.ingredients s)
  ∧ (rating_rows s id (UserContext.id user) = [] →
     RecipeController.rateRecipe user id data now s
     = (Err (PrismaError "P2010"), s)).
Proof.
  intros Hr Hfamily Hrange. split.
  - intros r0 Hone Hclauses. by eapply controller_rateRecipe_ok.
  - intros Hnone. by eapply controller_rateRecipe_first.
Qed.

Lemma scores_in_range_scores n f d :
  RecipeController.opt_all (λ v, (0 <=? v) && (v <=? 5)) n = true →
  RecipeController.opt_all (λ v, (0 <=? v) && (v <=? 5)) f = true →
  RecipeController.opt_all (λ v, (0 <=? v) && (v <=? 5)) d = true →
  scores_in_range (scores n f d).
Proof.
  intros Hn Hf Hd field v Hv.
  destruct field; simpl in Hv; subst; simpl in *;
    match goal with H : _ && _ = true |- _ => apply andb_true_iff in H end; lia.
Qed.

Lemma controller_rateRecipe_counts_one_use_household :
  Store.recipes household !! "r1" = Some soup
  ∧ scores_in_range (scores None (Some 4) None)
  ∧ (∃ result s' rating,
       RecipeController.rateRecipe bob "r1" (scores None (Some 4) None)
         8%nat household = (Ok (Some result), s')
       ∧ Recipe.usageCount (RecipeResult.row result) = 4
       ∧ rating_rows s' "r1" "bob" = [rating]
       ∧ RecipeRating.flavor rating = Some 4)
  ∧ rating_rows household "r1" "carol" = []
  ∧ RecipeController.rateRecipe carol "r1" (scores None (Some 4) None)
      8%nat household
    = (Err (PrismaError "P2010"), household).
Proof.
  assert (scores_in_range (scores None (Some 4) None)) as Hrange
    by (by apply scores_in_range_scores).
  split; [reflexivity|]. split; [exact Hrange|]. split.
  - destruct (controller_rateRecipe_counts_one_use household "r1" soup bob
                (scores None (Some 4) None) 8%nat eq_refl eq_refl Hrange)
      as [Hagain _].
    destruct (Hagain (rating_by "g1" "bob" (Some 5) (Some 5) (Some 4))
                eq_refl eq_refl)
      as (result & s' & rating & Hcall & _ & Hcount & _ & Hrows & Hmerged & _).
    exists result, s', rating. split; [exact Hcall|]. split; [exact Hcount|].
    split; [exact Hrows|]. apply Hmerged.
  - split; [reflexivity|].
    by apply (controller_rateRecipe_counts_one_use household "r1" soup carol
                (scores None (Some 4) None) 8%nat eq_refl eq_refl Hrange).
Defined.

(** X15. A rating the handler refuses never counts as a use and changes
    nothing: a caller outside the recipe's family is answered FORBIDDEN,
    even when the caller owns the recipe; a score below 0 or above 5 is
    rejected by the schema; and a payload without any field, sent by a
    user who has already rated the recipe, fails in [Prisma.join] before
    the usage count is incremented. *)
Theorem controller_rateRecipe_refusals s id recipe user data now :
  Store.recipes s !! id = Some recipe →
  (Recipe.familyId recipe ≠ UserContext.familyId user →
   RecipeController.rateRecipe user id data now s
   = (Err (RecipeError FORBIDDEN
             "You do not have permission to rate this recipe"), s))
  ∧ (Recipe.familyId recipe = UserContext.familyId user →
     (∃ field v, payload_get data field = Some v ∧ (v < 0 ∨ 5 < v)) →
     RecipeController.rateRecipe user id data now s = (Err ZodError, s))
  ∧ (Recipe.familyId recipe = UserContext.familyId user →
     scores_in_range data →
     CustomPrismaClient.rating_has_set_clauses data = false →
     rating_rows s id (UserContext.id user) ≠ [] →
     ∃ message,
       RecipeController.rateRecipe user id data now s
       = (Err (TypeError message), s)).
Proof.
  intros Hr.
  destruct (findRecipeById_found s id recipe true Hr) as (found & Hfind & Hrow).
  split; [|split].
  - intros Hfamily. unfold RecipeController.rateRecipe, bind at 1.
    rewrite Hfind, Hrow. by rewrite bool_decide_eq_false_2.
  - intros Hfamily (field & v & Hv & Hout).
    unfold RecipeController.rateRecipe, bind at 1. rewrite Hfind, Hrow.
    rewrite bool_decide_eq_true_2 by done. simpl. unfold bind at 1.
    by rewrite (ratingSchema_parse_rejects data s field v).
  - intros Hfamily Hrange Hclauses Hrows.
    unfold RecipeController.rateRecipe, bind at 1. rewrite Hfind, Hrow.
    rewrite bool_decide_eq_true_2 by done. simpl. unfold bind at 1.
    rewrite ratingSchema_parse_ok by done. unfold bind at 1.
    unfold CustomPrismaClient.rateRecipe, bind, get_store.
    fold (rating_rows s id (UserContext.id user)).
    destruct (rating_rows s id (UserContext.id user)) as [|r0 rest]; [done|].
    simpl. rewrite Hclauses. unfold throw. eauto.
Qed.

Lemma controller_rateRecipe_refusals_household :
  Store.recipes household !! "r1" = Some soup
  ∧ Recipe.familyId soup ≠ UserContext.familyId mallory
  ∧ RecipeController.rateRecipe mallory "r1" (scores None (Some 4) None)
      8%nat household
    = (Err (RecipeError FORBIDDEN
              "You do not have permission to rate this recipe"), household)
  ∧ RecipeController.rateRecipe bob "r1" (scores None (Some 6) None)
      8%nat household
    = (Err ZodError, household).
Proof.
  split; [reflexivity|]. split; [discriminate|]. split.
  - apply (controller_rateRecipe_refusals household "r1" soup mallory
             (scores None (Some 4) None) 8%nat eq_refl). discriminate.
  - apply (controller_rateRecipe_refusals household "r1" soup bob
             (scores None (Some 6) None) 8%nat eq_refl); [reflexivity|].
    exists flavor, 6. split; [reflexivity|lia].
Defined.

(** ** Reading through the controller *)

(** X16. [getRecipeById] returns a stored recipe exactly to its owner and
    to the members of its family and answers FORBIDDEN to everyone else;
    whatever it answers, it leaves the store untouched. *)
Theorem controller_getRecipeById_access s id recipe user :
  Store.recipes s !! id = Some recipe →
  (Recipe.userId recipe = UserContext.id user
   ∨ Recipe.familyId recipe = UserContext.familyId user →
   ∃ result,
     RecipeController.getRecipeById user id s = (Ok result, s)
     ∧ CustomPrismaClient.findRecipeById id true s = (Ok (Some result), s)
     ∧ RecipeResult.row result = recipe)
  ∧ (Recipe.userId recipe ≠ UserContext.id user →
     Recipe.familyId recipe ≠ UserContext.familyId user →
     RecipeController.getRecipeById user id s
     = (Err (RecipeError FORBIDDEN "You do not have access to this recipe"), s)).
Proof.
  intros Hr.
  destruct (findRecipeById_found s id recipe true Hr) as (result & Hfind & Hrow).
  split.
  - intros Hor. exists result.
    unfold RecipeController.getRecipeById, bind at 1. rewrite Hfind, Hrow.
    assert (negb (bool_decide (Recipe.userId recipe = UserContext.id user))
            && negb (bool_decide (Recipe.familyId recipe = UserContext.familyId user))
            = false) as ->.
    { destruct Hor as [H | H]; rewrite (bool_decide_eq_true_2 _ H);
        simpl; by rewrite ?andb_false_r. }
    done.
  - intros Hu Hf. unfold RecipeController.getRecipeById, bind at 1.
    rewrite Hfind, Hrow. by rewrite !bool_decide_eq_false_2.
Qed.

Lemma controller_getRecipeById_access_household :
  Store.recipes household !! "r1" = Some soup
  ∧ (∃ result, RecipeController.getRecipeById bob "r1" household
               = (Ok result, household))
  ∧ RecipeController.getRecipeById mallory "r1" household
    = (Err (RecipeError FORBIDDEN "You do not have access to this recipe"),
       household).
Proof.
  split; [reflexivity|].
  destruct (controller_getRecipeById_access household "r1" soup bob eq_refl)
    as [Hbob _].
  destruct (controller_getRecipeById_access household "r1" soup mallory eq_refl)
    as [_ Hmallory].
  split.
  - destruct (Hbob (or_intror eq_refl)) as (result & Hcall & _). eauto.
  - apply Hmallory; discriminate.
Defined.

Lemma row_recipe_result s includeDetails (recipes : list Recipe.t) :
  RecipeResult.row <$> (CustomPrismaClient.recipe_result s includeDetails <$> recipes)
  = recipes.
Proof.
  induction recipes as [|r recipes IH]; [done|]. simpl. f_equal. exact IH.
Qed.

(** X17. [getRecipes] returns exactly the stored recipes whose owner is
    the caller, each with its details; [getFamilyRecipes] answers
    FORBIDDEN for every family but the caller's own and returns exactly the
    stored recipes of that family; neither changes the store. *)
Theorem controller_lists_own_and_family s user :
  (∃ results,
     RecipeController.getRecipes user s = (Ok results, s)
     ∧ Forall (λ result, is_Some (RecipeResult.parsed result)) results
     ∧ ∀ recipe,
         recipe ∈ (RecipeResult.row <$> results)
         ↔ (∃ id, Store.recipes s !! id = Some recipe)
           ∧ Recipe.userId recipe = UserContext.id user)
  ∧ (∀ familyId,
       familyId ≠ UserContext.familyId user →
       RecipeController.getFamilyRecipes user familyId s
       = (Err (RecipeError FORBIDDEN
                 "You do not have access to this family's recipes"), s))
  ∧ (∃ results,
       RecipeController.getFamilyRecipes user (UserContext.familyId user) s
       = (Ok results, s)
       ∧ Forall (λ result, is_Some (RecipeResult.parsed result)) results
       ∧ ∀ recipe,
           recipe ∈ (RecipeResult.row <$> results)
           ↔ (∃ id, Store.recipes s !! id = Some recipe)
             ∧ Recipe.familyId recipe = UserContext.familyId user).
Proof.
  split; [|split].
  - unfold RecipeController.getRecipes, CustomPrismaClient.findRecipesByUser,
      bind, get_store, ret.
    eexists. split; [reflexivity|]. split.
    + apply Forall_fmap, Forall_forall. intros recipe _. simpl. eauto.
    + intros recipe. rewrite row_recipe_result, elem_of_List_filter,
        elem_of_recipe_rows, bool_decide_eq_true. done.
  - intros familyId Hne. unfold RecipeController.getFamilyRecipes.
    by rewrite bool_decide_eq_false_2.
  - unfold RecipeController.getFamilyRecipes.
    rewrite bool_decide_eq_true_2 by done. simpl.
    unfold CustomPrismaClient.findRecipesByFamily, bind, get_store, ret.
    eexists. split; [reflexivity|]. split.
    + apply Forall_fmap, Forall_forall. intros recipe _. simpl. eauto.
    + intros recipe. rewrite row_recipe_result, elem_of_List_filter,
        elem_of_recipe_rows, bool_decide_eq_true. done.
Qed.

(** ** Creating through the controller *)

Lemma recipeSchema_parse_ok data s :
  CreateRecipeInput.name data ≠ "" →
  CreateRecipeInput.instructions data ≠ "" →
  0 ≤ CreateRecipeInput.prepTime data →
  0 ≤ CreateRecipeInput.cookTime data →
  1 ≤ CreateRecipeInput.servings data →
  CreateRecipeInput.ingredients data ≠ [] →
  Forall (λ i, (0 <= IngredientInput.quantity i)%Q)
         (CreateRecipeInput.ingredients data) →
  RecipeController.recipeSchema_parse data s = (Ok data, s).
Proof.
  intros Hname Hinstructions Hprep Hcook Hservings Hingredients Hquantities.
  unfold RecipeController.recipeSchema_parse.
  assert ((1 <=? String.length (CreateRecipeInput.name data))%nat = true) as ->.
  { apply Nat.leb_le. destruct (CreateRecipeInput.name data); [done|simpl; lia]. }
  assert ((1 <=? String.length (CreateRecipeInput.instructions data))%nat = true)
    as ->.
  { apply Nat.leb_le.
    destruct (CreateRecipeInput.instructions data); [done|simpl; lia]. }
  assert ((1 <=? length (CreateRecipeInput.ingredients data))%nat = true) as ->.
  { apply Nat.leb_le.
    destruct (CreateRecipeInput.ingredients data); [done|simpl; lia]. }
  assert (forallb (λ i, Qle_bool 0 (IngredientInput.quantity i))
                  (CreateRecipeInput.ingredients data) = true) as ->.
  { apply forallb_forall. intros i Hi. apply Qle_bool_iff.
    rewrite Forall_forall in Hquantities. by apply Hquantities, list_elem_of_In. }
  by rewrite !(proj2 (Z.leb_le _ _)) by done.
Qed.

Lemma recipeSchema_parse_rejects data s :
  CreateRecipeInput.name data = ""
  ∨ CreateRecipeInput.instructions data = ""
  ∨ CreateRecipeInput.prepTime data < 0
  ∨ CreateRecipeInput.cookTime data < 0
  ∨ CreateRecipeInput.servings data < 1
  ∨ CreateRecipeInput.ingredients data = []
  ∨ Exists (λ i, (IngredientInput.quantity i < 0)%Q)
           (CreateRecipeInput.ingredients data) →
  RecipeController.recipeSchema_parse data s = (Err ZodError, s).
Proof.
  intros Hbad. unfold RecipeController.recipeSchema_parse.
  match goal with |- (if ?c then _ else _) s = _ => destruct c eqn:Hc end;
    [exfalso|done].
  rewrite !andb_true_iff, !Nat.leb_le, !Z.leb_le, forallb_forall in Hc.
  destruct Hc as ((((((Hname & Hinstructions) & Hprep) & Hcook) & Hservings)
                   & Hingredients) & Hquantities).
  destruct Hbad as [H|[H|[H|[H|[H|[H|H]]]]]].
  - rewrite H in Hname. simpl in Hname. lia.
  - rewrite H in Hinstructions. simpl in Hinstructions. lia.
  - lia.
  - lia.
  - lia.
  - rewrite H in Hingredients. simpl in Hingredients. lia.
  - apply Exists_exists in H as (i & Hi & Hq).
    apply list_elem_of_In, Hquantities, Qle_bool_iff in Hi.
    by apply (Qlt_not_le _ _ Hq).
Qed.

(** X18. [RecipeController.createRecipe] writes nothing unless it
    succeeds: data that breaks a rule of [recipeSchema] (an empty name or
    instructions, a negative time, fewer than one serving, no ingredient,
    a negative quantity) is refused by the validation before the database
    is touched, and valid data with an ingredient whose item does not
    exist fails in the transaction, which leaves the store as it was. *)
Theorem controller_createRecipe_rejects s user data now :
  (CreateRecipeInput.name data = ""
   ∨ CreateRecipeInput.instructions data = ""
   ∨ CreateRecipeInput.prepTime data < 0
   ∨ CreateRecipeInput.cookTime data < 0
   ∨ CreateRecipeInput.servings data < 1
   ∨ CreateRecipeInput.ingredients data = []
   ∨ Exists (λ i, (IngredientInput.quantity i < 0)%Q)
            (CreateRecipeInput.ingredients data) →
   RecipeController.createRecipe user data now s = (Err ZodError, s))
  ∧ (RecipeController.recipeSchema_parse data s = (Ok data, s) →
     Exists (λ i, Store.items s !! IngredientInput.itemId i = None)
            (CreateRecipeInput.ingredients data) →
     RecipeController.createRecipe user data now s
     = (Err (PrismaError "P2010"), s))
  ∧ (∀ e s', RecipeController.createRecipe user data now s = (Err e, s') →
             s' = s).
Proof.
  split; [|split].
  - intros Hbad. unfold RecipeController.createRecipe, bind at 1.
    by rewrite recipeSchema_parse_rejects.
  - intros Hvalid Hmissing. unfold RecipeController.createRecipe, bind at 1.
    rewrite Hvalid. unfold bind.
    by rewrite client_createRecipe_rejects.
  - intros e s'. unfold RecipeController.createRecipe, bind at 1.
    unfold RecipeController.recipeSchema_parse.
    match goal with |- context [if ?c then _ else _] => destruct c end;
      [|by intros [= _ <-]].
    unfold ret at 1, bind, ret.
    destruct (CustomPrismaClient.createRecipe (UserContext.id user)
                (UserContext.familyId user) data now s) as [[v|e0] s0] eqn:Hcreate;
      [done|].
    intros [= _ <-]. by eapply client_createRecipe_atomic.
Qed.

Lemma controller_createRecipe_rejects_household :
  RecipeController.recipeSchema_parse salad_input household
  = (Ok salad_input, household)
  ∧ Exists (λ i, Store.items household !! IngredientInput.itemId i = None)
           (CreateRecipeInput.ingredients salad_input)
  ∧ RecipeController.createRecipe bob salad_input 7%nat household
    = (Err (PrismaError "P2010"), household).
Proof.
  assert (Exists (λ i, Store.items household !! IngredientInput.itemId i = None)
                 (CreateRecipeInput.ingredients salad_input)) as Hmissing
    by (left; reflexivity).
  split; [reflexivity|]. split; [exact Hmissing|].
  apply (controller_createRecipe_rejects household bob salad_input 7%nat);
    [reflexivity | exact Hmissing].
Defined.

(** X19. [RecipeController.createRecipe] never creates a recipe.  Data
    that passes [recipeSchema] reaches the [INSERT] of
    [CustomPrismaClient.createRecipe], which takes the identifier from
    [uuid_generate_v4()]; the SQLite datasource does not define that
    function, so the statement is rejected and the transaction ends with
    the store as it was, also when every item exists.  Whatever the
    caller and the data, the handler answers with an error and writes
    nothing. *)
Theorem controller_createRecipe_never_creates s user data now :
  (∃ e, RecipeController.createRecipe user data now s = (Err e, s))
  ∧ (CreateRecipeInput.name data ≠ "" →
     CreateRecipeInput.instructions data ≠ "" →
     0 ≤ CreateRecipeInput.prepTime data →
     0 ≤ CreateRecipeInput.cookTime data →
     1 ≤ CreateRecipeInput.servings data →
     CreateRecipeInput.ingredients data ≠ [] →
     Forall (λ i, (0 <= IngredientInput.quantity i)%Q)
            (CreateRecipeInput.ingredients data) →
     RecipeController.createRecipe user data now s
     = (Err (PrismaError "P2010"), s))
  ∧ (∀ userId familyId,
       CustomPrismaClient.createRecipe userId familyId data now s
       = (Err (PrismaError "P2010"), s)).
Proof.
  split; [|split].
  - unfold RecipeController.createRecipe, bind at 1.
    unfold RecipeController.recipeSchema_parse.
    match goal with |- context [if ?c then _ else _] => destruct c end;
      [|by exists ZodError].
    unfold ret at 1, bind. rewrite client_createRecipe_never. eauto.
  - intros Hname Hinstructions Hprep Hcook Hservings Hne Hquantities.
    unfold RecipeController.createRecipe, bind at 1.
    rewrite recipeSchema_parse_ok by done.
    unfold bind. by rewrite client_createRecipe_never.
  - intros userId familyId. apply client_createRecipe_never.
Qed.

Lemma controller_createRecipe_never_creates_household :
  Forall (λ i, is_Some (Store.items household !! IngredientInput.itemId i))
         (CreateRecipeInput.ingredients stew_input)
  ∧ RecipeController.createRecipe bob stew_input 7%nat household
    = (Err (PrismaError "P2010"), household).
Proof.
  split.
  { repeat constructor. by exists "Carrot". }
  destruct (controller_createRecipe_never_creates household bob stew_input
              7%nat) as (_ & Hvalid & _).
  apply Hvalid.
  - discriminate.
  - discriminate.
  - unfold stew_input. simpl. lia.
  - unfold stew_input. simpl. lia.
  - unfold stew_input. simpl. lia.
  - discriminate.
  - repeat constructor. unfold Qle. simpl. lia.
Defined.

(** ** The routes of the plugin *)

Lemma includes_true allowed role :
  role ∈ allowed → RecipePlugin.includes allowed role = true.
Proof. intros H. unfold RecipePlugin.includes. by apply bool_decide_eq_true_2. Qed.

Lemma includes_false allowed role :
  role ∉ allowed → RecipePlugin.includes allowed role = false.
Proof. intros H. unfold RecipePlugin.includes. by apply bool_decide_eq_false_2. Qed.

(** X20. What [DELETE /api/recipes/:id] does to a stored recipe is decided
    by two checks in this order: a caller whose role is not in
    [roles.canDeleteRecipes] gets the 403 of the route, also when the
    recipe is their own; a caller with a listed role who neither owns the
    recipe nor belongs to its family gets FORBIDDEN from the controller;
    in both cases nothing is written.  Any other caller deletes the recipe
    with its ingredients and ratings, and no other recipe, ingredient or
    rating. *)
Theorem delete_route_outcomes config user id s recipe :
  Store.recipes s !! id = Some recipe →
  (UserContext.role user
     ∉ RecipePluginConfig.canDeleteRecipes (RecipePluginConfig.config_roles config) →
   RecipePlugin.delete_recipe config user id s
   = (RecipePlugin.Json403 "User not authorized to delete recipes", s))
  ∧ (UserContext.role user
       ∈ RecipePluginConfig.canDeleteRecipes (RecipePluginConfig.config_roles config) →
     Recipe.userId recipe ≠ UserContext.id user →
     Recipe.familyId recipe ≠ UserContext.familyId user →
     RecipePlugin.delete_recipe config user id s
     = (RecipePlugin.Handled
          (Err (RecipeError FORBIDDEN
                  "You do not have permission to delete this recipe")), s))
  ∧ (UserContext.role user
       ∈ RecipePluginConfig.canDeleteRecipes (RecipePluginConfig.config_roles config) →
     Recipe.userId recipe = UserContext.id user
     ∨ Recipe.familyId recipe = UserContext.familyId user →
     ∃ s',
       RecipePlugin.delete_recipe config user id s
       = (RecipePlugin.Handled (Ok tt), s')
       ∧ Store.recipes s' !! id = None
       ∧ ingredients_of s' id = []
       ∧ ratings_of s' id = []
       ∧ (∀ other, other ≠ id →
            Store.recipes s' !! other = Store.recipes s !! other
            ∧ ingredients_of s' other = ingredients_of s other
            ∧ ratings_of s' other = ratings_of s other)
       ∧ Store.items s' = Store.items s).
Proof.
  intros Hr. split; [|split].
  - intros Hrole. unfold RecipePlugin.delete_recipe.
    by rewrite includes_false.
  - intros Hrole Huser Hfamily. unfold RecipePlugin.delete_recipe.
    rewrite includes_true by done. simpl. unfold RecipePlugin.handle.
    by rewrite (controller_deleteRecipe_refuses s id recipe user Hr Huser Hfamily).
  - intros Hrole Hor. unfold RecipePlugin.delete_recipe.
    rewrite includes_true by done. simpl. unfold RecipePlugin.handle.
    destruct (client_deleteRecipe_found s id recipe Hr) as (s' & Hclient & Hspec).
    exists s'. split; [|exact Hspec].
    destruct (findRecipeById_found s id recipe true Hr) as (result & Hfind & Hrow).
    assert (RecipeController.deleteRecipe user id s = (Ok tt, s')) as ->; [|done].
    unfold RecipeController.deleteRecipe, bind at 1. rewrite Hfind, Hrow.
    assert (negb (bool_decide (Recipe.userId recipe = UserContext.id user))
            && negb (bool_decide (Recipe.familyId recipe = UserContext.familyId user))
            = false) as ->.
    { destruct Hor as [H | H]; rewrite (bool_decide_eq_true_2 _ H);
        simpl; by rewrite ?andb_false_r. }
    unfold bind. by rewrite Hclient.
Qed.

Lemma delete_route_outcomes_household :
  Store.recipes household !! "r1" = Some soup
  ∧ RecipePlugin.delete_recipe configSchema_defaults bob "r1" household
    = (RecipePlugin.Json403 "User not authorized to delete recipes", household)
  ∧ RecipePlugin.delete_recipe configSchema_defaults mallory "r1" household
    = (RecipePlugin.Handled
         (Err (RecipeError FORBIDDEN
                 "You do not have permission to delete this recipe")), household)
  ∧ ∃ s', RecipePlugin.delete_recipe configSchema_defaults alice "r1" household
          = (RecipePlugin.Handled (Ok tt), s')
          ∧ Store.recipes s' !! "r1" = None.
Proof.
  split; [reflexivity|]. split; [|split].
  - apply (delete_route_outcomes configSchema_defaults bob "r1" household soup
             eq_refl).
    simpl. by intros [Hin|[]]%list_elem_of_In.
  - apply (delete_route_outcomes configSchema_defaults mallory "r1" household soup
             eq_refl); [by left | done | done].
  - destruct (delete_route_outcomes configSchema_defaults alice "r1" household soup
                eq_refl) as (_ & _ & Hdelete).
    destruct Hdelete as (s' & Hcall & Hgone & _);
      [by left | by left |].
    exists s'. auto.
Defined.

(** X21. [POST /api/recipes] checks the role, then the data, then sends
    the [INSERT]: a caller whose role is not in [roles.canCreateRecipes]
    gets the 403 of the route even for valid data; a listed role with data
    that breaks a rule of [recipeSchema] gets the validation error; a
    listed role with valid data gets the error of the database, which
    rejects the [INSERT] because it calls [uuid_generate_v4()].  In all
    three cases nothing is written: the route never creates a recipe. *)
Theorem create_route_outcomes config user data now s :
  (UserContext.role user
     ∉ RecipePluginConfig.canCreateRecipes (RecipePluginConfig.config_roles config) →
   RecipePlugin.post_recipes config user data now s
   = (RecipePlugin.Json403 "User not authorized to create recipes", s))
  ∧ (UserContext.role user
       ∈ RecipePluginConfig.canCreateRecipes (RecipePluginConfig.config_roles config) →
     (CreateRecipeInput.name data = ""
      ∨ CreateRecipeInput.instructions data = ""
      ∨ CreateRecipeInput.prepTime data < 0
      ∨ CreateRecipeInput.cookTime data < 0
      ∨ CreateRecipeInput.servings data < 1
      ∨ CreateRecipeInput.ingredients data = []
      ∨ Exists (λ i, (IngredientInput.quantity i < 0)%Q)
               (CreateRecipeInput.ingredients data)) →
     RecipePlugin.post_recipes config user data now s
     = (RecipePlugin.Handled (Err ZodError), s))
  ∧ (UserContext.role user
       ∈ RecipePluginConfig.canCreateRecipes (RecipePluginConfig.config_roles config) →
     RecipeController.recipeSchema_parse data s = (Ok data, s) →
     RecipePlugin.post_recipes config user data now s
     = (RecipePlugin.Handled (Err (PrismaError "P2010")), s))
  ∧ snd (RecipePlugin.post_recipes config user data now s) = s.
Proof.
  assert (∀ e, RecipeController.createRecipe user data now s = (Err e, s) →
               RecipePlugin.handle (RecipeController.createRecipe user data now) s
               = (RecipePlugin.Handled (Err e), s)) as Hhandle.
  { intros e Hcall. unfold RecipePlugin.handle. by rewrite Hcall. }
  split; [|split; [|split]].
  - intros Hrole. unfold RecipePlugin.post_recipes. by rewrite includes_false.
  - intros Hrole Hbad. unfold RecipePlugin.post_recipes.
    rewrite includes_true by done. cbn [negb]. apply Hhandle.
    unfold RecipeController.createRecipe, bind at 1.
    by rewrite recipeSchema_parse_rejects.
  - intros Hrole Hvalid. unfold RecipePlugin.post_recipes.
    rewrite includes_true by done. cbn [negb]. apply Hhandle.
    unfold RecipeController.createRecipe, bind at 1.
    rewrite Hvalid. unfold bind. by rewrite client_createRecipe_never.
  - unfold RecipePlugin.post_recipes.
    destruct (negb _); [done|]. unfold RecipePlugin.handle. simpl.
    unfold RecipeController.createRecipe, bind at 1.
    unfold RecipeController.recipeSchema_parse.
    match goal with |- context [if ?c then _ else _] => destruct c end;
      [|done].
    unfold ret at 1, bind. by rewrite client_createRecipe_never.
Qed.

Lemma create_route_outcomes_household :
  RecipeController.recipeSchema_parse stew_input household
  = (Ok stew_input, household)
  ∧ RecipePlugin.post_recipes configSchema_defaults bob stew_input 7%nat household
    = (RecipePlugin.Handled (Err (PrismaError "P2010")), household).
Proof.
  split; [reflexivity|].
  apply (create_route_outcomes configSchema_defaults bob stew_input 7%nat
           household); [|reflexivity].
  simpl. apply list_elem_of_In. simpl. auto.
Defined.

(** X22. [POST /api/recipes/:id/rate] is not a route at all unless
    [features.ratings] is set.  When it is, for a stored recipe: a caller
    whose role is not in [roles.canRateRecipes] gets the 403 of the route; a
    caller with a listed role outside the recipe's family gets FORBIDDEN
    from the controller; a member of the family with a listed role and
    scores between 0 and 5 who has not rated the recipe before gets the
    error of the database, which rejects the [INSERT]; in these three
    cases nothing is written and the rating does not count as a use.  A
    member of the family with a listed role who has rated the recipe
    before and sends scores between 0 and 5 with at least one field gets
    the recipe back with a usage count higher by one, and the one rating
    row of the user is the old row with the payload merged over it. *)
Theorem rate_route_outcomes config user id data now s recipe :
  Store.recipes s !! id = Some recipe →
  (RecipePluginConfig.ratings (RecipePluginConfig.config_features config) = false →
   RecipePlugin.post_rate config = None)
  ∧ (RecipePluginConfig.ratings (RecipePluginConfig.config_features config) = true →
     ∃ route,
       RecipePlugin.post_rate config = Some route
       ∧ (UserContext.role user
            ∉ RecipePluginConfig.canRateRecipes
                (RecipePluginConfig.config_roles config) →
          route user id data now s
          = (RecipePlugin.Json403 "User not authorized to rate recipes", s))
       ∧ (UserContext.role user
            ∈ RecipePluginConfig.canRateRecipes
                (RecipePluginConfig.config_roles config) →
          Recipe.familyId recipe ≠ UserContext.familyId user →
          route user id data now s
          = (RecipePlugin.Handled
               (Err (RecipeError FORBIDDEN
                       "You do not have permission to rate this recipe")), s))
       ∧ (UserContext.role user
            ∈ RecipePluginConfig.canRateRecipes
                (RecipePluginConfig.config_roles config) →
          Recipe.familyId recipe = UserContext.familyId user →
          scores_in_range data →
          rating_rows s id (UserContext.id user) = [] →
          route user id data now s
          = (RecipePlugin.Handled (Err (PrismaError "P2010")), s))
       ∧ (∀ r0,
            UserContext.role user
              ∈ RecipePluginConfig.canRateRecipes
                  (RecipePluginConfig.config_roles config) →
            Recipe.familyId recipe = UserContext.familyId user →
            scores_in_range data →
            rating_rows s id (UserContext.id user) = [r0] →
            CustomPrismaClient.rating_has_set_clauses data = true →
            ∃ result s' rating,
              route user id data now s
              = (RecipePlugin.Handled (Ok (Some result)), s')
              ∧ Recipe.usageCount (RecipeResult.row result)
                = Recipe.usageCount recipe + 1
              ∧ rating_rows s' id (UserContext.id user) = [rating]
              ∧ payload_merged_over r0 data rating)).
Proof.
  intros Hr. split.
  - intros Hoff. unfold RecipePlugin.post_rate. by rewrite Hoff.
  - intros Hon. unfold RecipePlugin.post_rate. rewrite Hon.
    eexists. split; [reflexivity|]. cbv beta.
    split; [|split; [|split]].
    + intros Hrole. by rewrite includes_false.
    + intros Hrole Hfamily. rewrite includes_true by done. cbn [negb].
      destruct (findRecipeById_found s id recipe true Hr) as (found & Hfind & Hrow).
      assert (RecipeController.rateRecipe user id data now s
              = (Err (RecipeError FORBIDDEN
                        "You do not have permission to rate this recipe"), s))
        as Hcall.
      { unfold RecipeController.rateRecipe, bind at 1.
        rewrite Hfind, Hrow. by rewrite bool_decide_eq_false_2. }
      unfold RecipePlugin.handle. by rewrite Hcall.
    + intros Hrole Hfamily Hrange Hnone.
      rewrite includes_true by done. cbn [negb].
      unfold RecipePlugin.handle.
      by rewrite (controller_rateRecipe_first s id recipe user data now
                    Hr Hfamily Hrange Hnone).
    + intros r0 Hrole Hfamily Hrange Hone Hclauses.
      rewrite includes_true by done. cbn [negb].
      destruct (controller_rateRecipe_ok s id recipe user data now r0
                  Hr Hfamily Hrange Hone Hclauses)
        as (result & s' & rating & Hcall & _ & Hcount & _ & Hrows & Hmerged & _).
      exists result, s', rating. unfold RecipePlugin.handle.
      by rewrite Hcall.
Qed.

Lemma rate_route_outcomes_household :
  Store.recipes household !! "r1" = Some soup
  ∧ ∃ route,
      RecipePlugin.post_rate configSchema_defaults = Some route
      ∧ route mallory "r1" (scores (Some 5) None None) 7%nat household
        = (RecipePlugin.Handled
             (Err (RecipeError FORBIDDEN
                     "You do not have permission to rate this recipe")), household)
      ∧ ∃ result s' rating,
          route bob "r1" (scores (Some 2) None None) 7%nat household
          = (RecipePlugin.Handled (Ok (Some result)), s')
          ∧ Recipe.usageCount (RecipeResult.row result) = 4
          ∧ rating_rows s' "r1" "bob" = [rating]
          ∧ RecipeRating.nutrition rating = Some 2
          ∧ RecipeRating.flavor rating = Some 5.
Proof.
  split; [reflexivity|].
  destruct (rate_route_outcomes configSchema_defaults mallory "r1"
              (scores (Some 5) None None) 7%nat household soup eq_refl)
    as [_ Hon].
  destruct (Hon eq_refl) as (route & Hroute & _ & Hforbidden & _).
  exists route. split; [exact Hroute|]. split.
  - apply Hforbidden; [|done].
    simpl. apply list_elem_of_In. simpl. auto.
  - destruct (rate_route_outcomes configSchema_defaults bob "r1"
                (scores (Some 2) None None) 7%nat household soup eq_refl)
      as [_ Hon'].
    destruct (Hon' eq_refl) as (route' & Hroute' & _ & _ & _ & Hagain).
    rewrite Hroute in Hroute'. injection Hroute' as <-.
    destruct (Hagain (rating_by "g1" "bob" (Some 5) (Some 5) (Some 4)))
      as (result & s' & rating & Hcall & Hcount & Hrows & Hmerged).
    + simpl. apply list_elem_of_In. simpl. auto.
    + reflexivity.
    + by apply scores_in_range_scores.
    + reflexivity.
    + reflexivity.
    + exists result, s', rating. split; [exact Hcall|]. split; [exact Hcount|].
      split; [exact Hrows|]. destruct Hmerged as (Hn & Hf & _).
      split; [exact Hn|exact Hf].
Defined.

(** ** Counting and the metrics *)

Lemma filter_all {A} (p : A → bool) (l : list A) :
  (∀ x, p x = true) → List.filter p l = l.
Proof.
  intros Hp. induction l as [|x l IH]; [done|]. simpl. by rewrite Hp, IH.
Qed.

Lemma length_recipe_rows s :
  length (snd <$> map_to_list (Store.recipes s)) = size (Store.recipes s).
Proof. by rewrite length_fmap, length_map_to_list. Qed.

Lemma countRecipes_bounds where_ s :
  ∃ n,
    CustomPrismaClient.countRecipes where_ s = (Ok n, s)
    ∧ 0 ≤ n ≤ Z.of_nat (size (Store.recipes s)).
Proof.
  unfold CustomPrismaClient.countRecipes, bind, get_store, ret.
  eexists. split; [reflexivity|]. rewrite <- length_recipe_rows.
  split; [lia|]. apply Nat2Z.inj_le, filter_length_le.
Qed.

Lemma countRecipes_all s :
  CustomPrismaClient.countRecipes None s
  = (Ok (Z.of_nat (size (Store.recipes s))), s).
Proof.
  unfold CustomPrismaClient.countRecipes, bind, get_store, ret. simpl.
  by rewrite filter_all, length_recipe_rows.
Qed.

(** X23. [countRecipes] only reads.  Without a condition it returns the
    number of stored recipes, and no condition makes it return more.  For
    a user or family identifier that is not the empty string it returns
    the number of recipes [findRecipesByUser] and [findRecipesByFamily]
    list; a key that is falsy in JavaScript (an empty string, a minimum
    rating of 0) is no condition at all, so that the count is the one of
    all recipes. *)
Theorem countRecipes_agrees_with_the_listings s :
  (∀ where_, ∃ n,
     CustomPrismaClient.countRecipes where_ s = (Ok n, s)
     ∧ 0 ≤ n ≤ Z.of_nat (size (Store.recipes s)))
  ∧ CustomPrismaClient.countRecipes None s
    = (Ok (Z.of_nat (size (Store.recipes s))), s)
  ∧ (∀ userId includeDetails,
       userId ≠ "" →
       ∃ results,
         CustomPrismaClient.findRecipesByUser userId includeDetails s
         = (Ok results, s)
         ∧ CustomPrismaClient.countRecipes (Some (count_where_user userId)) s
           = (Ok (Z.of_nat (length results)), s))
  ∧ (∀ familyId includeDetails,
       familyId ≠ "" →
       ∃ results,
         CustomPrismaClient.findRecipesByFamily familyId includeDetails s
         = (Ok results, s)
         ∧ CustomPrismaClient.countRecipes (Some (count_where_family familyId)) s
           = (Ok (Z.of_nat (length results)), s))
  ∧ CustomPrismaClient.countRecipes
      (Some {| CustomPrismaClient.where_userId := Some "";
               CustomPrismaClient.where_familyId := Some "";
               CustomPrismaClient.where_difficulty := None;
               CustomPrismaClient.where_minRating := Some 0%Q |}) s
    = (Ok (Z.of_nat (size (Store.recipes s))), s).
Proof.
  split; [intros where_; apply countRecipes_bounds|].
  split; [apply countRecipes_all|].
  split; [|split].
  - intros userId includeDetails Hne.
    unfold CustomPrismaClient.findRecipesByUser, CustomPrismaClient.countRecipes,
      bind, get_store, ret.
    eexists. split; [reflexivity|]. rewrite length_fmap.
    unfold CustomPrismaClient.conditions, count_where_user, str_or_null. simpl.
    rewrite bool_decide_eq_false_2 by done. simpl.
    do 4 f_equal. apply List.filter_ext. intros r. apply andb_true_r.
  - intros familyId includeDetails Hne.
    unfold CustomPrismaClient.findRecipesByFamily, CustomPrismaClient.countRecipes,
      bind, get_store, ret.
    eexists. split; [reflexivity|]. rewrite length_fmap.
    unfold CustomPrismaClient.conditions, count_where_family, str_or_null. simpl.
    rewrite bool_decide_eq_false_2 by done. simpl.
    do 4 f_equal. apply List.filter_ext. intros r. apply andb_true_r.
  - rewrite <- countRecipes_all. reflexivity.
Qed.

Lemma countRecipes_agrees_with_the_listings_household :
  ∃ results,
    CustomPrismaClient.findRecipesByFamily "fam" true household
    = (Ok results, household)
    ∧ CustomPrismaClient.countRecipes (Some (count_where_family "fam")) household
      = (Ok (Z.of_nat (length results)), household).
Proof.
  destruct (countRecipes_agrees_with_the_listings household)
    as (_ & _ & _ & Hfamily & _).
  apply (Hfamily "fam" true). done.
Defined.

Lemma sql_avg_bounds lo hi (column : list (option Z)) q :
  Forall (λ v, lo ≤ v ≤ hi) (omap id column) →
  CustomPrismaClient.sql_avg column = Some q →
  (inject_Z lo <= q)%Q ∧ (q <= inject_Z hi)%Q.
Proof.
  intros Hbounds. unfold CustomPrismaClient.sql_avg.
  destruct (omap id column) as [|v values] eqn:Hvalues; [done|].
  intros [= <-]. by apply (mean_or_zero_bounds lo hi (v :: values)).
Qed.

Lemma metrics_score_bounds rr v :
  (∀ field w, rating_get rr field = Some w → 0 ≤ w ≤ 5) →
  RecipePlugin.metrics_score rr = Some v →
  0 ≤ v ≤ 5.
Proof.
  intros Hrange. unfold RecipePlugin.metrics_score.
  pose proof (Hrange nutrition) as Hn. pose proof (Hrange flavor) as Hf.
  pose proof (Hrange difficulty) as Hd. simpl in Hn, Hf, Hd.
  destruct (RecipeRating.nutrition rr) as [n|]; [|done].
  destruct (RecipeRating.flavor rr) as [f|]; [|done].
  destruct (RecipeRating.difficulty rr) as [d|]; [|done].
  intros [= <-]. specialize (Hn n eq_refl). specialize (Hf f eq_refl).
  specialize (Hd d eq_refl).
  rewrite Z.quot_div_nonneg by lia.
  split; [apply Z.div_pos; lia|]. apply Z.div_le_upper_bound; lia.
Qed.

(** X24. [updateMetrics] only reads.  [totalRecipes] is the number of
    stored recipes; [activeRecipes] is the number of recipes whose rating
    rows have a truncated mean score of at least 1 on average, so it lies
    between 0 and [totalRecipes]; [totalRatings] is that same number and
    not a count of rating rows.  [averageRating] is 0 when no rating row
    has all three scores, and lies between 0 and 5 when every stored score
    does. *)
Theorem updateMetrics_reports s :
  ∃ metrics,
    RecipePlugin.updateMetrics s = (Ok metrics, s)
    ∧ RecipePlugin.totalRecipes metrics = Z.of_nat (size (Store.recipes s))
    ∧ RecipePlugin.activeRecipes metrics
      = Z.of_nat (length
          (List.filter
             (λ r, CustomPrismaClient.sql_ge
                     (CustomPrismaClient.rating_subquery s (Recipe.id r)) 1%Q)
             (snd <$> map_to_list (Store.recipes s))))
    ∧ 0 ≤ RecipePlugin.activeRecipes metrics ≤ RecipePlugin.totalRecipes metrics
    ∧ RecipePlugin.totalRatings metrics = RecipePlugin.activeRecipes metrics
    ∧ (Forall (λ rr, RecipePlugin.metrics_score rr = None) (Store.ratings s) →
       RecipePlugin.averageRating metrics = 0%Q)
    ∧ (Forall (λ rr, ∀ field v, rating_get rr field = Some v → 0 ≤ v ≤ 5)
              (Store.ratings s) →
       (0 <= RecipePlugin.averageRating metrics)%Q
       ∧ (RecipePlugin.averageRating metrics <= 5)%Q).
Proof.
  unfold RecipePlugin.updateMetrics. unfold bind at 1.
  rewrite countRecipes_all. unfold bind at 1.
  fold (count_where_minRating 1%Q).
  rewrite countRecipes_minRating_rule by reflexivity.
  unfold bind, get_store, ret. eexists. split; [reflexivity|]. simpl.
  split; [done|]. split; [done|].
  split.
  { rewrite <- length_recipe_rows. split; [lia|].
    apply Nat2Z.inj_le, filter_length_le. }
  split; [done|]. split.
  - intros Hnone. unfold CustomPrismaClient.sql_avg.
    assert (omap id (RecipePlugin.metrics_score
                     <$> List.filter RecipePlugin.has_a_score (Store.ratings s))
            = []) as ->; [|done].
    induction Hnone as [|rr ratings Hrr _ IH]; [done|]. simpl.
    destruct (RecipePlugin.has_a_score rr); [|exact IH].
    simpl. rewrite Hrr. exact IH.
  - intros Hrange. unfold RecipePlugin.avg_or_zero.
    destruct (CustomPrismaClient.sql_avg _) as [q|] eqn:Havg; [|done].
    destruct (Qeq_bool q 0); [done|].
    apply (sql_avg_bounds 0 5) in Havg; [exact Havg|].
    apply Forall_forall. intros v Hv.
    apply list_elem_of_omap in Hv as (score & Hscore & Hv). cbv [id] in Hv.
    subst score.
    apply list_elem_of_fmap in Hscore as (rr & Hrr & Hin). symmetry in Hrr.
    apply elem_of_List_filter in Hin as [Hin _].
    rewrite Forall_forall in Hrange.
    by apply (metrics_score_bounds rr v (Hrange rr Hin)).
Qed.

Lemma updateMetrics_reports_household :
  Forall (λ rr, ∀ field v, rating_get rr field = Some v → 0 ≤ v ≤ 5)
         (Store.ratings household)
  ∧ length (Store.ratings household) = 2%nat
  ∧ ∃ metrics,
      RecipePlugin.updateMetrics household = (Ok metrics, household)
      ∧ RecipePlugin.totalRatings metrics = RecipePlugin.activeRecipes metrics
      ∧ (RecipePlugin.averageRating metrics <= 5)%Q.
Proof.
  assert (Forall (λ rr, ∀ field v, rating_get rr field = Some v → 0 ≤ v ≤ 5)
                 (Store.ratings household)) as Hrange.
  { unfold household. simpl.
    repeat (apply Forall_cons; split; [intros [] v; simpl; intros [= <-]; lia|]).
    apply Forall_nil. done. }
  split; [exact Hrange|]. split; [reflexivity|].
  destruct (updateMetrics_reports household)
    as (metrics & Hcall & _ & _ & _ & Hsame & _ & Hbounds).
  exists metrics. split; [exact Hcall|]. split; [exact Hsame|].
  apply (Hbounds Hrange).
Defined.

(** ** The constraints of the schema are kept *)

Lemma keeps_ret {A} P (a : A) : keeps P (ret a).
Proof. by intros s Hs. Qed.

Lemma keeps_throw {A} P e : keeps P (@throw A e).
Proof. by intros s Hs. Qed.

Lemma keeps_bind {A B} P (m : DB A) (k : A → DB B) :
  keeps P m → (∀ a, keeps P (k a)) → keeps P (bind m k).
Proof.
  intros Hm Hk s Hs. unfold bind. specialize (Hm s Hs).
  destruct (m s) as [[a|e] s1]; [by apply Hk|done].
Qed.

Lemma keeps_read {A} P (k : Store.t → DB A) :
  (∀ s, P s → P (snd (k s s))) → keeps P (bind get_store k).
Proof. intros Hk s Hs. by apply Hk. Qed.

Lemma keeps_transaction {A} P (body : DB A) :
  keeps P body → keeps P (transaction body).
Proof.
  intros Hbody s Hs. unfold transaction. specialize (Hbody s Hs).
  by destruct (body s) as [[a|e] s1].
Qed.

Lemma keeps_for_of {A} P (l : list A) (body : A → DB unit) :
  (∀ x, keeps P (body x)) → keeps P (for_of l body).
Proof.
  intros Hbody. induction l as [|x l IH]; [apply keeps_ret|].
  simpl. apply keeps_bind; [apply Hbody|]. intros _. exact IH.
Qed.

Lemma Forall_List_filter {A} (P : A → Prop) (p : A → bool) (l : list A) :
  Forall P l → Forall (λ x, P x ∧ p x = true) (List.filter p l).
Proof.
  rewrite !Forall_forall. intros Hl x [Hin Hp]%elem_of_List_filter. auto.
Qed.

Lemma keeps_insert_recipe id recipe :
  Recipe.id recipe = id →
  keeps store_consistent (modify (Store.with_recipes (insert id recipe))).
Proof.
  intros Hid s (Hkeys & Hingredients & Hratings).
  unfold modify, store_consistent. simpl.
  assert (∀ k, is_Some (Store.recipes s !! k)
               → is_Some (<[id:=recipe]> (Store.recipes s) !! k)) as Hgrow.
  { intros k Hk. apply lookup_insert_is_Some'. by right. }
  split; [|split].
  - intros k r [[<- <-] | [_ Hr]]%lookup_insert_Some; [done|]. by apply Hkeys.
  - simpl. eapply Forall_impl; [exact Hingredients|]. simpl.
    intros ri [Hr Hi]. split; [by apply Hgrow|done].
  - simpl. eapply Forall_impl; [exact Hratings|]. simpl.
    intros rr Hr. by apply Hgrow.
Qed.

Lemma keeps_alter_recipe (f : Recipe.t → Recipe.t) id :
  (∀ recipe, Recipe.id (f recipe) = Recipe.id recipe) →
  keeps store_consistent (modify (Store.with_recipes (alter f id))).
Proof.
  intros Hf s (Hkeys & Hingredients & Hratings).
  unfold modify, store_consistent. simpl.
  split; [|split].
  - intros k r [[<- (r0 & Hr0 & ->)] | [_ Hr]]%lookup_alter_Some.
    + rewrite Hf. by apply Hkeys.
    + by apply Hkeys.
  - simpl. eapply Forall_impl; [exact Hingredients|]. simpl.
    intros ri [Hr Hi]. split; [by apply lookup_alter_is_Some|done].
  - simpl. eapply Forall_impl; [exact Hratings|]. simpl.
    intros rr Hr. by apply lookup_alter_is_Some.
Qed.

Lemma keeps_insert_ingredient error recipeId ingredient notes now :
  keeps store_consistent (insert_ingredient error recipeId ingredient notes now).
Proof.
  unfold insert_ingredient. apply keeps_read.
  intros s (Hkeys & Hingredients & Hratings).
  destruct (bool_decide (is_Some (Store.recipes s !! recipeId))) eqn:Hr;
    [|done].
  destruct (bool_decide (is_Some (Store.items s !! IngredientInput.itemId ingredient)))
    eqn:Hi; [|done].
  apply bool_decide_eq_true in Hr, Hi. unfold modify, store_consistent. simpl.
  split; [done|]. split; [|done].
  apply Forall_app. split; [done|]. by repeat constructor.
Qed.

Lemma keeps_delete_ingredients recipeId :
  keeps store_consistent (delete_ingredients recipeId).
Proof.
  intros s (Hkeys & Hingredients & Hratings).
  unfold delete_ingredients, modify, store_consistent.
  simpl. split; [done|]. split; [|done].
  eapply Forall_impl; [by apply Forall_List_filter|]. simpl. tauto.
Qed.

Lemma keeps_delete_recipe_cascade id :
  keeps store_consistent (delete_recipe_cascade id).
Proof.
  intros s (Hkeys & Hingredients & Hratings).
  unfold delete_recipe_cascade, modify, store_consistent.
  simpl. split; [|split].
  - intros k r [_ Hr]%lookup_delete_Some. by apply Hkeys.
  - eapply Forall_impl; [by apply Forall_List_filter|]. simpl.
    intros ri [[Hr Hi] Hne]. split; [|done].
    apply lookup_delete_is_Some. split; [|done].
    apply negb_true_iff, bool_decide_eq_false in Hne. congruence.
  - eapply Forall_impl; [by apply Forall_List_filter|]. simpl.
    intros rr [Hr Hne].
    apply lookup_delete_is_Some. split; [|done].
    apply negb_true_iff, bool_decide_eq_false in Hne. congruence.
Qed.

Lemma keeps_update_ratings_where recipeId userId (f : RecipeRating.t → RecipeRating.t) :
  (∀ rr, RecipeRating.recipeId (f rr) = RecipeRating.recipeId rr) →
  keeps store_consistent (CustomPrismaClient.update_ratings_where recipeId userId f).
Proof.
  intros Hf s (Hkeys & Hingredients & Hratings).
  unfold CustomPrismaClient.update_ratings_where, modify, store_consistent. simpl.
  split; [done|]. split; [done|].
  induction Hratings as [|rr rows Hrr _ IH]; [constructor|].
  simpl. constructor; [|exact IH].
  destruct (is_rating_of recipeId userId rr); [by rewrite Hf|done].
Qed.

Lemma keeps_append_rating s (row : RecipeRating.t) :
  store_consistent s →
  is_Some (Store.recipes s !! RecipeRating.recipeId row) →
  store_consistent (Store.with_ratings (λ rows, rows ++ [row]) s).
Proof.
  intros (Hkeys & Hingredients & Hratings) Hrow.
  unfold store_consistent. simpl. split; [done|]. split; [done|].
  apply Forall_app. split; [done|]. by repeat constructor.
Qed.

Lemma keeps_findRecipeById id includeDetails :
  keeps store_consistent (CustomPrismaClient.findRecipeById id includeDetails).
Proof.
  intros s Hs.
  destruct (findRecipeById_reads id includeDetails s) as [result ->]. done.
Qed.

Lemma keeps_recipe_findUnique id :
  keeps store_consistent (db.recipe_findUnique id).
Proof. by intros s Hs. Qed.

Lemma keeps_insert_loop error recipeId
    (notes : IngredientInput.t → option string) now l :
  keeps store_consistent
    (for_of l (λ ingredient,
       insert_ingredient error recipeId ingredient (notes ingredient) now)).
Proof. apply keeps_for_of. intros i. apply keeps_insert_ingredient. Qed.

Lemma keeps_calling {A} P name (statement : DB A) :
  keeps P statement → keeps P (CustomPrismaClient.calling name statement).
Proof.
  intros Hstatement. unfold CustomPrismaClient.calling.
  destruct (bool_decide _); [exact Hstatement|apply keeps_throw].
Qed.

Lemma keeps_client_createRecipe userId familyId data now :
  keeps store_consistent
    (CustomPrismaClient.createRecipe userId familyId data now).
Proof.
  unfold CustomPrismaClient.createRecipe.
  apply keeps_transaction, keeps_bind.
  - apply keeps_calling, keeps_read. intros s Hs.
    apply keeps_bind; [by apply keeps_insert_recipe| |exact Hs].
    intros _. apply keeps_ret.
  - intros recipe. apply keeps_bind.
    + apply keeps_for_of. intros i.
      apply keeps_calling, keeps_insert_ingredient.
    + intros _. apply keeps_findRecipeById.
Qed.

Lemma keeps_client_updateRecipe id data now :
  keeps store_consistent (CustomPrismaClient.updateRecipe id data now).
Proof.
  unfold CustomPrismaClient.updateRecipe.
  apply keeps_transaction, keeps_bind.
  { destruct (CustomPrismaClient.has_set_clauses data); [|apply keeps_ret].
    by apply keeps_alter_recipe. }
  intros _. apply keeps_bind.
  { destruct (UpdateRecipeInput.ingredients data) as [ingredients|];
      [|apply keeps_ret].
    apply keeps_bind; [apply keeps_delete_ingredients|]. intros _.
    apply keeps_for_of. intros i.
    apply keeps_calling, keeps_insert_ingredient. }
  intros _. apply keeps_bind; [apply keeps_findRecipeById|].
  intros [recipe|]; [apply keeps_ret|apply keeps_throw].
Qed.

Lemma keeps_client_deleteRecipe id :
  keeps store_consistent (CustomPrismaClient.deleteRecipe id).
Proof.
  unfold CustomPrismaClient.deleteRecipe.
  apply keeps_bind; [apply keeps_findRecipeById|].
  intros [recipe|]; [|apply keeps_throw].
  apply keeps_bind; [apply keeps_delete_recipe_cascade|].
  intros _. apply keeps_ret.
Qed.

Lemma keeps_client_rateRecipe recipeId userId data now :
  keeps store_consistent (CustomPrismaClient.rateRecipe recipeId userId data now).
Proof.
  unfold CustomPrismaClient.rateRecipe. apply keeps_read. intros s Hs.
  destruct (0 <? length _)%nat.
  - destruct (CustomPrismaClient.rating_has_set_clauses data); [|done].
    by apply keeps_update_ratings_where.
  - by rewrite calling_uuid_generate_v4.
Qed.

Lemma keeps_client_incrementUsageCount id now :
  keeps store_consistent (CustomPrismaClient.incrementUsageCount id now).
Proof. unfold CustomPrismaClient.incrementUsageCount. by apply keeps_alter_recipe. Qed.

(** X25. The constraints of the schema hold after every write of the raw
    SQL access path and of the handlers built on it, whatever the
    arguments and whether the operation returns or throws: a recipe stays
    stored under its own identifier, no ingredient row is left whose
    recipe or item is missing, and no rating row is left whose recipe is
    missing. *)
Theorem client_writes_keep_the_store_consistent :
  (∀ userId familyId data now,
     keeps store_consistent
       (CustomPrismaClient.createRecipe userId familyId data now))
  ∧ (∀ id data now,
       keeps store_consistent (CustomPrismaClient.updateRecipe id data now))
  ∧ (∀ id, keeps store_consistent (CustomPrismaClient.deleteRecipe id))
  ∧ (∀ recipeId userId data now,
       keeps store_consistent
         (CustomPrismaClient.rateRecipe recipeId userId data now))
  ∧ (∀ id now,
       keeps store_consistent (CustomPrismaClient.incrementUsageCount id now))
  ∧ (∀ user data now,
       keeps store_consistent (RecipeController.createRecipe user data now))
  ∧ (∀ user id data now,
       keeps store_consistent (RecipeController.updateRecipe user id data now))
  ∧ (∀ user id, keeps store_consistent (RecipeController.deleteRecipe user id))
  ∧ (∀ user id data now,
       keeps store_consistent (RecipeController.rateRecipe user id data now)).
Proof.
  split; [exact keeps_client_createRecipe|].
  split; [exact keeps_client_updateRecipe|].
  split; [exact keeps_client_deleteRecipe|].
  split; [exact keeps_client_rateRecipe|].
  split; [exact keeps_client_incrementUsageCount|].
  split; [|split; [|split]].
  - intros user data now. unfold RecipeController.createRecipe.
    apply keeps_bind.
    { unfold RecipeController.recipeSchema_parse.
      match goal with |- context [if ?c then _ else _] => destruct c end;
        [apply keeps_ret|apply keeps_throw]. }
    intros validatedData. apply keeps_bind; [apply keeps_client_createRecipe|].
    intros recipe. apply keeps_ret.
  - intros user id data now. unfold RecipeController.updateRecipe.
    apply keeps_bind; [apply keeps_findRecipeById|].
    intros [existingRecipe|]; [|apply keeps_throw].
    match goal with |- context [if ?c then _ else _] => destruct c end;
      [apply keeps_throw|].
    apply keeps_bind.
    { unfold RecipeController.recipeSchema_partial_parse.
      match goal with |- context [if ?c then _ else _] => destruct c end;
        [apply keeps_ret|apply keeps_throw]. }
    intros validatedData. apply keeps_bind; [apply keeps_client_updateRecipe|].
    intros recipe. apply keeps_ret.
  - intros user id. unfold RecipeController.deleteRecipe.
    apply keeps_bind; [apply keeps_findRecipeById|].
    intros [recipe|]; [|apply keeps_throw].
    match goal with |- context [if ?c then _ else _] => destruct c end;
      [apply keeps_throw|].
    apply keeps_bind; [apply keeps_client_deleteRecipe|].
    intros _. apply keeps_ret.
  - intros user id data now. unfold RecipeController.rateRecipe.
    apply keeps_bind; [apply keeps_findRecipeById|].
    intros [recipe|]; [|apply keeps_throw].
    match goal with |- context [if ?c then _ else _] => destruct c end;
      [apply keeps_throw|].
    apply keeps_bind.
    { unfold RecipeController.ratingSchema_parse.
      match goal with |- context [if ?c then _ else _] => destruct c end;
        [apply keeps_ret|apply keeps_throw]. }
    intros validatedData. apply keeps_bind; [apply keeps_client_rateRecipe|].
    intros _. apply keeps_bind; [apply keeps_client_incrementUsageCount|].
    intros _. apply keeps_bind; [apply keeps_findRecipeById|].
    intros updatedRecipe. apply keeps_ret.
Qed.

Lemma store_consistent_household : store_consistent household.
Proof.
  unfold store_consistent, household. simpl. split; [|split].
  - intros id recipe [<- <-]%lookup_singleton_Some. reflexivity.
  - repeat constructor; [by exists soup | by exists "Carrot"].
  - repeat constructor; by exists soup.
Qed.

Lemma client_writes_keep_the_store_consistent_household :
  store_consistent household
  ∧ store_consistent
      (snd (RecipeController.rateRecipe bob "r1" (scores (Some 5) None None)
              7%nat household))
  ∧ store_consistent (snd (CustomPrismaClient.deleteRecipe "r1" household)).
Proof.
  destruct client_writes_keep_the_store_consistent
    as (_ & _ & Hdelete & _ & _ & _ & _ & _ & Hrate).
  split; [exact store_consistent_household|]. split.
  - apply Hrate, store_consistent_household.
  - apply Hdelete, store_consistent_household.
Defined.

Lemma keeps_recipe_create data now :
  keeps store_consistent (db.recipe_create data now).
Proof.
  unfold db.recipe_create.
  apply keeps_transaction, keeps_read. intros s Hs.
  apply keeps_bind; [by apply keeps_insert_recipe| |exact Hs].
  intros _. apply keeps_bind.
  - apply (keeps_insert_loop _ _ IngredientInput.notes).
  - intros _. apply keeps_read. by intros s1 Hs1.
Qed.

Lemma keeps_recipeIngredient_createMany data now :
  keeps store_consistent (db.recipeIngredient_createMany data now).
Proof.
  unfold db.recipeIngredient_createMany.
  apply keeps_transaction, keeps_for_of. intros [recipeId ingredient].
  apply keeps_insert_ingredient.
Qed.

Lemma keeps_recipe_update id data now :
  keeps store_consistent (db.recipe_update id data now).
Proof.
  unfold db.recipe_update. apply keeps_read. intros s Hs.
  destruct (Store.recipes s !! id) as [recipe|] eqn:Hr; [|done].
  apply keeps_bind; [| |exact Hs].
  - apply keeps_insert_recipe. simpl. by apply Hs.
  - intros _. apply keeps_ret.
Qed.

Lemma keeps_recipe_update_increment id now :
  keeps store_consistent (db.recipe_update_increment id now).
Proof.
  unfold db.recipe_update_increment. apply keeps_read. intros s Hs.
  destruct (Store.recipes s !! id); [|done].
  by apply keeps_client_incrementUsageCount.
Qed.

Lemma keeps_recipe_delete id : keeps store_consistent (db.recipe_delete id).
Proof.
  unfold db.recipe_delete. apply keeps_read. intros s Hs.
  destruct (Store.recipes s !! id); [|done].
  by apply keeps_delete_recipe_cascade.
Qed.

Lemma keeps_recipeRating_upsert recipeId userId update create now :
  keeps store_consistent
    (db.recipeRating_upsert recipeId userId update create now).
Proof.
  unfold db.recipeRating_upsert. apply keeps_read. intros s Hs.
  destruct (existsb _ _).
  - by apply keeps_update_ratings_where.
  - destruct (bool_decide (is_Some (Store.recipes s !! recipeId))) eqn:Hr;
      [|done].
    apply bool_decide_eq_true in Hr. unfold modify. simpl.
    by apply keeps_append_rating.
Qed.

(** X26. The constraints of the schema hold after every write of
    [RecipeService] as well, whatever the arguments and whether the method
    returns or throws: also when [createRecipe] fails after it has stored
    the recipe, or when [updateRecipe] fails after it has deleted the
    ingredients, what is left is a recipe stored under its own identifier
    and rows that refer to stored recipes and existing items. *)
Theorem service_writes_keep_the_store_consistent :
  (∀ userId familyId input now,
     keeps store_consistent (RecipeService.createRecipe userId familyId input now))
  ∧ (∀ recipeId userId input now,
       keeps store_consistent (RecipeService.updateRecipe recipeId userId input now))
  ∧ (∀ recipeId userId,
       keeps store_consistent (RecipeService.deleteRecipe recipeId userId))
  ∧ (∀ recipeId userId input now,
       keeps store_consistent (RecipeService.rateRecipe recipeId userId input now))
  ∧ (∀ recipeId now,
       keeps store_consistent (RecipeService.incrementUsageCount recipeId now))
  ∧ (∀ originalRecipeId userId familyId now,
       keeps store_consistent
         (RecipeService.cloneRecipe originalRecipeId userId familyId now)).
Proof.
  split; [|split; [|split; [|split; [|split]]]].
  - intros userId familyId input now. unfold RecipeService.createRecipe.
    apply keeps_bind; [apply keeps_recipe_create|]. intros created.
    apply keeps_bind.
    { destruct (0 <? _)%nat; [apply keeps_recipeIngredient_createMany|].
      apply keeps_ret. }
    intros _. apply keeps_bind; [apply keeps_recipe_findUnique|].
    intros [recipe|]; [apply keeps_ret|apply keeps_throw].
  - intros recipeId userId input now. unfold RecipeService.updateRecipe.
    apply keeps_bind; [apply keeps_recipe_findUnique|].
    intros [existingRecipe|]; [|apply keeps_throw].
    destruct (negb _); [apply keeps_throw|].
    apply keeps_bind.
    { destruct (UpdateRecipeInput.ingredients input) as [ingredients|];
        [|apply keeps_ret].
      apply keeps_bind; [apply keeps_delete_ingredients|]. intros _.
      apply keeps_recipeIngredient_createMany. }
    intros _. apply keeps_bind; [apply keeps_recipe_update|].
    intros updated. apply keeps_ret.
  - intros recipeId userId. unfold RecipeService.deleteRecipe.
    apply keeps_bind; [apply keeps_recipe_findUnique|].
    intros [existingRecipe|]; [|apply keeps_throw].
    destruct (negb _); [apply keeps_throw|apply keeps_recipe_delete].
  - intros recipeId userId input now. unfold RecipeService.rateRecipe.
    apply keeps_bind; [apply keeps_recipe_findUnique|].
    intros [existingRecipe|]; [|apply keeps_throw].
    apply keeps_recipeRating_upsert.
  - intros recipeId now. apply keeps_recipe_update_increment.
  - intros originalRecipeId userId familyId now.
    unfold RecipeService.cloneRecipe.
    apply keeps_bind; [apply keeps_recipe_findUnique|].
    intros [[recipeData originalIngredients]|]; [|apply keeps_throw].
    apply keeps_bind; [apply keeps_recipe_create|].
    intros clonedRecipe. apply keeps_ret.
Qed.

Lemma service_writes_keep_the_store_consistent_household :
  store_consistent household
  ∧ store_consistent
      (snd (RecipeService.createRecipe "bob" "fam" salad_input 7%nat household))
  ∧ store_consistent
      (snd (RecipeService.cloneRecipe "r1" "bob" "fam" 7%nat household)).
Proof.
  destruct service_writes_keep_the_store_consistent
    as (Hcreate & _ & _ & _ & _ & Hclone).
  split; [exact store_consistent_household|]. split.
  - apply Hcreate, store_consistent_household.
  - apply Hclone, store_consistent_household.
Defined.

(** ** The listings and the single read *)

(** X27. In a store that meets the constraints of the schema, every
    element of [findRecipesByUser] and of [findRecipesByFamily] is exactly
    what [findRecipeById] returns for its identifier, with the same
    [includeDetails]: the listings and the single read never disagree
    about a recipe, its ingredients, its ratings or its averages. *)
Theorem listings_agree_with_findRecipeById s includeDetails :
  store_consistent s →
  (∀ userId results result,
     CustomPrismaClient.findRecipesByUser userId includeDetails s
     = (Ok results, s) →
     result ∈ results →
     Recipe.userId (RecipeResult.row result) = userId
     ∧ CustomPrismaClient.findRecipeById
         (Recipe.id (RecipeResult.row result)) includeDetails s
       = (Ok (Some result), s))
  ∧ (∀ familyId results result,
       CustomPrismaClient.findRecipesByFamily familyId includeDetails s
       = (Ok results, s) →
       result ∈ results →
       Recipe.familyId (RecipeResult.row result) = familyId
       ∧ CustomPrismaClient.findRecipeById
           (Recipe.id (RecipeResult.row result)) includeDetails s
         = (Ok (Some result), s)).
Proof.
  intros (Hkeys & _).
  assert (∀ recipe,
            recipe ∈ (snd <$> map_to_list (Store.recipes s)) →
            CustomPrismaClient.findRecipeById (Recipe.id recipe) includeDetails s
            = (Ok (Some (CustomPrismaClient.recipe_result s includeDetails recipe)),
               s)) as Hsame.
  { intros recipe [id Hid]%elem_of_recipe_rows.
    rewrite (Hkeys id recipe Hid).
    unfold CustomPrismaClient.findRecipeById, CustomPrismaClient.recipe_result,
      bind, get_store, ret.
    rewrite Hid, (Hkeys id recipe Hid). by destruct includeDetails. }
  split.
  - intros userId results result.
    unfold CustomPrismaClient.findRecipesByUser, bind, get_store, ret.
    intros [= <-] (recipe & -> & Hin)%list_elem_of_fmap.
    apply elem_of_List_filter in Hin as [Hin Huser].
    apply bool_decide_eq_true in Huser.
    split; [by destruct includeDetails|].
    assert (RecipeResult.row (CustomPrismaClient.recipe_result s includeDetails recipe)
            = recipe) as -> by done.
    by apply Hsame.
  - intros familyId results result.
    unfold CustomPrismaClient.findRecipesByFamily, bind, get_store, ret.
    intros [= <-] (recipe & -> & Hin)%list_elem_of_fmap.
    apply elem_of_List_filter in Hin as [Hin Hfamily].
    apply bool_decide_eq_true in Hfamily.
    split; [by destruct includeDetails|].
    assert (RecipeResult.row (CustomPrismaClient.recipe_result s includeDetails recipe)
            = recipe) as -> by done.
    by apply Hsame.
Qed.

Lemma listings_agree_with_findRecipeById_household :
  store_consistent household
  ∧ ∀ results result,
      CustomPrismaClient.findRecipesByFamily "fam" true household
      = (Ok results, household) →
      result ∈ results →
      CustomPrismaClient.findRecipeById (Recipe.id (RecipeResult.row result))
        true household
      = (Ok (Some result), household).
Proof.
  split; [exact store_consistent_household|].
  intros results result Hcall Hin.
  destruct (listings_agree_with_findRecipeById household true
              store_consistent_household) as [_ Hfamily].
  by destruct (Hfamily "fam" results result Hcall Hin).
Defined.

(** ** Cloning and deleting the clone *)

Lemma filter_keeps_all {A} (p : A → bool) (l : list A) :
  (∀ x, x ∈ l → p x = true) → List.filter p l = l.
Proof.
  induction l as [|x l IH]; intros Hp; simpl; [done|].
  rewrite (Hp x) by apply list_elem_of_here.
  f_equal. apply IH. intros y Hy. apply Hp. by apply list_elem_of_further.
Qed.

(** X28. In a store that meets the constraints of the schema, cloning a
    stored recipe always succeeds, under an identifier other than the
    original's, and leaves the original and its ingredient rows as they
    were; when the user the clone was made for then deletes the clone, the
    store is exactly what it was before the clone was made. *)
Theorem clone_then_delete_restores_the_store s id recipe userId familyId now :
  store_consistent s →
  Store.recipes s !! id = Some recipe →
  ∃ clone rows s1,
    RecipeService.cloneRecipe id userId familyId now s = (Ok (clone, rows), s1)
    ∧ Recipe.id clone ≠ id
    ∧ Store.recipes s1 !! id = Some recipe
    ∧ ingredients_of s1 id = ingredients_of s id
    ∧ length rows = length (ingredients_of s id)
    ∧ RecipeService.deleteRecipe (Recipe.id clone) userId s1 = (Ok tt, s).
Proof.
  intros (Hkeys & Hingredients & Hratings) Hr.
  unfold RecipeService.cloneRecipe, bind at 1.
  rewrite (recipe_findUnique_found s id recipe Hr).
  match goal with
  | |- context [db.recipe_create ?data now] =>
      destruct (recipe_create_ok data now s)
        as (clone & rows & Hcreate & Hclone & Hdata & Hrows & _)
  end.
  { simpl. apply Forall_fmap, Forall_forall. intros ri Hri. simpl.
    apply elem_of_List_filter in Hri as [Hri _].
    rewrite Forall_forall in Hingredients. by apply Hingredients. }
  unfold bind, ret. rewrite Hcreate.
  assert (Recipe.id clone = uuid s) as Hid by (by rewrite Hclone).
  assert (Recipe.userId clone = userId) as Huser by (by rewrite Hclone).
  assert (uuid s ≠ id) as Hne.
  { intros Heq. pose proof (uuid_not_a_recipe s) as Hnone. congruence. }
  assert (Forall (λ row, RecipeIngredient.recipeId row = uuid s) rows)
    as Hrid by (eapply Forall_impl; [exact Hrows|]; simpl; tauto).
  set (s1 := Store.with_ingredients (λ old, old ++ rows)
               (Store.with_recipes (insert (uuid s) clone) s)).
  exists clone, rows, s1.
  split; [done|]. split; [by rewrite Hid|].
  split; [subst s1; simpl; by rewrite lookup_insert_ne|].
  split.
  { unfold ingredients_of, s1. simpl. rewrite List.filter_app.
    rewrite (filter_recipeId_none (uuid s) id rows) by done.
    apply app_nil_r. }
  split.
  { rewrite <- (length_fmap RecipeService.ingredientData rows), Hdata. simpl.
    by rewrite length_fmap. }
  assert (Store.recipes s1 !! uuid s = Some clone) as Hstored
    by apply lookup_insert_eq.
  unfold RecipeService.deleteRecipe, bind at 1. rewrite Hid.
  rewrite (recipe_findUnique_found s1 _ clone Hstored). cbn [fst].
  rewrite bool_decide_eq_true_2 by done. cbn [negb].
  unfold db.recipe_delete, bind, get_store. rewrite Hstored.
  unfold delete_recipe_cascade, modify. f_equal.
  etransitivity; [|apply store_eta]. subst s1. simpl. f_equal.
  - rewrite delete_insert_eq. apply delete_id, uuid_not_a_recipe.
  - rewrite List.filter_app.
    rewrite (filter_none _ rows), app_nil_r.
    + apply filter_keeps_all. intros ri Hri.
      apply negb_true_iff, bool_decide_eq_false_2. intros Heq.
      rewrite Forall_forall in Hingredients.
      destruct (Hingredients ri Hri) as [Hsome _].
      rewrite Heq, uuid_not_a_recipe in Hsome. by destruct Hsome.
    + intros row Hrow. rewrite Forall_forall in Hrid.
      apply negb_false_iff, bool_decide_eq_true_2. by apply Hrid.
  - apply filter_keeps_all. intros rr Hrr.
    apply negb_true_iff, bool_decide_eq_false_2. intros Heq.
    rewrite Forall_forall in Hratings.
    pose proof (Hratings rr Hrr) as Hsome.
    rewrite Heq, uuid_not_a_recipe in Hsome. by destruct Hsome.
Qed.

Lemma clone_then_delete_restores_the_store_household :
  store_consistent household
  ∧ Store.recipes household !! "r1" = Some soup
  ∧ ∃ clone rows s1,
      RecipeService.cloneRecipe "r1" "bob" "fam" 7%nat household
      = (Ok (clone, rows), s1)
      ∧ RecipeService.deleteRecipe (Recipe.id clone) "bob" s1 = (Ok tt, household).
Proof.
  split; [exact store_consistent_household|]. split; [reflexivity|].
  destruct (clone_then_delete_restores_the_store household "r1" soup "bob" "fam"
              7%nat store_consistent_household eq_refl)
    as (clone & rows & s1 & Hclone & _ & _ & _ & _ & Hdelete).
  exists clone, rows, s1. auto.
Defined.

(** X29. In a store that meets the constraints of the schema, every
    element of [listRecipes], under every filter, belongs to the family
    asked for and is exactly what [getRecipe] returns for its identifier:
    the same recipe, ingredients with their item names, ratings and
    averages. *)
Theorem listRecipes_agrees_with_getRecipe contains s familyId filters
    results result :
  store_consistent s →
  RecipeService.listRecipes contains familyId filters s = (Ok results, s) →
  result ∈ results →
  Recipe.familyId (RecipeWithDetails.recipe result) = familyId
  ∧ RecipeService.getRecipe (Recipe.id (RecipeWithDetails.recipe result)) s
    = (Ok (Some result), s).
Proof.
  intros (Hkeys & _) Hlist Hin.
  destruct (listRecipes_unfold contains familyId filters s)
    as (recipes & Hfind & Hunfold).
  rewrite Hunfold in Hlist. injection Hlist as <-.
  assert (result ∈ (RecipeService.with_averages <$> recipes)) as Hresult.
  { destruct (negb _); [done|]. by apply elem_of_List_filter in Hin as [Hin _]. }
  apply list_elem_of_fmap in Hresult as (found & -> & Hfound).
  destruct (recipe_findMany_spec contains
              (RecipeService.where_of familyId filters) s)
    as (recipes' & Hfind' & Hspec).
  rewrite Hfind in Hfind'. injection Hfind' as <-.
  apply Hspec in Hfound as (id & recipe & Hid & Hmatch & ->).
  unfold RecipeService.with_averages. simpl. split.
  - unfold db.matches in Hmatch. rewrite !andb_true_iff in Hmatch.
    destruct Hmatch as (((((Hfamily & _) & _) & _) & _) & _).
    by apply bool_decide_eq_true in Hfamily.
  - unfold RecipeService.getRecipe, bind, get_store, ret.
    by rewrite (Hkeys id recipe Hid), Hid.
Qed.

Lemma listRecipes_agrees_with_getRecipe_household :
  store_consistent household
  ∧ ∃ results result,
      RecipeService.listRecipes substring_of "fam" None household
      = (Ok results, household)
      ∧ result ∈ results
      ∧ RecipeService.getRecipe (Recipe.id (RecipeWithDetails.recipe result))
          household
        = (Ok (Some result), household).
Proof.
  split; [exact store_consistent_household|].
  destruct (listRecipes_unfold substring_of "fam" None household)
    as (recipes & Hfind & Hlist).
  injection Hfind as <-. simpl in Hlist.
  eexists _, _. split; [exact Hlist|].
  split; [apply list_elem_of_here|].
  eapply (listRecipes_agrees_with_getRecipe substring_of household "fam" None);
    [exact store_consistent_household | exact Hlist | apply list_elem_of_here].
Defined.

(** ** Validation of an update *)

Lemma recipeSchema_partial_parse_rejects data s :
  UpdateRecipeInput.name data = Some ""
  ∨ UpdateRecipeInput.instructions data = Some ""
  ∨ (∃ v, UpdateRecipeInput.prepTime data = Some v ∧ v < 0)
  ∨ (∃ v, UpdateRecipeInput.cookTime data = Some v ∧ v < 0)
  ∨ (∃ v, UpdateRecipeInput.servings data = Some v ∧ v < 1)
  ∨ UpdateRecipeInput.ingredients data = Some []
  ∨ (∃ l, UpdateRecipeInput.ingredients data = Some l
          ∧ Exists (λ i, (IngredientInput.quantity i < 0)%Q) l) →
  RecipeController.recipeSchema_partial_parse data s = (Err ZodError, s).
Proof.
  intros Hbad. unfold RecipeController.recipeSchema_partial_parse.
  match goal with |- (if ?c then _ else _) s = _ => destruct c eqn:Hc end;
    [exfalso|done].
  rewrite !andb_true_iff in Hc.
  destruct Hc as (((((Hname & Hinstructions) & Hprep) & Hcook) & Hservings)
                  & Hingredients).
  destruct Hbad as [H|[H|[(v & H & Hv)|[(v & H & Hv)|[(v & H & Hv)|[H|(l & H & Hl)]]]]]];
    rewrite H in *; simpl in *.
  - done.
  - done.
  - apply Z.leb_le in Hprep. lia.
  - apply Z.leb_le in Hcook. lia.
  - apply Z.leb_le in Hservings. lia.
  - done.
  - apply andb_true_iff in Hingredients as [_ Hquantities].
    rewrite forallb_forall in Hquantities.
    apply Exists_exists in Hl as (i & Hi & Hq).
    apply list_elem_of_In, Hquantities, Qle_bool_iff in Hi.
    by apply (Qlt_not_le _ _ Hq).
Qed.

(** X30. [RecipeController.updateRecipe] checks access before it looks at
    the data, and looks at the data before it writes: an update that
    breaks a rule of the partial [recipeSchema] (an empty name or
    instructions, a negative time, fewer than one serving, an empty
    ingredient list, a negative quantity) gets FORBIDDEN from a caller who
    neither owns the recipe nor belongs to its family, and the validation
    error from everyone else; nothing is written in either case. *)
Theorem controller_updateRecipe_validates s id recipe user data now :
  Store.recipes s !! id = Some recipe →
  UpdateRecipeInput.name data = Some ""
  ∨ UpdateRecipeInput.instructions data = Some ""
  ∨ (∃ v, UpdateRecipeInput.prepTime data = Some v ∧ v < 0)
  ∨ (∃ v, UpdateRecipeInput.cookTime data = Some v ∧ v < 0)
  ∨ (∃ v, UpdateRecipeInput.servings data = Some v ∧ v < 1)
  ∨ UpdateRecipeInput.ingredients data = Some []
  ∨ (∃ l, UpdateRecipeInput.ingredients data = Some l
          ∧ Exists (λ i, (IngredientInput.quantity i < 0)%Q) l) →
  (Recipe.userId recipe = UserContext.id user
   ∨ Recipe.familyId recipe = UserContext.familyId user →
   RecipeController.updateRecipe user id data now s = (Err ZodError, s))
  ∧ (Recipe.userId recipe ≠ UserContext.id user →
     Recipe.familyId recipe ≠ UserContext.familyId user →
     RecipeController.updateRecipe user id data now s
     = (Err (RecipeError FORBIDDEN
               "You do not have permission to update this recipe"), s)).
Proof.
  intros Hr Hbad. split.
  - intros Hor. rewrite (controller_updateRecipe_admits s id recipe user data now Hr Hor).
    unfold bind. by rewrite recipeSchema_partial_parse_rejects.
  - intros Huser Hfamily. by apply (controller_updateRecipe_refuses s id recipe).
Qed.

Lemma controller_updateRecipe_validates_household :
  Store.recipes household !! "r1" = Some soup
  ∧ RecipeController.updateRecipe bob "r1" (rename_to "") 7%nat household
    = (Err ZodError, household)
  ∧ RecipeController.updateRecipe mallory "r1" (rename_to "") 7%nat household
    = (Err (RecipeError FORBIDDEN
              "You do not have permission to update this recipe"), household).
Proof.
  split; [reflexivity|].
  assert (UpdateRecipeInput.name (rename_to "") = Some "") as Hname
    by reflexivity.
  split.
  - apply (controller_updateRecipe_validates household "r1" soup bob
             (rename_to "") 7%nat eq_refl); [by left | by right].
  - apply (controller_updateRecipe_validates household "r1" soup mallory
             (rename_to "") 7%nat eq_refl); [by left | done | done].
Defined.

Lemma controller_lists_own_and_family_household :
  RecipeController.getFamilyRecipes bob "other" household
  = (Err (RecipeError FORBIDDEN
            "You do not have access to this family's recipes"), household)
  ∧ ∃ results,
      RecipeController.getFamilyRecipes bob "fam" household = (Ok results, household)
      ∧ soup ∈ (RecipeResult.row <$> results).
Proof.
  destruct (controller_lists_own_and_family household bob)
    as (_ & Hother & results & Hcall & _ & Hrows).
  split; [by apply Hother|].
  exists results. split; [exact Hcall|].
  apply Hrows. split; [by exists "r1"|reflexivity].
Defined.
